(** * Stream alerts: presence poller, alert dispatch, alert resolution, templates

    A shallow embedding of the stream-alert cog ([cog.py]), its settings
    ([settings.py]) and its row models ([streamalerts/data.py]).

    - Row models are records, tables are lists of rows in table order.
    - [self.watching] is an insertion-ordered dictionary (its key order decides
      the pages), [self.live_streams] and [streaming] are finite maps.  The
      keys of [self.watching] are integers read from the data base; those of
      the other two are Python values, integers or strings, and an integer
      is never the same key as a string.
    - Coroutines run in a state-and-exception monad over the durable data and
      the log of calls made to Discord.  The behaviour of Discord, of the
      Twitch API, of the clock and of set iteration is read from an
      environment record, so every statement quantifies over it.
    - Timestamps are integer epoch seconds; logging is not modelled. *)

From Stdlib Require Import ZArith String List DecimalString Lia.
From stdpp Require Import gmap list strings.

Open Scope Z_scope.

(** ** Row models ([streamalerts/data.py]) *)

(** Message data: the parsed JSON value of a [MessageSetting]. *)
#[warnings="-register-all"] Inductive json : Type :=
| JNull
| JBool (b : bool)
| JNum (n : Z)
| JStr (s : string)
| JList (items : list json)
| JDict (items : list (string * json)).

Module Streamer.
Record row : Type := mk
  { userid : Z;
    login_name : string;
    display_name : string }.
End Streamer.

Module AlertChannel.
Record row : Type := mk
  { subscriptionid : Z;
    guildid : Z;
    channelid : Z;
    streamerid : Z;
    created_by : Z;
    created_at : Z;
    paused : bool;
    end_delete : bool;
    live_message : option json;
    end_message : option json }.
End AlertChannel.

Module Stream.
Record row : Type := mk
  { streamid : Z;
    streamerid : Z;
    start_at : Z;
    twitch_stream_id : Z;
    game_name : string;
    title : string;
    end_at : option Z }.

Definition with_end_at (t : option Z) (r : row) : row :=
  mk (streamid r) (streamerid r) (start_at r) (twitch_stream_id r)
     (game_name r) (title r) t.
End Stream.

Module StreamAlert.
Record row : Type := mk
  { alertid : Z;
    streamid : Z;
    subscriptionid : Z;
    sent_at : Z;
    messageid : Z;
    resolved_at : option Z }.

Definition with_resolved_at (t : option Z) (r : row) : row :=
  mk (alertid r) (streamid r) (subscriptionid r) (sent_at r) (messageid r) t.
End StreamAlert.

(** One element of the [get_streams] response of the Twitch API.  The
    identifiers of the API are [str] objects. *)
Module TwitchStream.
Record t : Type := mk
  { id : string;
    user_id : string;
    started_at : Z;
    game_name : string;
    title : string }.
End TwitchStream.

(** A key of the dictionaries [live_streams] and [streaming].  [load_subs]
    files a stream under the [int] read from its [streamerid] column, the
    polling loop under the [str] that the Twitch API gives as [user_id].  In
    Python an [int] and a [str] are never equal, whatever the [str] spells,
    so they are never the same key. *)
Inductive key : Type :=
| IntKey (n : Z)
| StrKey (s : string).

#[global] Instance key_eq_dec : EqDecision key.
Proof. solve_decision. Defined.

#[global] Instance key_countable : Countable key.
Proof.
  refine (inj_countable' (λ k, match k with IntKey n => inl n | StrKey s => inr s end)
                         (λ x, match x with inl n => IntKey n | inr s => StrKey s end) _).
  now intros [].
Defined.

(** The registry [AlertsData]: four tables and the two SERIAL counters. *)
Record AlertsData : Type := mkData
  { streamers : list Streamer.row;
    alert_channels : list AlertChannel.row;
    streams : list Stream.row;
    stream_alerts : list StreamAlert.row;
    next_streamid : Z;
    next_alertid : Z }.

(** ** Discord, as seen by the cog *)

Record Channel : Type := mkChannel
  { messageable : bool;
    send_messages : bool;
    embed_links : bool }.

Inductive exn : Type :=
| HTTPException     (* discord.HTTPException and its subclasses *)
| OtherException.   (* any other exception *)

Inductive outcome (A : Type) : Type :=
| Return (a : A)
| Raise (e : exn).
Arguments Return {A} a.
Arguments Raise {A} e.

(** Modelled from the spec: [MessageSetting.value_to_args] is not part of the
    sources at hand; the spec only says that the rendered template is turned
    into the destination arguments, so the arguments are the rendered data
    itself together with the subscription they were built for. *)
Record MessageArgs : Type := mkArgs
  { args_subscriptionid : Z;
    args_data : option json }.

Definition value_to_args (subscriptionid : Z) (formatted : option json) : MessageArgs :=
  mkArgs subscriptionid formatted.

(** The calls the cog makes to Discord. *)
Inductive call : Type :=
| Send (channelid : Z) (args : MessageArgs)
| FetchMessage (channelid messageid : Z)
| Delete (channelid messageid : Z)
| Edit (channelid messageid : Z) (args : MessageArgs).

(** A logged call with its result: [None] when it succeeded. *)
Definition event : Type := call * option exn.

(** Everything outside the process. *)
Record Env : Type := mkEnv
  { utc_now : Z;
    get_channel : Z → option Channel;
    channel_send : Z → MessageArgs → outcome Z;
    channel_fetch_message : Z → Z → outcome unit;
    message_delete : Z → Z → outcome unit;
    message_edit : Z → Z → MessageArgs → outcome unit;
    (* twitch.get_streams(user_id=block, first=100) *)
    get_streams : list Z → list TwitchStream.t;
    (* the order in which a Python set is iterated *)
    set_iter : gset key → list key;
    (* the number the data base stores in a BIGINT column when it is given
       a [str] *)
    bigint_of_str : string → Z }.

(** ** The monad of the coroutines *)

Record world : Type := mkWorld
  { data : AlertsData;
    discord_calls : list event }.

Definition M (A : Type) : Type := world → outcome A * world.

Definition ret {A} (a : A) : M A := λ w, (Return a, w).

Definition raise {A} (e : exn) : M A := λ w, (Raise e, w).

Definition bind {A B} (m : M A) (k : A → M B) : M B :=
  λ w, match m w with
       | (Return a, w') => k a w'
       | (Raise e, w') => (Raise e, w')
       end.

Notation "x <~ m ;; k" := (bind m (λ x, k))
  (at level 100, m at next level, right associativity).
Notation "m ;;; k" := (bind m (λ _, k))
  (at level 100, right associativity).

(** [try: m / except discord.HTTPException: ...] where the handler falls
    through with no value. *)
Definition try_http {A} (m : M A) : M (option A) :=
  λ w, match m w with
       | (Return a, w') => (Return (Some a), w')
       | (Raise HTTPException, w') => (Return None, w')
       | (Raise OtherException, w') => (Raise OtherException, w')
       end.

Definition of_outcome {A} (o : outcome A) : M A := λ w, (o, w).

Definition status {A} (o : outcome A) : option exn :=
  match o with Return _ => None | Raise e => Some e end.

(** A call to Discord: logged with its result, which is then returned or
    raised. *)
Definition discord {A} (c : call) (o : outcome A) : M A :=
  λ w, (o, mkWorld (data w) (discord_calls w ++ [(c, status o)])).

Definition get_data : M AlertsData := λ w, (Return (data w), w).

Definition put_data (d : AlertsData) : M unit :=
  λ w, (Return tt, mkWorld d (discord_calls w)).

(** ** Data access ([RowModel]) *)

Definition Streamer_fetch (userid : Z) : M (option Streamer.row) :=
  d <~ get_data ;;
  ret (List.find (λ r, Z.eqb (Streamer.userid r) userid) (streamers d)).

(** The rows selected by [AlertChannel.fetch_where(streamerid=uid)]. *)
Definition subscriptions_of (uid : Z) (d : AlertsData) : list AlertChannel.row :=
  List.filter (λ r, Z.eqb (AlertChannel.streamerid r) uid) (alert_channels d).

Definition AlertChannel_fetch_where_streamerid (uid : Z) : M (list AlertChannel.row) :=
  d <~ get_data ;;
  ret (subscriptions_of uid d).

Definition alert_matches (streamid subscriptionid : Z) (r : StreamAlert.row) : bool :=
  Z.eqb (StreamAlert.streamid r) streamid
  && Z.eqb (StreamAlert.subscriptionid r) subscriptionid.

(** The rows selected by [StreamAlert.fetch_where(streamid=..., subscriptionid=...)],
    in table order. *)
Definition alerts_for (streamid subscriptionid : Z) (d : AlertsData) : list StreamAlert.row :=
  List.filter (alert_matches streamid subscriptionid) (stream_alerts d).

Definition StreamAlert_fetch_where (streamid subscriptionid : Z) : M (list StreamAlert.row) :=
  d <~ get_data ;;
  ret (alerts_for streamid subscriptionid d).

Definition StreamAlert_create (streamid subscriptionid sent_at messageid : Z)
  : M StreamAlert.row :=
  d <~ get_data ;;
  let r := StreamAlert.mk (next_alertid d) streamid subscriptionid sent_at messageid None in
  put_data (mkData (streamers d) (alert_channels d) (streams d)
                   (stream_alerts d ++ [r]) (next_streamid d) (next_alertid d + 1)) ;;;
  ret r.

(** The effect of [alert.update(resolved_at=t)] on one row of the table:
    UPDATE ... SET resolved_at = t WHERE alertid = the key of [alert]. *)
Definition resolve_row (alert : StreamAlert.row) (t : Z) (r : StreamAlert.row)
  : StreamAlert.row :=
  if Z.eqb (StreamAlert.alertid r) (StreamAlert.alertid alert)
  then StreamAlert.with_resolved_at (Some t) r else r.

Definition StreamAlert_update_resolved_at (alert : StreamAlert.row) (t : Z) : M unit :=
  d <~ get_data ;;
  put_data (mkData (streamers d) (alert_channels d) (streams d)
                   (List.map (resolve_row alert t) (stream_alerts d))
                   (next_streamid d) (next_alertid d)).

(** [Stream.create(streamerid=stream.user_id, ..., twitch_stream_id=stream.id, ...)]:
    the two identifiers are handed over as the [str] objects of the Twitch
    API; the row that comes back holds what the BIGINT columns store for
    them.  The INSERT is taken to succeed. *)
Definition Stream_create (env : Env) (d : AlertsData) (s : TwitchStream.t)
  : Stream.row * AlertsData :=
  let r := Stream.mk (next_streamid d) (bigint_of_str env (TwitchStream.user_id s))
                     (TwitchStream.started_at s)
                     (bigint_of_str env (TwitchStream.id s))
                     (TwitchStream.game_name s) (TwitchStream.title s)
                     None in
  (r, mkData (streamers d) (alert_channels d) (streams d ++ [r]) (stream_alerts d)
             (next_streamid d + 1) (next_alertid d)).

(** [stream_data.update(end_at=t)]: the row object and the table row. *)
Definition Stream_update_end_at (d : AlertsData) (stream_data : Stream.row) (t : Z)
  : Stream.row * AlertsData :=
  (Stream.with_end_at (Some t) stream_data,
   mkData (streamers d) (alert_channels d)
          (List.map (λ r, if Z.eqb (Stream.streamid r) (Stream.streamid stream_data)
                          then Stream.with_end_at (Some t) r else r)
                    (streams d))
          (stream_alerts d) (next_streamid d) (next_alertid d)).

(** ** Template engine ([settings.py], with [utils.lib]) *)

(** A value bound to a placeholder: a string or an integer. *)
Inductive binding : Type :=
| BStr (s : string)
| BInt (n : Z).

(** Python's [str] on a binding. *)
Definition str (b : binding) : string :=
  match b with
  | BStr s => s
  | BInt n => NilZero.string_of_int (Z.to_int n)
  end.

Definition mapping : Type := list (string * binding).

(** The first placeholder, in the order of the mapping, that the text starts
    with: the alternation [(k1)|(k2)|...] tried at one position. *)
Fixpoint match_key (m : mapping) (s : string) : option (string * binding) :=
  match m with
  | [] => None
  | (k, v) :: m' => if String.prefix k s then Some (k, v) else match_key m' s
  end.

(** Modelled from the spec: [utils.lib.replace_multiple] is not part of the
    sources at hand.  The spec describes a simultaneous literal replacement
    of every occurrence of each placeholder, in one pass and not chained:
    the text is scanned from the left, a placeholder found at the current
    position is replaced by its value and skipped, any other character is
    copied.  [skip] counts the characters of a matched placeholder that are
    still to be dropped (placeholders are never empty). *)
Fixpoint replace_from (m : mapping) (skip : nat) (s : string) : string :=
  match s with
  | EmptyString => EmptyString
  | String c s' =>
      match skip with
      | S n => replace_from m n s'
      | O =>
          match match_key m s with
          | Some (k, v) => (str v +:+ replace_from m (String.length k - 1) s')%string
          | None => String c (replace_from m 0 s')
          end
      end
  end.

Definition replace_multiple (format_string : string) (m : mapping) : string :=
  replace_from m 0 format_string.

(** Modelled from the spec: [utils.lib.recurse_map] is not part of the
    sources at hand.  The spec says that every leaf of the nested structure
    of mappings and sequences is visited and that the shape is untouched;
    the function passed by the formatters ignores the location argument. *)
Fixpoint recurse_map (func : json → json) (obj : json) : json :=
  match obj with
  | JDict items =>
      JDict ((fix on_items (l : list (string * json)) : list (string * json) :=
                match l with
                | [] => []
                | (k, v) :: l' => (k, recurse_map func v) :: on_items l'
                end) items)
  | JList items =>
      JList ((fix on_list (l : list json) : list json :=
                match l with
                | [] => []
                | v :: l' => recurse_map func v :: on_list l'
                end) items)
  | leaf => func leaf
  end.

(** [lambda loc, value: replace_multiple(value, mapping)
                        if isinstance(value, str) else value] *)
Definition substitute (m : mapping) (value : json) : json :=
  match value with
  | JStr s => JStr (replace_multiple s m)
  | other => other
  end.

(** Python truth value of message data ([if not data_dict]). *)
Definition truthy (v : json) : bool :=
  match v with
  | JNull => false
  | JBool b => b
  | JNum n => negb (Z.eqb n 0)
  | JStr s => negb (String.eqb s "")
  | JList l => match l with [] => false | _ => true end
  | JDict l => match l with [] => false | _ => true end
  end.

Definition truthy_opt (v : option json) : bool :=
  match v with
  | None => false
  | Some v => truthy v
  end.

Module AlertSettings.

Module AlertMessage.
(** [_default] *)
Definition default : json :=
  JDict [("content"%string,
          JStr "**{display_name}** just went live at {channel_link}")].

(** The setting's value: the stored column, or the default. *)
Definition value (sub : AlertChannel.row) : option json :=
  match AlertChannel.live_message sub with
  | Some v => Some v
  | None => Some default
  end.

Definition bindings (stream : Stream.row) (streamer : Streamer.row) : mapping :=
  [ ("{display_name}"%string, BStr (Streamer.display_name streamer));
    ("{login_name}"%string, BStr (Streamer.login_name streamer));
    ("{channel_link}"%string,
      BStr ("https://www.twitch.tv/" +:+ Streamer.login_name streamer));
    ("{stream_start}"%string, BInt (Stream.start_at stream)) ].

(** [generate_formatter(bot, stream, streamer)] applied to the data. *)
Definition formatter (stream : Stream.row) (streamer : Streamer.row)
           (data_dict : option json) : option json :=
  match data_dict with
  | None => None
  | Some d =>
      if negb (truthy d) then None
      else Some (recurse_map (substitute (bindings stream streamer)) d)
  end.
End AlertMessage.

Module AlertEndMessage.
(** [_default = None] *)
Definition value (sub : AlertChannel.row) : option json :=
  AlertChannel.end_message sub.

(** Building the mapping reads [streamer.display_name] and
    [stream.end_at.timestamp()]: an attribute error when the streamer
    row is missing or the stream has no end time. *)
Definition bindings (stream : Stream.row) (streamer : option Streamer.row)
  : outcome mapping :=
  match streamer, Stream.end_at stream with
  | Some streamer, Some stream_end =>
      Return
        [ ("{display_name}"%string, BStr (Streamer.display_name streamer));
          ("{login_name}"%string, BStr (Streamer.login_name streamer));
          ("{channel_link}"%string,
            BStr ("https://www.twitch.tv/" +:+ Streamer.login_name streamer));
          ("{stream_start}"%string, BInt (Stream.start_at stream));
          ("{stream_end}"%string, BInt stream_end) ]
  | _, _ => Raise OtherException
  end.

Definition formatter (stream : Stream.row) (streamer : option Streamer.row)
           (data_dict : option json) : outcome (option json) :=
  match data_dict with
  | None => Return None
  | Some d =>
      if negb (truthy d) then Return None
      else match bindings stream streamer with
           | Return m => Return (Some (recurse_map (substitute m) d))
           | Raise e => Raise e
           end
  end.
End AlertEndMessage.

Module AlertEndDelete.
Definition value (sub : AlertChannel.row) : bool := AlertChannel.end_delete sub.
End AlertEndDelete.

Module AlertPaused.
Definition value (sub : AlertChannel.row) : bool := AlertChannel.paused sub.
End AlertPaused.

End AlertSettings.

(** ** Alert dispatch ([AlertCog.sub_alert], [AlertCog.on_stream_start]) *)

(** [subscription_error] only logs. *)
Definition subscription_error (subscription : AlertChannel.row)
           (stream_data : Stream.row) (err_msg : string) : M unit :=
  ret tt.

Definition sub_alert (env : Env) (subscription : AlertChannel.row)
           (stream_data : Stream.row) : M unit :=
  match get_channel env (AlertChannel.channelid subscription) with
  | None =>
      subscription_error subscription stream_data
                         "Subscription channel no longer exists."
  | Some channel =>
      if negb (messageable channel) then
        subscription_error subscription stream_data
                           "Subscription channel no longer exists."
      else if negb (send_messages channel && embed_links channel) then
        subscription_error subscription stream_data
                           "Insufficient permissions to post alert message."
      else
        streamer <~ Streamer_fetch (Stream.streamerid stream_data) ;;
        match streamer with
        | None => ret tt
        | Some streamer =>
            if AlertSettings.AlertPaused.value subscription then ret tt
            else
              let live_message := AlertSettings.AlertMessage.value subscription in
              let formatted :=
                AlertSettings.AlertMessage.formatter stream_data streamer live_message in
              let args :=
                value_to_args (AlertChannel.subscriptionid subscription) formatted in
              sent <~ try_http
                        (discord (Send (AlertChannel.channelid subscription) args)
                                 (channel_send env (AlertChannel.channelid subscription) args)) ;;
              match sent with
              | None =>
                  subscription_error subscription stream_data
                                     "Failed to post live alert."
              | Some message_id =>
                  StreamAlert_create (Stream.streamid stream_data)
                                     (AlertChannel.subscriptionid subscription)
                                     (utc_now env) message_id ;;;
                  ret tt
              end
        end
  end.

(** The tests of [sub_alert] on the channel: it is there, messages can be
    sent to it, and the bot may send messages and embed links. *)
Definition can_post (env : Env) (subscription : AlertChannel.row) : bool :=
  match get_channel env (AlertChannel.channelid subscription) with
  | Some channel => messageable channel && send_messages channel && embed_links channel
  | None => false
  end.

(** The arguments [sub_alert] sends for a subscription and a stream. *)
Definition live_args (subscription : AlertChannel.row) (stream_data : Stream.row)
           (streamer : Streamer.row) : MessageArgs :=
  value_to_args (AlertChannel.subscriptionid subscription)
    (AlertSettings.AlertMessage.formatter stream_data streamer
       (AlertSettings.AlertMessage.value subscription)).

(** The loop shared by [on_stream_start] and [on_stream_end]:
    [except discord.HTTPException] logs and goes on with the next
    subscription, [except Exception] logs and raises again. *)
Fixpoint for_each_sub (handler : AlertChannel.row → Stream.row → M unit)
         (subbed : list AlertChannel.row) (stream_data : Stream.row) : M unit :=
  match subbed with
  | [] => ret tt
  | sub :: rest =>
      (λ w, match handler sub stream_data w with
            | (Return _, w') => for_each_sub handler rest stream_data w'
            | (Raise HTTPException, w') => for_each_sub handler rest stream_data w'
            | (Raise OtherException, w') => (Raise OtherException, w')
            end)
  end.

Definition on_stream_start (env : Env) (stream_data : Stream.row) : M unit :=
  subbed <~ AlertChannel_fetch_where_streamerid (Stream.streamerid stream_data) ;;
  for_each_sub (sub_alert env) subbed stream_data.

(** ** Alert resolution ([AlertCog.sub_resolve], [AlertCog.on_stream_end]) *)

(** Finding the message of the alert: [None] when the channel is gone or the
    fetch fails with a [discord.HTTPException]. *)
Definition find_message (env : Env) (subscription : AlertChannel.row)
           (alert : StreamAlert.row) : M (option unit) :=
  match get_channel env (AlertChannel.channelid subscription) with
  | Some _ =>
      try_http
        (discord (FetchMessage (AlertChannel.channelid subscription)
                               (StreamAlert.messageid alert))
                 (channel_fetch_message env (AlertChannel.channelid subscription)
                                        (StreamAlert.messageid alert)))
  | None => ret None
  end.

Definition sub_resolve (env : Env) (subscription : AlertChannel.row)
           (stream_data : Stream.row) : M unit :=
  alerts <~ StreamAlert_fetch_where (Stream.streamid stream_data)
                                    (AlertChannel.subscriptionid subscription) ;;
  match alerts with
  | [] => ret tt
  | alert :: _ =>
      match StreamAlert.resolved_at alert with
      | Some _ => ret tt
      | None =>
          let delmsg := AlertSettings.AlertEndDelete.value subscription in
          let edit_setting := AlertSettings.AlertEndMessage.value subscription in
          (if delmsg || truthy_opt edit_setting then
             message <~ find_message env subscription alert ;;
             match message with
             | Some _ =>
                 let channelid := AlertChannel.channelid subscription in
                 let messageid := StreamAlert.messageid alert in
                 if delmsg then
                   try_http (discord (Delete channelid messageid)
                                     (message_delete env channelid messageid)) ;;;
                   ret tt
                 else
                   streamer <~ Streamer_fetch (Stream.streamerid stream_data) ;;
                   formatted <~ of_outcome
                     (AlertSettings.AlertEndMessage.formatter stream_data streamer edit_setting) ;;
                   let args :=
                     value_to_args (AlertChannel.subscriptionid subscription) formatted in
                   try_http (discord (Edit channelid messageid args)
                                     (message_edit env channelid messageid args)) ;;;
                   ret tt
             | None => ret tt
             end
           else ret tt) ;;;
          StreamAlert_update_resolved_at alert (utc_now env)
      end
  end.

Definition on_stream_end (env : Env) (stream_data : Stream.row) : M unit :=
  subbed <~ AlertChannel_fetch_where_streamerid (Stream.streamerid stream_data) ;;
  for_each_sub (sub_resolve env) subbed stream_data.

(** ** The presence poller ([AlertCog.load_subs], [AlertCog.poll_live]) *)

(** [d[k] = v] on an insertion-ordered dictionary: a present key keeps its
    place, a new key goes last. *)
Fixpoint dict_set {V : Type} (k : Z) (v : V) (d : list (Z * V)) : list (Z * V) :=
  match d with
  | [] => [(k, v)]
  | (k', v') :: d' => if Z.eqb k' k then (k, v) :: d' else (k', v') :: dict_set k v d'
  end.

Definition dict_keys {V : Type} (d : list (Z * V)) : list Z := List.map fst d.

(** The two caches of the cog.  Both places that fill [watching] use the
    [userid] of a streamer row as the key. *)
Record Cog : Type := mkCog
  { watching : list (Z * Streamer.row);
    live_streams : gmap key Stream.row }.

(** Modelled from the spec: [data.conditions.NULL] and the comparison of a
    column with it are not part of the sources at hand.  The spec lists
    equality and "is not null" as the filters of the persistence layer, the
    latter being the one used at startup: [Stream.end_at != NULL] selects
    the rows whose end time is not null. *)
Definition end_at_ne_NULL (r : Stream.row) : bool :=
  match Stream.end_at r with
  | Some _ => true
  | None => false
  end.

(** The dictionary comprehension [{stream.streamerid: stream for stream in ...}]:
    a later row replaces an earlier one with the same key. *)
Definition by_streamerid (rows : list Stream.row) : gmap key Stream.row :=
  fold_left (λ m r, <[IntKey (Stream.streamerid r) := r]> m) rows ∅.

Definition load_subs (d : AlertsData) : Cog :=
  let active_subs := alert_channels d in
  let to_watch : gset Z := list_to_set (List.map AlertChannel.streamerid active_subs) in
  let live_streams := List.filter end_at_ne_NULL (streams d) in
  (* [to_watch.union(...)] builds a new set, which is dropped *)
  let _ := to_watch ∪ list_to_set (List.map Stream.streamerid live_streams) in
  let watching :=
    if decide (to_watch = ∅) then []
    else
      let streamers :=
        List.filter (λ r, bool_decide (Streamer.userid r ∈ to_watch)) (streamers d) in
      fold_left (λ acc streamer, dict_set (Streamer.userid streamer) streamer acc)
                streamers []
  in
  mkCog watching (by_streamerid live_streams).

(** [range(0, stop, step)] *)
Definition range_step (stop step : nat) : list nat :=
  List.map (λ k, (k * step)%nat) (seq 0 ((stop + step - 1) / step)).

(** [[to_request[i:i+100] for i in range(0, len(to_request), 100)]] *)
Definition blocks_of (to_request : list Z) : list (list Z) :=
  List.map (λ i, firstn 100 (skipn i to_request))
           (range_step (List.length to_request) 100).

(** [block_i += 1; block_i %= len(blocks)] *)
Definition next_block_i (block_i : nat) (blocks : list (list Z)) : nat :=
  ((block_i + 1) mod List.length blocks)%nat.

(** The page requested in this cycle. *)
Definition block_of (cog : Cog) (block_i : nat) : list Z :=
  let blocks := blocks_of (dict_keys (watching cog)) in
  nth (next_block_i block_i blocks) blocks [].

(** [streaming[stream.user_id] = stream] for every stream of the response. *)
Definition streaming_of (env : Env) (block : list Z) : gmap key TwitchStream.t :=
  fold_left (λ m s, <[StrKey (TwitchStream.user_id s) := s]> m) (get_streams env block) ∅.

Definition started_of (streaming : gmap key TwitchStream.t) (cog : Cog) : gset key :=
  dom streaming ∖ dom (live_streams cog).

Definition ended_of (streaming : gmap key TwitchStream.t) (cog : Cog) : gset key :=
  dom (live_streams cog) ∖ dom streaming.

(** The detached tasks created by a cycle. *)
Inductive task : Type :=
| OnStreamStart (stream_data : Stream.row)
| OnStreamEnd (stream_data : Stream.row).

Record poll_state : Type := mkPoll
  { poll_cog : Cog;
    poll_data : AlertsData;
    event_tasks : list task }.

(** The body of [for streamerid in started]. *)
Definition start_step (env : Env) (streaming : gmap key TwitchStream.t) (st : poll_state)
           (streamerid : key) : poll_state :=
  match streaming !! streamerid with
  | None => st   (* KeyError: [started] only holds keys of [streaming] *)
  | Some stream =>
      let '(stream_data, d) := Stream_create env (poll_data st) stream in
      mkPoll (mkCog (watching (poll_cog st))
                    (<[streamerid := stream_data]> (live_streams (poll_cog st))))
             d
             (event_tasks st ++ [OnStreamStart stream_data])
  end.

(** The body of [for streamerid in ended]. *)
Definition end_step (env : Env) (st : poll_state) (streamerid : key) : poll_state :=
  match live_streams (poll_cog st) !! streamerid with
  | None => st   (* KeyError: [ended] only holds keys of [live_streams] *)
  | Some stream_data =>
      let '(stream_data', d) := Stream_update_end_at (poll_data st) stream_data (utc_now env) in
      mkPoll (mkCog (watching (poll_cog st))
                    (delete streamerid (live_streams (poll_cog st))))
             d
             (event_tasks st ++ [OnStreamEnd stream_data'])
  end.

(** One turn of the [while self.polling] loop, after the sleep.  The result
    holds the caches, the data, the tasks created, and the new [block_i]. *)
Definition poll_cycle (env : Env) (cog : Cog) (d : AlertsData) (block_i : nat)
  : poll_state * nat :=
  let to_request := dict_keys (watching cog) in
  match to_request with
  | [] => (mkPoll cog d [], block_i)   (* continue *)
  | _ =>
      let blocks := blocks_of to_request in
      let block_i := next_block_i block_i blocks in
      let block := nth block_i blocks [] in
      let streaming := streaming_of env block in
      let started := started_of streaming cog in
      let ended := ended_of streaming cog in
      let st := fold_left (start_step env streaming) (set_iter env started)
                          (mkPoll cog d []) in
      let st := fold_left (end_step env) (set_iter env ended) st in
      (st, block_i)
  end.

(** The streamer a key stands for: the integer itself, or the number the
    data base reads from the string. *)
Definition key_streamerid (env : Env) (k : key) : Z :=
  match k with
  | IntKey n => n
  | StrKey s => bigint_of_str env s
  end.

(** The key [k] is the [user_id] of a stream of the response. *)
Definition answered (response : list TwitchStream.t) (k : key) : Prop :=
  ∃ s, In s response ∧ k = StrKey (TwitchStream.user_id s).

(** The streamer with the Twitch identifier [user_id] is tracked after a
    start: the cache holds, under that identifier, an open stream of theirs,
    a start task was created for it, and the table has its row. *)
Definition tracked (env : Env) (user_id : string) (st : poll_state) : Prop :=
  ∃ stream_data,
    live_streams (poll_cog st) !! StrKey user_id = Some stream_data
    ∧ Stream.streamerid stream_data = bigint_of_str env user_id
    ∧ Stream.end_at stream_data = None
    ∧ In (OnStreamStart stream_data) (event_tasks st)
    ∧ ∃ r, In r (streams (poll_data st))
           ∧ Stream.streamid r = Stream.streamid stream_data
           ∧ Stream.streamerid r = bigint_of_str env user_id.

(** ** Counting rows *)

(** The number of alert rows of a (stream, subscription) pair. *)
Definition alert_count (streamid subscriptionid : Z) (d : AlertsData) : nat :=
  List.length (alerts_for streamid subscriptionid d).

(** Whether a subscription identifier occurs in a list of subscriptions. *)
Definition subscribed (subscriptionid : Z) (subbed : list AlertChannel.row) : bool :=
  existsb (λ s, Z.eqb (AlertChannel.subscriptionid s) subscriptionid) subbed.

(** ** Reading the log of Discord calls *)

Definition is_delete (e : event) : bool :=
  match fst e with Delete _ _ => true | _ => false end.

Definition is_edit (e : event) : bool :=
  match fst e with Edit _ _ _ => true | _ => false end.

Definition succeeded (e : event) : bool :=
  match snd e with None => true | Some _ => false end.

(** A delete or an edit that was carried out. *)
Definition mutated (e : event) : bool := (is_delete e || is_edit e) && succeeded e.

Definition mutations (log : list event) : nat := List.length (List.filter mutated log).

(** ** Concrete data for the examples *)

Definition alice : Streamer.row := Streamer.mk 7 "alice" "alice".

Definition bob : Streamer.row := Streamer.mk 5 "bob" "Bob".

(** A subscription of channel [channelid] to alice. *)
Definition alice_sub (subscriptionid channelid : Z) (paused end_delete : bool)
           (end_message : option json) : AlertChannel.row :=
  AlertChannel.mk subscriptionid 1 channelid 7 42 900 paused end_delete None end_message.

Definition sub1 : AlertChannel.row := alice_sub 1 100 false false None.

Definition sub2 : AlertChannel.row := alice_sub 2 200 false false None.

Definition sub3 : AlertChannel.row := alice_sub 3 300 false false None.

Definition end_template : json :=
  JDict [("content"%string, JStr "{display_name} was live until {stream_end}")].

(** alice's open stream, as created by the poller at epoch 1000. *)
Definition alice_stream : Stream.row :=
  Stream.mk 1 7 1000 31 "chess" "hello" None.

Definition alice_twitch : TwitchStream.t :=
  TwitchStream.mk "31" "7" 1000 "chess" "hello".

Definition data_of (subs : list AlertChannel.row) (streams : list Stream.row)
           (alerts : list StreamAlert.row) : AlertsData :=
  mkData [alice; bob] subs streams alerts 2 1.

Definition world_of (subs : list AlertChannel.row) (alerts : list StreamAlert.row) : world :=
  mkWorld (data_of subs [alice_stream] alerts) [].

Definition text_channel : Channel := mkChannel true true true.

(** The number a string of decimal digits spells (0 for any other string). *)
Definition decimal (s : string) : Z :=
  match NilZero.int_of_string s with
  | Some n => Z.of_int n
  | None => 0
  end.

(** Twitch answers with the members of [live] that were asked for. *)
Definition twitch_of (live : list TwitchStream.t) (block : list Z) : list TwitchStream.t :=
  List.filter (λ s, bool_decide (decimal (TwitchStream.user_id s) ∈ block)) live.

(** An environment in which every channel exists and every call succeeds;
    the message sent to channel [c] gets the identifier [5000 + c]; the
    identifiers of Twitch are decimal numbers. *)
Definition env_ok (now : Z) (live : list TwitchStream.t) : Env :=
  mkEnv now
        (λ _, Some text_channel)
        (λ c _, Return (5000 + c))
        (λ _ _, Return tt)
        (λ _ _, Return tt)
        (λ _ _ _, Return tt)
        (twitch_of live)
        elements
        decimal.

(** The alert sent for (stream 1, subscription 1), still open, and a second
    row for the same pair. *)
Definition alert1 : StreamAlert.row := StreamAlert.mk 1 1 1 1000 5100 None.

Definition alert1_again : StreamAlert.row := StreamAlert.mk 2 1 1 1001 5101 None.

(** A subscription with [end_delete] on and an end message configured. *)
Definition sub_delete : AlertChannel.row := alice_sub 1 100 false true (Some end_template).

(** A paused subscription. *)
Definition sub_paused : AlertChannel.row := alice_sub 1 100 true false None.

(** alice's stream once the poller has closed it at epoch 2000. *)
Definition alice_ended : Stream.row := Stream.with_end_at (Some 2000) alice_stream.

(** As [env_ok], but deleting a message fails with [e]. *)
Definition env_delete_fails (e : exn) (now : Z) : Env :=
  mkEnv now
        (λ _, Some text_channel)
        (λ c _, Return (5000 + c))
        (λ _ _, Return tt)
        (λ _ _, Raise e)
        (λ _ _ _, Return tt)
        (twitch_of [])
        elements
        decimal.

(** The tables found at a restart: bob has a subscription and a stream that
    ended at epoch 50; alice has no subscription and a stream that is still
    open. *)
Definition bob_sub : AlertChannel.row :=
  AlertChannel.mk 3 1 300 5 42 10 false false None None.

Definition bob_closed : Stream.row := Stream.mk 2 5 20 32 "go" "bye" (Some 50).

Definition restart_data : AlertsData :=
  mkData [alice; bob] [bob_sub] [alice_stream; bob_closed] [] 3 1.

(** A watch list of 101 streamers, with keys 0 to 100: two pages.  The
    cache holds a stream of streamer 0 that the polling loop has started. *)
Definition streamer_n (n : nat) : Z * Streamer.row :=
  (Z.of_nat n, Streamer.mk (Z.of_nat n) "s" "S").

Definition two_pages : Cog :=
  mkCog (List.map streamer_n (seq 0 101))
        {[ StrKey "0" := Stream.mk 1 0 1000 31 "chess" "hello" None ]}.

(** The stream of streamer 0 that [two_pages] holds in its cache, its row
    in the table, and what Twitch reports for it: it is still live. *)
Definition zero_stream : Stream.row := Stream.mk 1 0 1000 31 "chess" "hello" None.

Definition zero_twitch : TwitchStream.t := TwitchStream.mk "31" "0" 1000 "chess" "hello".

Definition two_pages_data : AlertsData := mkData [] [] [zero_stream] [] 2 1.

(** The same with a stream of streamer 100 in the cache as well, which
    Twitch also reports. *)
Definition hundred_stream : Stream.row := Stream.mk 2 100 1010 32 "go" "hi" None.

Definition hundred_twitch : TwitchStream.t := TwitchStream.mk "32" "100" 1010 "go" "hi".

Definition two_pages_live : Cog :=
  mkCog (List.map streamer_n (seq 0 101))
        (<[ StrKey "100" := hundred_stream ]> {[ StrKey "0" := zero_stream ]}).

Definition two_pages_live_data : AlertsData :=
  mkData [] [] [zero_stream; hundred_stream] [] 3 1.

(** Only alice is watched, nothing is cached. *)
Definition alice_watched : Cog := mkCog [(7, alice)] ∅.

(** What Twitch reports for bob once he is live again. *)
Definition bob_twitch : TwitchStream.t := TwitchStream.mk "33" "5" 1990 "go" "back".

(** As [env_ok], but sending to channel 100 fails with [e]. *)
Definition env_send_fails (e : exn) (now : Z) : Env :=
  mkEnv now
        (λ _, Some text_channel)
        (λ c _, if Z.eqb c 100 then Raise e else Return (5000 + c))
        (λ _ _, Return tt)
        (λ _ _, Return tt)
        (λ _ _ _, Return tt)
        (twitch_of [])
        elements
        decimal.

(** * Further definitions *)

(** Consecutive turns of the polling loop with nothing else running in
    between, one environment per turn: the caches, the data and [block_i]
    after the last turn. *)
Fixpoint poll_cycles (envs : list Env) (cog : Cog) (d : AlertsData) (block_i : nat)
  : Cog * AlertsData * nat :=
  match envs with
  | [] => (cog, d, block_i)
  | env :: envs' =>
      let '(st, block_i') := poll_cycle env cog d block_i in
      poll_cycles envs' (poll_cog st) (poll_data st) block_i'
  end.

(** Every stream of the cache is filed under a key that stands for its own
    streamer. *)
Definition cache_consistent (env : Env) (live : gmap key Stream.row) : Prop :=
  ∀ k stream_data,
    live !! k = Some stream_data → Stream.streamerid stream_data = key_streamerid env k.

(** ** Further readings of the data and of the log *)

Definition is_send (e : event) : bool :=
  match fst e with Send _ _ => true | _ => false end.

(** [alertid] is a key of the alerts and the SERIAL counter is ahead of it. *)
Definition alerts_keyed (d : AlertsData) : Prop :=
  List.NoDup (List.map StreamAlert.alertid (stream_alerts d))
  ∧ ∀ a, In a (stream_alerts d) → StreamAlert.alertid a < next_alertid d.

(** The data once [alert] has been marked resolved at [t]. *)
Definition resolved_data (alert : StreamAlert.row) (t : Z) (d : AlertsData) : AlertsData :=
  mkData (streamers d) (alert_channels d) (streams d)
         (List.map (resolve_row alert t) (stream_alerts d))
         (next_streamid d) (next_alertid d).

(** The first alert row of a pair, if there is one, is resolved. *)
Definition first_alert_resolved (streamid subscriptionid : Z) (d : AlertsData) : Prop :=
  match alerts_for streamid subscriptionid d with
  | [] => True
  | alert :: _ => StreamAlert.resolved_at alert ≠ None
  end.

(** Discord never fails with anything but a delivery error when a message
    is fetched, deleted or edited. *)
Definition tolerated (env : Env) : Prop :=
  (∀ channelid messageid, channel_fetch_message env channelid messageid ≠ Raise OtherException)
  ∧ (∀ channelid messageid, message_delete env channelid messageid ≠ Raise OtherException)
  ∧ (∀ channelid messageid args,
        message_edit env channelid messageid args ≠ Raise OtherException).

(** ** Commands ([AlertCog.resolve_alert], [streamalert pause], [unpause], [remove]) *)

(** What a command sees of its invocation: the guild it is run in, whether
    the guild still has a channel, and whether the author may manage
    channels, asked of the channel ([Some channelid]) or of the guild
    ([None]); the answer is a call into the Discord library and may raise. *)
Record Invocation : Type := mkInvocation
  { guild_id : Z;
    guild_get_channel : Z → bool;
    author_manage_channels : option Z → outcome bool }.

(** What a command answers with. *)
Inductive reply : Type :=
| Reply (text : string)         (* ctx.reply *)
| ErrorReply (text : string).   (* ctx.error_reply *)

(** [AlertChannel.fetch(subscriptionid)] *)
Definition AlertChannel_fetch (subscriptionid : Z) : M (option AlertChannel.row) :=
  d <~ get_data ;;
  ret (List.find (λ r, Z.eqb (AlertChannel.subscriptionid r) subscriptionid)
                 (alert_channels d)).

(** [resolve_alert].  The argument [alert_str] is given by what the code
    reads of it: [Some n] when [alert_str.isdigit()] holds and
    [int(alert_str)] is [n], [None] otherwise.  The exceptions raised
    ([UserInputError], and [ValueError] for digits that [int] refuses) are
    not delivery errors. *)
Definition resolve_alert (interaction_guild_id : Z) (alert_str : option Z)
  : M AlertChannel.row :=
  match alert_str with
  | None => raise OtherException
  | Some subscriptionid =>
      alert <~ AlertChannel_fetch subscriptionid ;;
      match alert with
      | None => raise OtherException
      | Some alert =>
          if negb (Z.eqb (AlertChannel.guildid alert) interaction_guild_id)
          then raise OtherException
          else ret alert
      end
  end.

Definition with_paused (b : bool) (r : AlertChannel.row) : AlertChannel.row :=
  AlertChannel.mk (AlertChannel.subscriptionid r) (AlertChannel.guildid r)
                  (AlertChannel.channelid r) (AlertChannel.streamerid r)
                  (AlertChannel.created_by r) (AlertChannel.created_at r)
                  b (AlertChannel.end_delete r)
                  (AlertChannel.live_message r) (AlertChannel.end_message r).

(** [sub_data.update(paused=b)]: UPDATE ... WHERE subscriptionid = the key. *)
Definition AlertChannel_update_paused (sub_data : AlertChannel.row) (b : bool) : M unit :=
  d <~ get_data ;;
  put_data (mkData (streamers d)
                   (List.map (λ r, if Z.eqb (AlertChannel.subscriptionid r)
                                            (AlertChannel.subscriptionid sub_data)
                                   then with_paused b r else r)
                             (alert_channels d))
                   (streams d) (stream_alerts d) (next_streamid d) (next_alertid d)).

(** [sub_data.delete()]: DELETE ... WHERE subscriptionid = the key; the
    alerts of the subscription go with it (ON DELETE CASCADE). *)
Definition AlertChannel_delete (sub_data : AlertChannel.row) : M unit :=
  d <~ get_data ;;
  put_data (mkData (streamers d)
                   (List.filter (λ r, negb (Z.eqb (AlertChannel.subscriptionid r)
                                                  (AlertChannel.subscriptionid sub_data)))
                                (alert_channels d))
                   (streams d)
                   (List.filter (λ a, negb (Z.eqb (StreamAlert.subscriptionid a)
                                                  (AlertChannel.subscriptionid sub_data)))
                                (stream_alerts d))
                   (next_streamid d) (next_alertid d)).

(** The part the three commands share: look the alert up, then check that
    the author may manage channels, in the channel of the alert if the guild
    still has it and in the guild otherwise; [action] is what follows. *)
Definition edit_alert_command (ctx : Invocation) (alert : option Z)
           (action : AlertChannel.row → M reply) : M reply :=
  sub_data <~ resolve_alert (guild_id ctx) alert ;;
  let permlevel :=
    if guild_get_channel ctx (AlertChannel.channelid sub_data)
    then Some (AlertChannel.channelid sub_data) else None in
  allowed <~ of_outcome (author_manage_channels ctx permlevel) ;;
  if negb allowed then
    ret (ErrorReply ("Sorry, you need the `MANAGE_CHANNELS` permission "
                     +:+ "in this channel to edit the stream alert."))
  else action sub_data.

Definition streamalert_pause_cmd (ctx : Invocation) (alert : option Z) : M reply :=
  edit_alert_command ctx alert
    (λ sub_data,
       AlertChannel_update_paused sub_data true ;;;
       ret (Reply "This alert is now paused!")).

Definition streamalert_unpause_cmd (ctx : Invocation) (alert : option Z) : M reply :=
  edit_alert_command ctx alert
    (λ sub_data,
       AlertChannel_update_paused sub_data false ;;;
       ret (Reply "This alert has been unpaused!")).

Definition streamalert_remove_cmd (ctx : Invocation) (alert : option Z) : M reply :=
  edit_alert_command ctx alert
    (λ sub_data,
       AlertChannel_delete sub_data ;;;
       ret (Reply "This alert has been deleted.")).

(** Every alert row belongs to a subscription of the table. *)
Definition alerts_have_subscriptions (d : AlertsData) : Prop :=
  ∀ a, In a (stream_alerts d) →
       In (StreamAlert.subscriptionid a)
          (List.map AlertChannel.subscriptionid (alert_channels d)).

(** An invocation by an author who may manage channels everywhere, in the
    guild [g], whose channels are all still there. *)
Definition admin_of (g : Z) : Invocation :=
  mkInvocation g (λ _, true) (λ _, Return true).

(** The same without the permission. *)
Definition member_of (g : Z) : Invocation :=
  mkInvocation g (λ _, true) (λ _, Return false).

(** The invocation passes the tests of a command on [alert]: the argument
    names a subscription of the guild the command is run in, and the author
    may manage channels where the command asks. *)
Definition authorised (ctx : Invocation) (alert : option Z) (d : AlertsData)
           (sub_data : AlertChannel.row) : Prop :=
  ∃ subscriptionid,
    alert = Some subscriptionid
    ∧ List.find (λ r, Z.eqb (AlertChannel.subscriptionid r) subscriptionid)
                (alert_channels d) = Some sub_data
    ∧ AlertChannel.guildid sub_data = guild_id ctx
    ∧ author_manage_channels ctx
        (if guild_get_channel ctx (AlertChannel.channelid sub_data)
         then Some (AlertChannel.channelid sub_data) else None)
      = Return true.

(** A send made for the subscription [s]. *)
Definition sent_for (s : Z) (e : event) : bool :=
  match fst e with
  | Send _ args => Z.eqb (args_subscriptionid args) s
  | _ => false
  end.

(** ** The [streamalert create] command *)

(** A user of Twitch, as [twitch.get_users] returns it.  The command hands
    the identifier to the data layer and uses it for nothing else; [id] is
    the number that is stored for it. *)
Module TwitchUser.
Record t : Type := mk
  { id : Z;
    login : string;
    display_name : string }.
End TwitchUser.

(** What [streamalert create] is called with and what it sees of the
    outside: the channel chosen and its guild, the author and whether the
    author may manage channels in the channel, the name asked for and the
    user Twitch finds under it, the message argument, the identifier the
    SERIAL column gives to the new row and the time of its creation. *)
Record CreateInvocation : Type := mkCreate
  { create_channelid : Z;
    create_guildid : Z;
    create_authorid : Z;
    create_allowed : bool;
    create_streamer : string;
    create_tw_user : option TwitchUser.t;
    create_message : option string;
    create_subscriptionid : Z;
    create_now : Z }.

(** Modelled from the spec: [RowModel.fetch_or_create] is not part of the
    sources at hand; the spec describes an atomic get-or-create of the
    streamer by its external identifier. *)
Definition Streamer_fetch_or_create (userid : Z) (login_name display_name : string)
  : M Streamer.row :=
  d <~ get_data ;;
  match List.find (λ r, Z.eqb (Streamer.userid r) userid) (streamers d) with
  | Some streamer => ret streamer
  | None =>
      let streamer := Streamer.mk userid login_name display_name in
      put_data (mkData (streamers d ++ [streamer]) (alert_channels d) (streams d)
                       (stream_alerts d) (next_streamid d) (next_alertid d)) ;;;
      ret streamer
  end.

(** [AlertChannel.create(...)] with the defaults of the schema for the
    columns that are not given.  The unique index on (channelid, streamerid)
    refuses a second subscription of a channel to a streamer. *)
Definition AlertChannel_create (subscriptionid streamerid guildid channelid created_by
                                created_at : Z) : M AlertChannel.row :=
  d <~ get_data ;;
  if existsb (λ r, Z.eqb (AlertChannel.channelid r) channelid
                   && Z.eqb (AlertChannel.streamerid r) streamerid)
             (alert_channels d)
  then raise OtherException
  else
    let sub_data := AlertChannel.mk subscriptionid guildid channelid streamerid
                                    created_by created_at false false None None in
    put_data (mkData (streamers d) (alert_channels d ++ [sub_data]) (streams d)
                     (stream_alerts d) (next_streamid d) (next_alertid d)) ;;;
    ret sub_data.

Definition streamalert_create_cmd (inv : CreateInvocation) (cog : Cog) (w : world)
  : outcome reply * Cog * world :=
  if negb (create_allowed inv) then
    (Return (ErrorReply ("Sorry, you need the `MANAGE_CHANNELS` permission "
                         +:+ "to add a stream alert to a channel.")),
     cog, w)
  else
    match create_tw_user inv with
    | None =>
        (Return (ErrorReply ("Sorry, could not find `" +:+ create_streamer inv
                             +:+ "` on Twitch! "
                             +:+ "Make sure you use the name in their channel url.")),
         cog, w)
    | Some tw_user =>
        match (streamer_data <~ Streamer_fetch_or_create (TwitchUser.id tw_user)
                                  (TwitchUser.login tw_user)
                                  (TwitchUser.display_name tw_user) ;;
               AlertChannel_create (create_subscriptionid inv)
                                   (Streamer.userid streamer_data)
                                   (create_guildid inv) (create_channelid inv)
                                   (create_authorid inv) (create_now inv) ;;;
               ret streamer_data) w with
        | (Return streamer_data, w') =>
            (Return (Reply "StreamAlert Created."),
             mkCog (dict_set (Streamer.userid streamer_data) streamer_data (watching cog))
                   (live_streams cog),
             w')
        | (Raise e, w') => (Raise e, cog, w')
        end
    end.

(** ** The editor ([AlertEditorUI.ending_mode_menu_refresh], [refresh_layout]) *)

(** The option of the ending mode menu that is shown as chosen: the second
    ("Delete Alert After Stream"), the third ("Edit Alert After Stream"), or
    none. *)
Definition ending_mode_default (sub_data : AlertChannel.row) : option nat :=
  if AlertSettings.AlertEndDelete.value sub_data then Some 1%nat
  else if truthy_opt (AlertSettings.AlertEndMessage.value sub_data) then Some 2%nat
  else None.

(** Whether the "Edit Ending Alert" button is part of the layout. *)
Definition show_end_edit (sub_data : AlertChannel.row) : bool :=
  negb (AlertSettings.AlertEndDelete.value sub_data)
  && truthy_opt (AlertSettings.AlertEndMessage.value sub_data).

(** A subscription of channel [channelid] that alice does not have yet. *)
Definition create_for_alice (channelid : Z) (message : option string) : CreateInvocation :=
  mkCreate channelid 1 42 true "alice" (Some (TwitchUser.mk 7 "alice" "alice"))
           message 9 950.

(** Further concrete data: a subscription with an end message and no
    delete, the tables of [two_pages] with a closed stream of bob besides,
    and a cache in which alice is live. *)
Definition sub_edit : AlertChannel.row := alice_sub 1 100 false false (Some end_template).

Definition two_pages_history : AlertsData :=
  mkData [] [] [zero_stream; bob_closed] [] 3 1.

Definition alice_live : Cog := mkCog [(7, alice)] {[ StrKey "7" := alice_stream ]}.

(** ** Proof automation *)

(** Unfolding the coroutines down to functions on worlds. *)
Ltac run_coroutine :=
  unfold sub_resolve, sub_alert, find_message, subscription_error,
    StreamAlert_fetch_where, StreamAlert_update_resolved_at, StreamAlert_create,
    Streamer_fetch, AlertChannel_fetch_where_streamerid,
    bind, ret, raise, try_http, discord, of_outcome, get_data, put_data,
    AlertSettings.AlertEndDelete.value, AlertSettings.AlertEndMessage.value,
    AlertSettings.AlertPaused.value in *;
  cbn [fst snd data discord_calls] in *.

(** Case analysis on the next test of the unfolded coroutine. *)
Ltac next_case :=
  match goal with
  | |- context [match ?x with _ => _ end] =>
      lazymatch x with
      | context [match _ with _ => _ end] => fail
      | _ => destruct x eqn:?
      end
  | |- context [if ?x then _ else _] =>
      lazymatch x with
      | context [if _ then _ else _] => fail
      | _ => destruct x eqn:?
      end
  end; cbn [fst snd data discord_calls] in *.

(** * Properties *)

(** ** Template engine *)

(** Scenario A of the specification: the default live message for alice. *)
Example default_live_message_alice :
  AlertSettings.AlertMessage.formatter alice_stream alice
    (AlertSettings.AlertMessage.value sub1)
  = Some (JDict [("content"%string,
                  JStr "**alice** just went live at https://www.twitch.tv/alice")]).
Proof. reflexivity. Qed.

Example end_message_alice :
  AlertSettings.AlertEndMessage.formatter
    (Stream.with_end_at (Some 2000) alice_stream) (Some alice) (Some end_template)
  = Return (Some (JDict [("content"%string, JStr "alice was live until 2000")])).
Proof. reflexivity. Qed.

(** Replacement is not chained: a value that looks like a placeholder stays. *)
Example replace_multiple_single_pass :
  replace_multiple "{login_name} {stream_start}{display_name"
    [("{display_name}"%string, BStr "D");
     ("{login_name}"%string, BStr "{display_name}");
     ("{stream_start}"%string, BInt 12)]
  = "{display_name} 12{display_name"%string.
Proof. reflexivity. Qed.

(** The shape of the data is kept: only string leaves change. *)
Example recurse_map_shape :
  recurse_map (substitute [("{x}"%string, BInt (-3))])
    (JDict [("a"%string, JList [JStr "{x}"; JNum 4; JNull]);
            ("{x}"%string, JDict [("b"%string, JStr "<{x}>"); ("c"%string, JBool true)])])
  = JDict [("a"%string, JList [JStr "-3"; JNum 4; JNull]);
           ("{x}"%string, JDict [("b"%string, JStr "<-3>"); ("c"%string, JBool true)])].
Proof. reflexivity. Qed.

(** C9. Rendering is a function of the template and of the bindings alone:
    two calls with the same template and the same bindings (whatever the
    other columns of the stream and streamer rows are) give the same output,
    for the live message and for the end message; and an unset template
    ([None]) or an empty one yields no message. *)
Theorem formatter_deterministic_and_total_on_empty :
  (∀ stream1 streamer1 stream2 streamer2 template1 template2,
      template1 = template2 →
      AlertSettings.AlertMessage.bindings stream1 streamer1
      = AlertSettings.AlertMessage.bindings stream2 streamer2 →
      AlertSettings.AlertMessage.formatter stream1 streamer1 template1
      = AlertSettings.AlertMessage.formatter stream2 streamer2 template2)
  ∧ (∀ stream1 streamer1 stream2 streamer2 template1 template2,
      template1 = template2 →
      AlertSettings.AlertEndMessage.bindings stream1 streamer1
      = AlertSettings.AlertEndMessage.bindings stream2 streamer2 →
      AlertSettings.AlertEndMessage.formatter stream1 streamer1 template1
      = AlertSettings.AlertEndMessage.formatter stream2 streamer2 template2)
  ∧ (∀ stream streamer,
      AlertSettings.AlertMessage.formatter stream streamer None = None
      ∧ AlertSettings.AlertMessage.formatter stream streamer (Some (JDict [])) = None)
  ∧ (∀ stream streamer,
      AlertSettings.AlertEndMessage.formatter stream streamer None = Return None
      ∧ AlertSettings.AlertEndMessage.formatter stream streamer (Some (JDict []))
        = Return None).
Proof.
  repeat split.
  - intros stream1 streamer1 stream2 streamer2 t1 t2 -> Hb.
    unfold AlertSettings.AlertMessage.formatter. now rewrite Hb.
  - intros stream1 streamer1 stream2 streamer2 t1 t2 -> Hb.
    unfold AlertSettings.AlertEndMessage.formatter. now rewrite Hb.
Qed.

Lemma formatter_deterministic_and_total_on_empty_witness :
  AlertSettings.AlertMessage.formatter alice_stream alice (Some AlertSettings.AlertMessage.default)
  = AlertSettings.AlertMessage.formatter
      (Stream.mk 9 7 1000 77 "go" "other title" (Some 3000)) alice
      (Some AlertSettings.AlertMessage.default).
Proof.
  apply (proj1 formatter_deterministic_and_total_on_empty); reflexivity.
Defined.

(** ** Alert resolution *)

Lemma resolve_row_matches alert t streamid subscriptionid r :
  alert_matches streamid subscriptionid (resolve_row alert t r)
  = alert_matches streamid subscriptionid r.
Proof. unfold resolve_row. now destruct (Z.eqb _ _). Qed.

Lemma filter_map_commute {A} (p : A → bool) (f : A → A) (l : list A) :
  (∀ x, p (f x) = p x) →
  List.filter p (List.map f l) = List.map f (List.filter p l).
Proof.
  intros Hp. induction l as [|x l IH]; simpl; [reflexivity|].
  rewrite Hp. destruct (p x); simpl; now rewrite IH.
Qed.

Lemma alerts_for_resolved alert t streamid subscriptionid d :
  alerts_for streamid subscriptionid
    (mkData (streamers d) (alert_channels d) (streams d)
            (List.map (resolve_row alert t) (stream_alerts d))
            (next_streamid d) (next_alertid d))
  = List.map (resolve_row alert t) (alerts_for streamid subscriptionid d).
Proof.
  unfold alerts_for. simpl. apply filter_map_commute.
  intros x. apply resolve_row_matches.
Qed.

Lemma resolve_row_self alert t :
  resolve_row alert t alert = StreamAlert.with_resolved_at (Some t) alert.
Proof. unfold resolve_row. now rewrite Z.eqb_refl. Qed.

(** The end-message formatter only fails with an attribute error. *)
Lemma end_formatter_raise stream streamer template e :
  AlertSettings.AlertEndMessage.formatter stream streamer template = Raise e →
  e = OtherException.
Proof.
  unfold AlertSettings.AlertEndMessage.formatter, AlertSettings.AlertEndMessage.bindings.
  destruct template as [d|]; [|discriminate].
  destruct (negb (truthy d)); [discriminate|].
  destruct streamer, (Stream.end_at stream); congruence.
Qed.

(** What a call of [sub_resolve] that gets past the two early returns does
    to the data: nothing if it raises, the update of the alert otherwise. *)
Lemma sub_resolve_data env subscription stream_data w alert rest :
  alerts_for (Stream.streamid stream_data) (AlertChannel.subscriptionid subscription) (data w)
  = alert :: rest →
  StreamAlert.resolved_at alert = None →
  ∀ r w', sub_resolve env subscription stream_data w = (r, w') →
  match r with
  | Return _ =>
      data w' = mkData (streamers (data w)) (alert_channels (data w)) (streams (data w))
                       (List.map (resolve_row alert (utc_now env)) (stream_alerts (data w)))
                       (next_streamid (data w)) (next_alertid (data w))
  | Raise e => e = OtherException ∧ data w' = data w
  end.
Proof.
  intros Hfetch Hopen r w'. run_coroutine. rewrite Hfetch, Hopen.
  repeat next_case; intros [= <- <-]; cbn; eauto using end_formatter_raise.
Qed.

Lemma end_formatter_return stream streamer stream_end template :
  Stream.end_at stream = Some stream_end →
  ∃ formatted,
    AlertSettings.AlertEndMessage.formatter stream (Some streamer) template
    = Return formatted.
Proof.
  intros Hend.
  unfold AlertSettings.AlertEndMessage.formatter, AlertSettings.AlertEndMessage.bindings.
  rewrite Hend. destruct template as [d|]; [|eauto].
  destruct (negb (truthy d)); eauto.
Qed.

(** C5. An unresolved alert handled by [sub_resolve] is closed whatever the
    message step does.  The channel may be gone, the message may not be
    found, the delete or edit may succeed or fail with a
    [discord.HTTPException]: in every such case the call returns and every
    row with the key of the alert has its resolved time set to now.  (The
    stream handed over by the poller has its end time set and its streamer
    row exists, so the end message can be rendered when it is needed.) *)
Theorem sub_resolve_always_resolves env subscription stream_data w alert rest :
  alerts_for (Stream.streamid stream_data) (AlertChannel.subscriptionid subscription) (data w)
  = alert :: rest →
  StreamAlert.resolved_at alert = None →
  channel_fetch_message env (AlertChannel.channelid subscription) (StreamAlert.messageid alert)
  ≠ Raise OtherException →
  message_delete env (AlertChannel.channelid subscription) (StreamAlert.messageid alert)
  ≠ Raise OtherException →
  (∀ args, message_edit env (AlertChannel.channelid subscription)
                        (StreamAlert.messageid alert) args
           ≠ Raise OtherException) →
  (AlertChannel.end_delete subscription = false →
   is_Some (List.find (λ r, Z.eqb (Streamer.userid r) (Stream.streamerid stream_data))
                      (streamers (data w)))
   ∧ is_Some (Stream.end_at stream_data)) →
  ∃ w',
    sub_resolve env subscription stream_data w = (Return tt, w')
    ∧ alerts_for (Stream.streamid stream_data) (AlertChannel.subscriptionid subscription) (data w')
      = StreamAlert.with_resolved_at (Some (utc_now env)) alert
          :: List.map (resolve_row alert (utc_now env)) rest
    ∧ (∀ r, In r (stream_alerts (data w')) →
            StreamAlert.alertid r = StreamAlert.alertid alert →
            StreamAlert.resolved_at r = Some (utc_now env)).
Proof.
  intros Hfetch Hopen Hfetchmsg Hdelete Hedit Hrender.
  assert (∃ w', sub_resolve env subscription stream_data w = (Return tt, w'))
    as [w' Hrun].
  { run_coroutine. rewrite Hfetch, Hopen.
    destruct (AlertChannel.end_delete subscription) eqn:Hdel; cbn.
    - repeat next_case; try congruence; eauto.
    - destruct Hrender as [[streamer Hs] [stream_end He]]; [reflexivity|].
      destruct (end_formatter_return stream_data streamer stream_end
                  (AlertChannel.end_message subscription) He) as [formatted Hf].
      repeat next_case; rewrite ?Hs in *; simplify_eq; eauto; try congruence.
      all: match goal with
           | H : message_edit _ _ _ ?a = Raise OtherException |- _ =>
               now destruct (Hedit a)
           end. }
  exists w'. split; [exact Hrun|].
  pose proof (sub_resolve_data env subscription stream_data w alert rest
                Hfetch Hopen _ _ Hrun) as Hdata.
  cbn in Hdata. rewrite Hdata. split.
  - rewrite alerts_for_resolved, Hfetch. cbn. now rewrite resolve_row_self.
  - cbn. intros r Hin Hid. apply in_map_iff in Hin as (r0 & <- & _).
    unfold resolve_row in *. destruct (Z.eqb_spec (StreamAlert.alertid r0) (StreamAlert.alertid alert)) as [|Hne].
    + reflexivity.
    + now destruct Hne.
Qed.

(** A call of [sub_resolve] on an alert that is already resolved does
    nothing at all. *)
Lemma sub_resolve_resolved env subscription stream_data w alert rest t :
  alerts_for (Stream.streamid stream_data) (AlertChannel.subscriptionid subscription) (data w)
  = alert :: rest →
  StreamAlert.resolved_at alert = Some t →
  sub_resolve env subscription stream_data w = (Return tt, w).
Proof. intros Hfetch Hres. run_coroutine. now rewrite Hfetch, Hres. Qed.

Lemma mutations_app log1 log2 :
  mutations (log1 ++ log2) = (mutations log1 + mutations log2)%nat.
Proof. unfold mutations. now rewrite List.filter_app, List.length_app. Qed.

(** One call carries out at most one delete or edit, and none when it
    raises. *)
Lemma sub_resolve_mutations env subscription stream_data w r w' :
  sub_resolve env subscription stream_data w = (r, w') →
  (mutations (discord_calls w') ≤ mutations (discord_calls w) + 1)%nat
  ∧ (∀ e, r = Raise e → mutations (discord_calls w') = mutations (discord_calls w)).
Proof.
  run_coroutine.
  repeat next_case; intros [= <- <-]; cbn [data discord_calls];
    rewrite ?mutations_app; cbn; split; try lia; intros; try discriminate; try lia.
Qed.

(** C4. Resolving the same end of stream twice: over the two calls at most
    one delete or edit is carried out; and once the first call has returned,
    the first alert of the pair is resolved (at the time of the first call
    if it was open before) and the second call changes nothing: same data,
    no further call to Discord. *)
Theorem sub_resolve_idempotent env1 env2 subscription stream_data w alert rest
        r1 w1 r2 w2 :
  alerts_for (Stream.streamid stream_data) (AlertChannel.subscriptionid subscription) (data w)
  = alert :: rest →
  sub_resolve env1 subscription stream_data w = (r1, w1) →
  sub_resolve env2 subscription stream_data w1 = (r2, w2) →
  (mutations (discord_calls w2) ≤ mutations (discord_calls w) + 1)%nat
  ∧ (r1 = Return tt →
     r2 = Return tt ∧ w2 = w1
     ∧ ∃ alert' rest',
         alerts_for (Stream.streamid stream_data)
                    (AlertChannel.subscriptionid subscription) (data w1)
         = alert' :: rest'
         ∧ StreamAlert.alertid alert' = StreamAlert.alertid alert
         ∧ StreamAlert.resolved_at alert'
           = match StreamAlert.resolved_at alert with
             | Some t => Some t
             | None => Some (utc_now env1)
             end).
Proof.
  intros Hfetch Hrun1 Hrun2.
  destruct (StreamAlert.resolved_at alert) as [t|] eqn:Hres.
  - (* already resolved: both calls return at once *)
    rewrite (sub_resolve_resolved _ _ _ _ _ _ _ Hfetch Hres) in Hrun1.
    injection Hrun1 as <- <-.
    rewrite (sub_resolve_resolved _ _ _ _ _ _ _ Hfetch Hres) in Hrun2.
    injection Hrun2 as <- <-.
    split; [lia|]. intros _. repeat split. eauto.
  - pose proof (sub_resolve_data _ _ _ _ _ _ Hfetch Hres _ _ Hrun1) as Hdata.
    destruct (sub_resolve_mutations _ _ _ _ _ _ Hrun1) as [Hle1 Hraise1].
    destruct r1 as [[]|e].
    + (* the first call returned: the alert is resolved in [w1] *)
      assert (alerts_for (Stream.streamid stream_data)
                (AlertChannel.subscriptionid subscription) (data w1)
              = StreamAlert.with_resolved_at (Some (utc_now env1)) alert
                  :: List.map (resolve_row alert (utc_now env1)) rest) as Hfetch1.
      { rewrite Hdata, alerts_for_resolved, Hfetch. cbn. now rewrite resolve_row_self. }
      rewrite (sub_resolve_resolved env2 _ _ w1 _ _ (utc_now env1) Hfetch1 eq_refl) in Hrun2.
      injection Hrun2 as <- <-.
      split; [exact Hle1|]. intros _. repeat split. eauto.
    + (* the first call raised: nothing was carried out *)
      destruct (sub_resolve_mutations _ _ _ _ _ _ Hrun2) as [Hle2 _].
      rewrite (Hraise1 e eq_refl) in Hle2.
      split; [exact Hle2|]. discriminate.
Qed.

(** C8. With [end_delete] on and an end message configured, once the message
    of an unresolved alert has been found, [sub_resolve] asks for the delete
    (whatever its result) and makes no edit call. *)
Theorem sub_resolve_delete_precedence env subscription stream_data w alert rest :
  alerts_for (Stream.streamid stream_data) (AlertChannel.subscriptionid subscription) (data w)
  = alert :: rest →
  StreamAlert.resolved_at alert = None →
  AlertChannel.end_delete subscription = true →
  truthy_opt (AlertChannel.end_message subscription) = true →
  is_Some (get_channel env (AlertChannel.channelid subscription)) →
  channel_fetch_message env (AlertChannel.channelid subscription) (StreamAlert.messageid alert)
  = Return tt →
  let channelid := AlertChannel.channelid subscription in
  let messageid := StreamAlert.messageid alert in
  let w' := snd (sub_resolve env subscription stream_data w) in
  discord_calls w'
  = discord_calls w
      ++ [(FetchMessage channelid messageid, None);
          (Delete channelid messageid, status (message_delete env channelid messageid))]
  ∧ List.filter is_edit (discord_calls w') = List.filter is_edit (discord_calls w).
Proof.
  intros Hfetch Hopen Hdel Htemplate [channel Hchannel] Hfound channelid messageid.
  assert (discord_calls (snd (sub_resolve env subscription stream_data w))
          = discord_calls w
              ++ [(FetchMessage channelid messageid, None);
                  (Delete channelid messageid,
                   status (message_delete env channelid messageid))]) as Hlog.
  { subst channelid messageid. run_coroutine.
    rewrite Hfetch, Hopen, Hdel, Hchannel, Hfound. cbn.
    destruct (message_delete env _ _) as [[]|[]]; cbn; now rewrite <- List.app_assoc. }
  cbn zeta. rewrite Hlog. split; [reflexivity|].
  rewrite List.filter_app. cbn. apply List.app_nil_r.
Qed.

Lemma NoDup_map_filter {A B} (f : A → B) (p : A → bool) (l : list A) :
  List.NoDup (List.map f l) → List.NoDup (List.map f (List.filter p l)).
Proof.
  induction l as [|x l IH]; cbn; [auto|].
  intros Hnd. apply List.NoDup_cons_iff in Hnd as [Hx Hl].
  destruct (p x); cbn; [|auto].
  apply List.NoDup_cons; [|auto].
  intros Hin. apply Hx.
  apply List.in_map_iff in Hin as (y & Hy & Hiny).
  apply List.filter_In in Hiny as [Hiny _].
  apply List.in_map_iff. eauto.
Qed.

(** With [alertid] a key of the table, the rows fetched after the first one
    have other keys, so the update of the first one leaves them alone. *)
Lemma resolve_row_rest alert rest t streamid subscriptionid d :
  List.NoDup (List.map StreamAlert.alertid (stream_alerts d)) →
  alerts_for streamid subscriptionid d = alert :: rest →
  List.map (resolve_row alert t) rest = rest.
Proof.
  intros Hkey Hfetch.
  apply (NoDup_map_filter _ (alert_matches streamid subscriptionid)) in Hkey.
  fold (alerts_for streamid subscriptionid d) in Hkey. rewrite Hfetch in Hkey.
  cbn in Hkey. apply List.NoDup_cons_iff in Hkey as [Hfresh _].
  clear Hfetch. induction rest as [|other rest IH]; cbn; [reflexivity|].
  rewrite IH by (intros Hin; apply Hfresh; now right).
  unfold resolve_row.
  destruct (Z.eqb_spec (StreamAlert.alertid other) (StreamAlert.alertid alert)) as [Heq|];
    [|reflexivity].
  destruct Hfresh. left. congruence.
Qed.

(** The calls made and the result of [sub_resolve] are decided by the first
    row fetched (and by the streamers table and the environment). *)
Lemma sub_resolve_frame env subscription stream_data w1 w2 alert rest1 rest2 :
  alerts_for (Stream.streamid stream_data) (AlertChannel.subscriptionid subscription) (data w1)
  = alert :: rest1 →
  alerts_for (Stream.streamid stream_data) (AlertChannel.subscriptionid subscription) (data w2)
  = alert :: rest2 →
  streamers (data w2) = streamers (data w1) →
  ∃ calls,
    discord_calls (snd (sub_resolve env subscription stream_data w1))
    = discord_calls w1 ++ calls
    ∧ discord_calls (snd (sub_resolve env subscription stream_data w2))
      = discord_calls w2 ++ calls
    ∧ fst (sub_resolve env subscription stream_data w1)
      = fst (sub_resolve env subscription stream_data w2).
Proof.
  intros Hfetch1 Hfetch2 Hstreamers. run_coroutine.
  rewrite Hfetch1, Hfetch2.
  repeat (next_case; rewrite ?Hstreamers); cbn [fst snd data discord_calls];
    first [ exists (@nil event); rewrite !List.app_nil_r; repeat split; reflexivity
          | eexists; rewrite <- ?List.app_assoc; repeat split; reflexivity ].
Qed.

(** C10. [sub_resolve] works on the first row fetched for the pair and on
    no other: with [alertid] a key of the table, the rows fetched after the
    first are exactly the same after the call (same resolved time, same
    everything), and neither the result nor the calls made depend on them:
    a table with other rows behind the same first row gives the same result
    and the same calls. *)
Theorem sub_resolve_first_alert_only env subscription stream_data w alert rest :
  alerts_for (Stream.streamid stream_data) (AlertChannel.subscriptionid subscription) (data w)
  = alert :: rest →
  List.NoDup (List.map StreamAlert.alertid (stream_alerts (data w))) →
  (∃ alert',
      alerts_for (Stream.streamid stream_data) (AlertChannel.subscriptionid subscription)
                 (data (snd (sub_resolve env subscription stream_data w)))
      = alert' :: rest)
  ∧ (∀ w2 rest2,
        alerts_for (Stream.streamid stream_data) (AlertChannel.subscriptionid subscription)
                   (data w2)
        = alert :: rest2 →
        streamers (data w2) = streamers (data w) →
        ∃ calls,
          discord_calls (snd (sub_resolve env subscription stream_data w))
          = discord_calls w ++ calls
          ∧ discord_calls (snd (sub_resolve env subscription stream_data w2))
            = discord_calls w2 ++ calls
          ∧ fst (sub_resolve env subscription stream_data w)
            = fst (sub_resolve env subscription stream_data w2)).
Proof.
  intros Hfetch Hkey. split.
  - destruct (StreamAlert.resolved_at alert) as [t|] eqn:Hres.
    + rewrite (sub_resolve_resolved _ _ _ _ _ _ _ Hfetch Hres). cbn. eauto.
    + destruct (sub_resolve env subscription stream_data w) as [r w'] eqn:Hrun.
      pose proof (sub_resolve_data _ _ _ _ _ _ Hfetch Hres _ _ Hrun) as Hdata.
      cbn. destruct r as [[]|e].
      * rewrite Hdata, alerts_for_resolved, Hfetch. cbn.
        rewrite (resolve_row_rest _ _ _ _ _ _ Hkey Hfetch). eauto.
      * destruct Hdata as [_ ->]. eauto.
  - intros w2 rest2 Hfetch2 Hstreamers.
    exact (sub_resolve_frame env _ _ w w2 _ _ _ Hfetch Hfetch2 Hstreamers).
Qed.

(** ** Alert dispatch *)

(** Scenario D of the specification: the send to channel 100 fails with a
    delivery error, channel 200 still gets its message and its alert row. *)
Example dispatch_isolates_delivery_failure :
  let '(r, w') := on_stream_start (env_send_fails HTTPException 1000) alice_stream
                                  (world_of [sub1; sub2] []) in
  r = Return tt
  ∧ stream_alerts (data w') = [StreamAlert.mk 1 1 2 1000 5200 None]
  ∧ List.map snd (discord_calls w') = [Some HTTPException; None].
Proof. repeat split. Qed.

(** The same with an exception that is not a delivery error: the dispatch
    stops at channel 100 and nothing is sent to channel 200. *)
Example dispatch_aborts_on_other_exception :
  let '(r, w') := on_stream_start (env_send_fails OtherException 1000) alice_stream
                                  (world_of [sub1; sub2] []) in
  r = Raise OtherException
  ∧ stream_alerts (data w') = []
  ∧ List.map snd (discord_calls w') = [Some OtherException].
Proof. repeat split. Qed.

(** What one call of [sub_alert] does to the data: at most one row is added
    to the alerts, for this stream and this subscription; the other tables
    stay as they are.  A delivery error never leaves [sub_alert]. *)
Lemma sub_alert_data env subscription stream_data w r w' :
  sub_alert env subscription stream_data w = (r, w') →
  r ≠ Raise HTTPException
  ∧ alert_channels (data w') = alert_channels (data w)
  ∧ streamers (data w') = streamers (data w)
  ∧ streams (data w') = streams (data w)
  ∧ ∃ new,
      stream_alerts (data w') = stream_alerts (data w) ++ new
      ∧ (List.length new ≤ 1)%nat
      ∧ ∀ a, In a new →
             StreamAlert.streamid a = Stream.streamid stream_data
             ∧ StreamAlert.subscriptionid a = AlertChannel.subscriptionid subscription.
Proof.
  run_coroutine.
  repeat next_case; intros [= <- <-]; cbn; repeat split; try discriminate.
  all: first
         [ exists (@nil StreamAlert.row); rewrite List.app_nil_r;
           split; [reflexivity|]; split; [cbn; lia|]; cbn; intros ? Hin; contradiction
         | eexists; split; [reflexivity|]; split; [cbn; lia|];
           cbn; intros ? [<-|Hin]; [split; reflexivity | contradiction] ].
Qed.

(** The paused test comes before anything is rendered or sent. *)
Lemma sub_alert_paused env subscription stream_data w :
  AlertChannel.paused subscription = true →
  sub_alert env subscription stream_data w = (Return tt, w).
Proof.
  intros Hpaused. run_coroutine. rewrite Hpaused.
  repeat next_case; reflexivity.
Qed.

Lemma subscribed_fresh subscriptionid subbed :
  ¬ In subscriptionid (List.map AlertChannel.subscriptionid subbed) →
  subscribed subscriptionid subbed = false.
Proof.
  intros Hfresh. unfold subscribed.
  destruct (existsb _ subbed) eqn:Hex; [|reflexivity].
  apply List.existsb_exists in Hex as (s & Hin & Heq).
  apply Z.eqb_eq in Heq. destruct Hfresh.
  apply List.in_map_iff. eauto.
Qed.

(** One call of [sub_alert] adds at most one row to a pair, and none to the
    pairs of other subscriptions. *)
Lemma sub_alert_count env subscription stream_data w streamid subscriptionid :
  (alert_count streamid subscriptionid
               (data (snd (sub_alert env subscription stream_data w)))
   ≤ alert_count streamid subscriptionid (data w)
     + (if Z.eqb (AlertChannel.subscriptionid subscription) subscriptionid then 1 else 0))%nat.
Proof.
  destruct (sub_alert env subscription stream_data w) as [r w1] eqn:Hrun.
  destruct (sub_alert_data _ _ _ _ _ _ Hrun) as (_ & _ & _ & _ & new & Hnew & Hlen & Hrows).
  cbn. unfold alert_count, alerts_for. rewrite Hnew, List.filter_app, List.length_app.
  destruct (Z.eqb_spec (AlertChannel.subscriptionid subscription) subscriptionid) as [Heq|Hne].
  - pose proof (List.filter_length_le (alert_matches streamid subscriptionid) new). lia.
  - destruct new as [|a new]; cbn; [lia|].
    destruct (Hrows a (or_introl eq_refl)) as [_ Hsub].
    assert (alert_matches streamid subscriptionid a = false) as ->.
    { unfold alert_matches. rewrite Hsub.
      apply Z.eqb_neq in Hne. rewrite Hne. apply andb_false_r. }
    destruct new; cbn in *; lia.
Qed.

Lemma for_each_sub_alert_count env stream_data streamid subscriptionid subbed :
  ∀ w,
    List.NoDup (List.map AlertChannel.subscriptionid subbed) →
    (alert_count streamid subscriptionid
                 (data (snd (for_each_sub (sub_alert env) subbed stream_data w)))
     ≤ alert_count streamid subscriptionid (data w)
       + (if subscribed subscriptionid subbed then 1 else 0))%nat.
Proof.
  induction subbed as [|sub rest IH]; intros w Hkey; cbn.
  - lia.
  - apply List.NoDup_cons_iff in Hkey as [Hfresh Hkey].
    pose proof (sub_alert_count env sub stream_data w streamid subscriptionid) as Hstep.
    destruct (sub_alert env sub stream_data w) as [r w1] eqn:Hrun.
    cbn in Hstep. specialize (IH w1 Hkey).
    unfold subscribed in *. cbn [existsb]. fold (subscribed subscriptionid rest) in *.
    destruct (Z.eqb_spec (AlertChannel.subscriptionid sub) subscriptionid) as [Heq|Hne].
    + rewrite <- Heq in *. rewrite (subscribed_fresh _ _ Hfresh) in IH.
      destruct r as [[]|[]]; cbn; lia.
    + destruct r as [[]|[]]; cbn; try lia;
        destruct (subscribed subscriptionid rest); lia.
Qed.

(** C3, what the code does: one call of [sub_alert] adds at most one alert
    row to a (stream, subscription) pair, and so does one call of
    [on_stream_start] ([subscriptionid] being a key of the subscriptions).
    Nothing looks for a row that is already there. *)
Theorem on_stream_start_adds_at_most_one env stream_data w streamid subscriptionid :
  (∀ subscription,
      (alert_count streamid subscriptionid
                   (data (snd (sub_alert env subscription stream_data w)))
       ≤ alert_count streamid subscriptionid (data w) + 1)%nat)
  ∧ (List.NoDup (List.map AlertChannel.subscriptionid (alert_channels (data w))) →
     (alert_count streamid subscriptionid (data (snd (on_stream_start env stream_data w)))
      ≤ alert_count streamid subscriptionid (data w) + 1)%nat).
Proof.
  split.
  - intros subscription.
    pose proof (sub_alert_count env subscription stream_data w streamid subscriptionid).
    destruct (Z.eqb _ _); lia.
  - intros Hkey.
    change (on_stream_start env stream_data w)
      with (for_each_sub (sub_alert env)
              (subscriptions_of (Stream.streamerid stream_data) (data w)) stream_data w).
    pose proof (for_each_sub_alert_count env stream_data streamid subscriptionid
                  (subscriptions_of (Stream.streamerid stream_data) (data w)) w
                  (NoDup_map_filter _ _ _ Hkey)) as Hloop.
    destruct (subscribed subscriptionid _); lia.
Qed.

(** C3, as stated, fails: two dispatches of the same stream leave two alert
    rows for the pair (stream 1, subscription 1). *)
Lemma second_dispatch_duplicates_alert :
  ¬ (alert_count 1 1
       (data (snd (on_stream_start (env_ok 1000 []) alice_stream
                     (snd (on_stream_start (env_ok 1000 []) alice_stream
                             (world_of [sub1] []))))))
     ≤ 1)%nat.
Proof. vm_compute. lia. Qed.

Lemma on_stream_start_adds_at_most_one_witness :
  (alert_count 1 1 (data (snd (on_stream_start (env_ok 1000 []) alice_stream
                                 (world_of [sub1; sub2] []))))
   ≤ alert_count 1 1 (data (world_of [sub1; sub2] [])) + 1)%nat.
Proof.
  apply (proj2 (on_stream_start_adds_at_most_one (env_ok 1000 []) alice_stream
                  (world_of [sub1; sub2] []) 1 1)).
  cbn. repeat constructor; cbn; intuition discriminate.
Defined.

(** The loop over a list of subscriptions in two parts. *)
Lemma for_each_sub_app handler subbed1 subbed2 stream_data w :
  for_each_sub handler (subbed1 ++ subbed2) stream_data w
  = match for_each_sub handler subbed1 stream_data w with
    | (Raise e, w') => (Raise e, w')
    | (Return _, w') => for_each_sub handler subbed2 stream_data w'
    end.
Proof.
  revert w. induction subbed1 as [|sub rest IH]; intros w; cbn; [reflexivity|].
  destruct (handler sub stream_data w) as [[[]|[]] w1]; cbn; auto.
Qed.

Lemma for_each_sub_invariant (P : AlertsData → Prop) handler stream_data :
  (∀ sub w, P (data w) → P (data (snd (handler sub stream_data w)))) →
  ∀ subbed w, P (data w) → P (data (snd (for_each_sub handler subbed stream_data w))).
Proof.
  intros Hstep. induction subbed as [|sub rest IH]; intros w Hw; cbn; [exact Hw|].
  specialize (Hstep sub w Hw).
  destruct (handler sub stream_data w) as [[[]|[]] w1]; cbn in *; auto.
Qed.

(** A send that fails: [sub_alert] records nothing; it returns after a
    delivery error and lets any other exception through. *)
Lemma sub_alert_send_fails env subscription stream_data w streamer e :
  can_post env subscription = true →
  List.find (λ r, Z.eqb (Streamer.userid r) (Stream.streamerid stream_data))
            (streamers (data w)) = Some streamer →
  AlertChannel.paused subscription = false →
  channel_send env (AlertChannel.channelid subscription)
               (live_args subscription stream_data streamer) = Raise e →
  sub_alert env subscription stream_data w
  = (match e with
     | HTTPException => Return tt
     | OtherException => Raise OtherException
     end,
     mkWorld (data w)
             (discord_calls w
              ++ [(Send (AlertChannel.channelid subscription)
                        (live_args subscription stream_data streamer), Some e)])).
Proof.
  unfold can_post, live_args. intros Hpost Hstreamer Hpaused Hfail. run_coroutine.
  destruct (get_channel env (AlertChannel.channelid subscription)) as [channel|];
    [|discriminate].
  destruct (messageable channel); [|discriminate].
  destruct (send_messages channel); [|discriminate].
  destruct (embed_links channel); [|discriminate].
  cbn. rewrite Hstreamer, Hpaused. cbn in Hfail. rewrite Hfail.
  now destruct e.
Qed.

(** C6. In [on_stream_start], once the subscriptions before [sub] have
    been handled, a send for [sub] that fails with a
    [discord.HTTPException] is isolated: nothing is recorded for [sub] and
    the dispatch goes on, its outcome being that of the loop over the
    remaining subscriptions.  A send that fails with any other exception
    makes [on_stream_start] raise it at once: the world is left as it was
    after the failed send, so the remaining subscriptions are not handled
    (no send, no alert row for them). *)
Theorem on_stream_start_escalation env stream_data w before sub rest w1 streamer :
  subscriptions_of (Stream.streamerid stream_data) (data w) = before ++ sub :: rest →
  for_each_sub (sub_alert env) before stream_data w = (Return tt, w1) →
  can_post env sub = true →
  List.find (λ r, Z.eqb (Streamer.userid r) (Stream.streamerid stream_data))
            (streamers (data w)) = Some streamer →
  AlertChannel.paused sub = false →
  (channel_send env (AlertChannel.channelid sub) (live_args sub stream_data streamer)
   = Raise HTTPException →
   on_stream_start env stream_data w
   = for_each_sub (sub_alert env) rest stream_data
       (mkWorld (data w1)
                (discord_calls w1
                 ++ [(Send (AlertChannel.channelid sub)
                           (live_args sub stream_data streamer), Some HTTPException)])))
  ∧ (channel_send env (AlertChannel.channelid sub) (live_args sub stream_data streamer)
     = Raise OtherException →
     on_stream_start env stream_data w
     = (Raise OtherException,
        mkWorld (data w1)
                (discord_calls w1
                 ++ [(Send (AlertChannel.channelid sub)
                           (live_args sub stream_data streamer), Some OtherException)]))).
Proof.
  intros Hsubs Hbefore Hpost Hstreamer Hpaused.
  assert (∀ s w0, streamers (data w0) = streamers (data w) →
                  streamers (data (snd (sub_alert env s stream_data w0)))
                  = streamers (data w)) as Hstep.
  { intros s w0 Hw0. destruct (sub_alert env s stream_data w0) as [r w0'] eqn:Hrun.
    destruct (sub_alert_data _ _ _ _ _ _ Hrun) as (_ & _ & Hkept & _). cbn. congruence. }
  pose proof (for_each_sub_invariant (λ d, streamers d = streamers (data w))
                (sub_alert env) stream_data Hstep before w eq_refl) as Hkept.
  rewrite Hbefore in Hkept. cbn in Hkept. rewrite <- Hkept in Hstreamer.
  assert (on_stream_start env stream_data w
          = for_each_sub (sub_alert env) (sub :: rest) stream_data w1) as ->.
  { change (on_stream_start env stream_data w)
      with (for_each_sub (sub_alert env)
              (subscriptions_of (Stream.streamerid stream_data) (data w)) stream_data w).
    now rewrite Hsubs, for_each_sub_app, Hbefore. }
  split; intros Hfail; cbn [for_each_sub];
    now rewrite (sub_alert_send_fails _ _ _ _ _ _ Hpost Hstreamer Hpaused Hfail).
Qed.

(** Channels 200, 100 and 300 are subscribed, and the send to channel 100
    fails.  After a delivery error the dispatch goes on with channel 300;
    after another exception it stops, and channel 300 gets nothing. *)
Lemma on_stream_start_escalation_witness :
  on_stream_start (env_send_fails HTTPException 1000) alice_stream
                  (world_of [sub2; sub1; sub3] [])
  = for_each_sub (sub_alert (env_send_fails HTTPException 1000)) [sub3] alice_stream
      (mkWorld
         (data (snd (sub_alert (env_send_fails HTTPException 1000) sub2 alice_stream
                               (world_of [sub2; sub1; sub3] []))))
         (discord_calls (snd (sub_alert (env_send_fails HTTPException 1000) sub2
                                        alice_stream (world_of [sub2; sub1; sub3] [])))
          ++ [(Send 100 (live_args sub1 alice_stream alice), Some HTTPException)]))
  ∧ on_stream_start (env_send_fails OtherException 1000) alice_stream
                    (world_of [sub2; sub1; sub3] [])
    = (Raise OtherException,
       mkWorld
         (data (snd (sub_alert (env_send_fails OtherException 1000) sub2 alice_stream
                               (world_of [sub2; sub1; sub3] []))))
         (discord_calls (snd (sub_alert (env_send_fails OtherException 1000) sub2
                                        alice_stream (world_of [sub2; sub1; sub3] [])))
          ++ [(Send 100 (live_args sub1 alice_stream alice), Some OtherException)])).
Proof.
  split.
  - apply (proj1 (on_stream_start_escalation
                    (env_send_fails HTTPException 1000) alice_stream
                    (world_of [sub2; sub1; sub3] []) [sub2] sub1 [sub3]
                    (snd (sub_alert (env_send_fails HTTPException 1000) sub2 alice_stream
                                    (world_of [sub2; sub1; sub3] [])))
                    alice eq_refl eq_refl eq_refl eq_refl eq_refl)).
    reflexivity.
  - apply (proj2 (on_stream_start_escalation
                    (env_send_fails OtherException 1000) alice_stream
                    (world_of [sub2; sub1; sub3] []) [sub2] sub1 [sub3]
                    (snd (sub_alert (env_send_fails OtherException 1000) sub2 alice_stream
                                    (world_of [sub2; sub1; sub3] [])))
                    alice eq_refl eq_refl eq_refl eq_refl eq_refl)).
    reflexivity.
Defined.

(** The dispatch of the witness, run: channels 200 and 300 have their alert
    rows after the delivery error, channel 200 alone after the other
    exception. *)
Example escalation_scenario :
  List.map StreamAlert.subscriptionid
    (stream_alerts (data (snd (on_stream_start (env_send_fails HTTPException 1000)
                                 alice_stream (world_of [sub2; sub1; sub3] [])))))
  = [2; 3]
  ∧ List.map StreamAlert.subscriptionid
      (stream_alerts (data (snd (on_stream_start (env_send_fails OtherException 1000)
                                   alice_stream (world_of [sub2; sub1; sub3] [])))))
    = [2]
  ∧ List.map snd
      (discord_calls (snd (on_stream_start (env_send_fails OtherException 1000)
                             alice_stream (world_of [sub2; sub1; sub3] []))))
    = [None; Some OtherException].
Proof. vm_compute. repeat split. Qed.

(** ** Witnesses for the resolution theorems *)

(** Scenario B of the specification: no end message, no delete: the alert is
    resolved and Discord is not called. *)
Example resolve_without_message_change :
  sub_resolve (env_ok 2000 []) sub1 alice_ended (world_of [sub1] [alert1])
  = (Return tt,
     mkWorld (data_of [sub1] [alice_stream]
                      [StreamAlert.with_resolved_at (Some 2000) alert1]) []).
Proof. reflexivity. Qed.

(** An exception that is not a delivery error is not tolerated: a delete
    failing with one leaves [sub_resolve] with that exception, before the
    alert is updated. *)
Example resolve_escalates_other_exception :
  sub_resolve (env_delete_fails OtherException 2000) sub_delete alice_ended
              (world_of [sub_delete] [alert1])
  = (Raise OtherException,
     mkWorld (data_of [sub_delete] [alice_stream] [alert1])
             [(FetchMessage 100 5100, None); (Delete 100 5100, Some OtherException)]).
Proof. reflexivity. Qed.

(** The delete fails with a delivery error: the alert is resolved all the
    same. *)
Lemma sub_resolve_always_resolves_witness :
  ∃ w',
    sub_resolve (env_delete_fails HTTPException 2000) sub_delete alice_ended
                (world_of [sub_delete] [alert1; alert1_again])
    = (Return tt, w')
    ∧ alerts_for 1 1 (data w')
      = StreamAlert.with_resolved_at (Some 2000) alert1
          :: List.map (resolve_row alert1 2000) [alert1_again]
    ∧ (∀ r, In r (stream_alerts (data w')) →
            StreamAlert.alertid r = 1 →
            StreamAlert.resolved_at r = Some 2000).
Proof.
  apply (sub_resolve_always_resolves (env_delete_fails HTTPException 2000) sub_delete alice_ended
           (world_of [sub_delete] [alert1; alert1_again]) alert1 [alert1_again]).
  - reflexivity.
  - reflexivity.
  - discriminate.
  - discriminate.
  - discriminate.
  - discriminate.
Defined.

Lemma sub_resolve_idempotent_witness :
  (mutations (discord_calls
                (snd (sub_resolve (env_ok 2001 []) sub_delete alice_ended
                        (snd (sub_resolve (env_ok 2000 []) sub_delete alice_ended
                                (world_of [sub_delete] [alert1]))))))
   ≤ mutations (discord_calls (world_of [sub_delete] [alert1])) + 1)%nat
  ∧ (Return tt = Return tt →
     Return tt = Return tt
     ∧ snd (sub_resolve (env_ok 2001 []) sub_delete alice_ended
              (snd (sub_resolve (env_ok 2000 []) sub_delete alice_ended
                      (world_of [sub_delete] [alert1]))))
       = snd (sub_resolve (env_ok 2000 []) sub_delete alice_ended
                (world_of [sub_delete] [alert1]))
     ∧ ∃ alert' rest',
         alerts_for 1 1
           (data (snd (sub_resolve (env_ok 2000 []) sub_delete alice_ended
                         (world_of [sub_delete] [alert1]))))
         = alert' :: rest'
         ∧ StreamAlert.alertid alert' = 1
         ∧ StreamAlert.resolved_at alert' = Some 2000).
Proof.
  apply (sub_resolve_idempotent (env_ok 2000 []) (env_ok 2001 []) sub_delete alice_ended
           (world_of [sub_delete] [alert1]) alert1 []
           (Return tt) _ (Return tt) _).
  - reflexivity.
  - reflexivity.
  - reflexivity.
Defined.

Lemma sub_resolve_delete_precedence_witness :
  discord_calls (snd (sub_resolve (env_ok 2000 []) sub_delete alice_ended
                        (world_of [sub_delete] [alert1])))
  = [(FetchMessage 100 5100, None); (Delete 100 5100, None)]
  ∧ List.filter is_edit
      (discord_calls (snd (sub_resolve (env_ok 2000 []) sub_delete alice_ended
                             (world_of [sub_delete] [alert1]))))
    = [].
Proof.
  apply (sub_resolve_delete_precedence (env_ok 2000 []) sub_delete alice_ended
           (world_of [sub_delete] [alert1]) alert1 []).
  - reflexivity.
  - reflexivity.
  - reflexivity.
  - reflexivity.
  - now exists text_channel.
  - reflexivity.
Defined.

Lemma sub_resolve_first_alert_only_witness :
  ∃ alert',
    alerts_for 1 1
      (data (snd (sub_resolve (env_ok 2000 []) sub_delete alice_ended
                    (world_of [sub_delete] [alert1; alert1_again]))))
    = alert' :: [alert1_again].
Proof.
  apply (proj1 (sub_resolve_first_alert_only (env_ok 2000 []) sub_delete alice_ended
                  (world_of [sub_delete] [alert1; alert1_again]) alert1 [alert1_again]
                  eq_refl
                  ltac:(cbn; repeat constructor; cbn; intuition discriminate))).
Defined.

(** ** The presence poller: start-up *)

Lemma dict_set_keys {V} k (v : V) d x :
  In x (dict_keys (dict_set k v d)) → x = k ∨ In x (dict_keys d).
Proof.
  induction d as [|[k' v'] d IH]; cbn.
  - intros [<-|[]]. now left.
  - destruct (Z.eqb_spec k' k) as [->|Hne]; cbn.
    + intros [<-|Hin]; auto.
    + intros [<-|Hin]; auto. destruct (IH Hin); auto.
Qed.

Lemma fold_dict_set_keys (rows : list Streamer.row) :
  ∀ acc x,
    In x (dict_keys (fold_left (λ acc streamer,
                                  dict_set (Streamer.userid streamer) streamer acc)
                               rows acc)) →
    In x (dict_keys acc) ∨ In x (List.map Streamer.userid rows).
Proof.
  induction rows as [|r rows IH]; cbn; intros acc x Hin; [auto|].
  destruct (IH _ _ Hin) as [Hacc|Hrows]; [|auto].
  destruct (dict_set_keys _ _ _ _ Hacc) as [->|Hacc']; auto.
Qed.

(** The watch list built at start-up only holds streamers of subscriptions:
    the union with the streamers of the loaded streams is computed and
    dropped. *)
Lemma load_subs_watches_subscriptions_only d x :
  In x (dict_keys (watching (load_subs d))) →
  In x (List.map AlertChannel.streamerid (alert_channels d)).
Proof.
  unfold load_subs. cbn. case_decide as Hempty; cbn; [tauto|].
  intros Hin. apply fold_dict_set_keys in Hin as [[]|Hin].
  apply List.in_map_iff in Hin as (r & <- & Hr).
  apply List.filter_In in Hr as [_ Hr].
  apply bool_decide_eq_true in Hr.
  apply elem_of_list_to_set in Hr. now apply list_elem_of_In.
Qed.

(** C2, at a restart with an open stream of alice (no subscription) and a
    closed stream of bob (one subscription).  The statement asks for the
    watch list {5, 7} and the cache {7 ↦ alice's open stream}; [load_subs]
    watches bob only and caches bob's closed stream. *)
Theorem load_subs_after_restart :
  In alice_stream (streams restart_data)
  ∧ Stream.end_at alice_stream = None
  ∧ Stream.streamerid alice_stream = 7
  ∧ dict_keys (watching (load_subs restart_data)) = [5]
  ∧ live_streams (load_subs restart_data) !! IntKey 7 = None
  ∧ live_streams (load_subs restart_data) !! IntKey 5 = Some bob_closed
  ∧ live_streams (load_subs restart_data) = {[ IntKey 5 := bob_closed ]}
  ∧ Stream.end_at bob_closed = Some 50.
Proof. vm_compute. repeat split; auto. Qed.

(** ** The presence poller: one cycle *)

Section PollCycle.

Variable env : Env.

(** Iterating over a set visits its members and nothing else, in some
    order. *)
Hypothesis set_iter_members : ∀ (X : gset key) x, In x (set_iter env X) ↔ x ∈ X.

(** Every key of [streaming] is the [user_id] of its value, a [str], and the
    value is part of the response. *)
Lemma streaming_of_lookup block k s :
  streaming_of env block !! k = Some s →
  k = StrKey (TwitchStream.user_id s) ∧ In s (get_streams env block).
Proof.
  unfold streaming_of.
  assert (∀ l (m : gmap key TwitchStream.t),
             (∀ k s, m !! k = Some s →
                     k = StrKey (TwitchStream.user_id s) ∧ In s (get_streams env block)) →
             (∀ s, In s l → In s (get_streams env block)) →
             ∀ k s,
               fold_left (λ m s, <[StrKey (TwitchStream.user_id s) := s]> m) l m !! k = Some s →
               k = StrKey (TwitchStream.user_id s) ∧ In s (get_streams env block)) as Hfold.
  { induction l as [|s0 l IH]; cbn; intros m Hm Hl; [exact Hm|].
    apply IH.
    - intros k' s'. destruct (decide (StrKey (TwitchStream.user_id s0) = k')) as [<-|Hne].
      + rewrite lookup_insert_eq. intros [= <-]. split; [reflexivity|]. apply Hl. now left.
      + rewrite lookup_insert_ne by exact Hne. apply Hm.
    - intros s' Hs'. apply Hl. now right. }
  apply Hfold.
  - intros k' s'. rewrite lookup_empty. discriminate.
  - auto.
Qed.

(** The keys of [streaming] are the [user_id]s of the response. *)
Lemma streaming_of_dom block k :
  k ∈ dom (streaming_of env block) ↔ answered (get_streams env block) k.
Proof.
  unfold streaming_of, answered.
  assert (∀ l (m : gmap key TwitchStream.t),
             k ∈ dom (fold_left (λ m s, <[StrKey (TwitchStream.user_id s) := s]> m) l m)
             ↔ k ∈ dom m ∨ ∃ s, In s l ∧ k = StrKey (TwitchStream.user_id s)) as Hfold.
  { induction l as [|s0 l IH]; cbn; intros m.
    - split; [auto|]. intros [Hk|(s & [] & _)]. exact Hk.
    - rewrite IH, dom_insert_L, elem_of_union, elem_of_singleton. clear IH.
      split.
      + intros [[->|Hk]|(s & Hs & Hk)]; eauto.
      + intros [Hk|(s & [<-|Hs] & Hk)]; eauto. }
  rewrite Hfold, dom_empty_L. split.
  - intros [Hk|Hs]; [now apply not_elem_of_empty in Hk|exact Hs].
  - auto.
Qed.

(** *** The loop over [started] *)

Lemma start_step_other streaming st y x :
  x ≠ y →
  live_streams (poll_cog (start_step env streaming st y)) !! x
  = live_streams (poll_cog st) !! x.
Proof.
  intros Hne. unfold start_step. destruct (streaming !! y); cbn; [|reflexivity].
  now rewrite lookup_insert_ne.
Qed.

Lemma start_step_keeps streaming st y :
  (∀ t, In t (event_tasks st) → In t (event_tasks (start_step env streaming st y)))
  ∧ (∀ r, In r (streams (poll_data st)) →
          In r (streams (poll_data (start_step env streaming st y)))).
Proof.
  unfold start_step. destruct (streaming !! y); cbn; [|auto].
  split; intros; apply List.in_or_app; auto.
Qed.

Lemma start_loop_other streaming l :
  ∀ st x, ¬ In x l →
          live_streams (poll_cog (fold_left (start_step env streaming) l st)) !! x
          = live_streams (poll_cog st) !! x.
Proof.
  induction l as [|y l IH]; cbn; intros st x Hx; [reflexivity|].
  rewrite IH by tauto. apply start_step_other. intros ->. tauto.
Qed.

Lemma start_loop_keeps streaming l :
  ∀ st,
    (∀ t, In t (event_tasks st) →
          In t (event_tasks (fold_left (start_step env streaming) l st)))
    ∧ (∀ r, In r (streams (poll_data st)) →
            In r (streams (poll_data (fold_left (start_step env streaming) l st)))).
Proof.
  induction l as [|y l IH]; cbn; intros st; [auto|].
  destruct (IH (start_step env streaming st y)) as [Ht Hr].
  destruct (start_step_keeps streaming st y) as [Ht' Hr']. auto.
Qed.

Lemma start_step_tracks streaming st stream :
  streaming !! StrKey (TwitchStream.user_id stream) = Some stream →
  tracked env (TwitchStream.user_id stream)
          (start_step env streaming st (StrKey (TwitchStream.user_id stream))).
Proof.
  intros Hstream. unfold start_step, tracked. rewrite Hstream. cbn.
  eexists. rewrite lookup_insert_eq. split; [reflexivity|]. cbn.
  repeat split; auto.
  - apply List.in_or_app. right. now left.
  - eexists. split; [apply List.in_or_app; right; now left|]. cbn. auto.
Qed.

Lemma start_step_tracked streaming st user_id y :
  StrKey user_id ≠ y → tracked env user_id st →
  tracked env user_id (start_step env streaming st y).
Proof.
  intros Hne (stream_data & Hlive & Hid & Hopen & Htask & r & Hr & Hrid & Hrs).
  destruct (start_step_keeps streaming st y) as [Ht' Hr'].
  exists stream_data. rewrite start_step_other by exact Hne.
  repeat split; eauto 10.
Qed.

Lemma start_loop_tracks streaming l stream :
  streaming !! StrKey (TwitchStream.user_id stream) = Some stream →
  ∀ st, In (StrKey (TwitchStream.user_id stream)) l
        ∨ tracked env (TwitchStream.user_id stream) st →
        tracked env (TwitchStream.user_id stream)
                (fold_left (start_step env streaming) l st).
Proof.
  intros Hstream.
  induction l as [|y l IH]; cbn; intros st Hx; [tauto|].
  apply IH.
  destruct (decide (StrKey (TwitchStream.user_id stream) = y)) as [<-|Hne].
  - right. now apply start_step_tracks.
  - destruct Hx as [[->|Hin]|Htracked]; [congruence|now left|].
    right. now apply start_step_tracked.
Qed.

(** *** The loop over [ended] *)

Lemma end_step_other st y x :
  x ≠ y →
  live_streams (poll_cog (end_step env st y)) !! x = live_streams (poll_cog st) !! x.
Proof.
  intros Hne. unfold end_step. destruct (live_streams (poll_cog st) !! y); cbn; [|reflexivity].
  now rewrite lookup_delete_ne.
Qed.

Lemma end_step_gone st y x :
  live_streams (poll_cog st) !! x = None →
  live_streams (poll_cog (end_step env st y)) !! x = None.
Proof.
  intros Hgone. unfold end_step.
  destruct (live_streams (poll_cog st) !! y); cbn; [|exact Hgone].
  destruct (decide (y = x)) as [->|Hne].
  - apply lookup_delete_eq.
  - now rewrite lookup_delete_ne.
Qed.

Lemma end_step_tasks st y t :
  In t (event_tasks st) → In t (event_tasks (end_step env st y)).
Proof.
  unfold end_step. destruct (live_streams (poll_cog st) !! y); cbn; [|auto].
  intros Hin. apply List.in_or_app. auto.
Qed.

(** A row of the streams table is still there after a step, with the same
    columns except possibly [end_at], which may have been set to now. *)
Lemma end_step_rows st y r :
  In r (streams (poll_data st)) →
  ∃ r', In r' (streams (poll_data (end_step env st y)))
        ∧ (r' = r ∨ r' = Stream.with_end_at (Some (utc_now env)) r).
Proof.
  unfold end_step. destruct (live_streams (poll_cog st) !! y) as [sd|]; cbn; [|eauto].
  intros Hin.
  exists (if Z.eqb (Stream.streamid r) (Stream.streamid sd)
          then Stream.with_end_at (Some (utc_now env)) r else r).
  split.
  - apply List.in_map_iff. eauto.
  - destruct (Z.eqb _ _); auto.
Qed.

Lemma end_step_closed_rows st y r :
  In (Stream.with_end_at (Some (utc_now env)) r) (streams (poll_data st)) →
  In (Stream.with_end_at (Some (utc_now env)) r) (streams (poll_data (end_step env st y))).
Proof.
  intros Hin. destruct (end_step_rows st y _ Hin) as (r' & Hr' & [->| ->]); exact Hr'.
Qed.

Lemma end_step_tracked st user_id y :
  StrKey user_id ≠ y → tracked env user_id st → tracked env user_id (end_step env st y).
Proof.
  intros Hne (stream_data & Hlive & Hid & Hopen & Htask & r & Hr & Hrid & Hrs).
  exists stream_data. rewrite end_step_other by exact Hne.
  repeat split; auto using end_step_tasks.
  destruct (end_step_rows st y r Hr) as (r' & Hr' & [->| ->]); eauto.
Qed.

Lemma end_loop_tracked l user_id :
  ¬ In (StrKey user_id) l →
  ∀ st, tracked env user_id st → tracked env user_id (fold_left (end_step env) l st).
Proof.
  induction l as [|y l IH]; cbn; intros Hx st Htracked; [exact Htracked|].
  apply IH; [tauto|]. apply end_step_tracked; [|exact Htracked]. intros <-. tauto.
Qed.

(** What has been ended stays ended for the rest of the loop. *)
Lemma end_loop_gone l x :
  ∀ st, live_streams (poll_cog st) !! x = None →
        live_streams (poll_cog (fold_left (end_step env) l st)) !! x = None.
Proof.
  induction l as [|y l IH]; cbn; intros st Hgone; [exact Hgone|].
  apply IH. now apply end_step_gone.
Qed.

Lemma end_loop_tasks l t :
  ∀ st, In t (event_tasks st) → In t (event_tasks (fold_left (end_step env) l st)).
Proof.
  induction l as [|y l IH]; cbn; intros st Hin; [exact Hin|].
  apply IH. now apply end_step_tasks.
Qed.

Lemma end_loop_closed_rows l r :
  ∀ st, In (Stream.with_end_at (Some (utc_now env)) r) (streams (poll_data st)) →
        In (Stream.with_end_at (Some (utc_now env)) r)
           (streams (poll_data (fold_left (end_step env) l st))).
Proof.
  induction l as [|y l IH]; cbn; intros st Hin; [exact Hin|].
  apply IH. now apply end_step_closed_rows.
Qed.

Lemma end_step_ends st x stream_data :
  live_streams (poll_cog st) !! x = Some stream_data →
  live_streams (poll_cog (end_step env st x)) !! x = None
  ∧ In (OnStreamEnd (Stream.with_end_at (Some (utc_now env)) stream_data))
       (event_tasks (end_step env st x))
  ∧ ∀ r, In r (streams (poll_data st)) →
         Stream.streamid r = Stream.streamid stream_data →
         In (Stream.with_end_at (Some (utc_now env)) r)
            (streams (poll_data (end_step env st x))).
Proof.
  intros Hlive. unfold end_step. rewrite Hlive. cbn. split; [|split].
  - apply lookup_delete_eq.
  - apply List.in_or_app. right. now left.
  - intros r Hr Hid. apply List.in_map_iff. exists r. split; [|exact Hr].
    now rewrite Hid, Z.eqb_refl.
Qed.

Lemma end_loop_ends l x stream_data :
  ∀ st,
    In x l →
    live_streams (poll_cog st) !! x = Some stream_data →
    live_streams (poll_cog (fold_left (end_step env) l st)) !! x = None
    ∧ In (OnStreamEnd (Stream.with_end_at (Some (utc_now env)) stream_data))
         (event_tasks (fold_left (end_step env) l st))
    ∧ ∀ r, In r (streams (poll_data st)) →
           Stream.streamid r = Stream.streamid stream_data →
           In (Stream.with_end_at (Some (utc_now env)) r)
              (streams (poll_data (fold_left (end_step env) l st))).
Proof.
  induction l as [|y l IH]; cbn; intros st Hx Hlive; [tauto|].
  destruct (decide (y = x)) as [->|Hne].
  - destruct (end_step_ends st x stream_data Hlive) as (Hgone & Htask & Hrows).
    split; [|split].
    + now apply end_loop_gone.
    + now apply end_loop_tasks.
    + intros r Hr Hid. apply end_loop_closed_rows. now apply Hrows.
  - destruct Hx as [->|Hx]; [congruence|].
    destruct (IH (end_step env st y) Hx) as (Hgone & Htask & Hrows).
    { rewrite end_step_other by congruence. exact Hlive. }
    split; [exact Hgone|]. split; [exact Htask|].
    intros r Hr Hid.
    destruct (end_step_rows st y r Hr) as (r' & Hr' & [->| ->]).
    + now apply Hrows.
    + apply (Hrows _ Hr'). exact Hid.
Qed.

(** *** The cycle *)

Lemma poll_cycle_watching cog d block_i :
  watching cog ≠ [] →
  fst (poll_cycle env cog d block_i)
  = fold_left (end_step env)
      (set_iter env (ended_of (streaming_of env (block_of cog block_i)) cog))
      (fold_left (start_step env (streaming_of env (block_of cog block_i)))
         (set_iter env (started_of (streaming_of env (block_of cog block_i)) cog))
         (mkPoll cog d [])).
Proof.
  intros Hwatching. unfold poll_cycle, block_of.
  destruct (watching cog) as [|[k v] ws]; [congruence|]. reflexivity.
Qed.

(** A cached stream whose key is not in the response is ended by the cycle:
    it leaves the cache, its row gets its end time, and the task that
    resolves its alerts is created. *)
Lemma poll_cycle_ends cog d block_i k stream_data :
  watching cog ≠ [] →
  live_streams cog !! k = Some stream_data →
  ¬ answered (get_streams env (block_of cog block_i)) k →
  k ∈ ended_of (streaming_of env (block_of cog block_i)) cog
  ∧ live_streams (poll_cog (fst (poll_cycle env cog d block_i))) !! k = None
  ∧ In (OnStreamEnd (Stream.with_end_at (Some (utc_now env)) stream_data))
       (event_tasks (fst (poll_cycle env cog d block_i)))
  ∧ ∀ r, In r (streams d) →
         Stream.streamid r = Stream.streamid stream_data →
         In (Stream.with_end_at (Some (utc_now env)) r)
            (streams (poll_data (fst (poll_cycle env cog d block_i)))).
Proof.
  intros Hwatching Hlive Hsilent.
  set (streaming := streaming_of env (block_of cog block_i)).
  assert (k ∈ dom (live_streams cog)) as Hcached by (apply elem_of_dom; eauto).
  assert (k ∉ dom streaming) as Hsilent'
      by (unfold streaming; now rewrite streaming_of_dom).
  assert (k ∈ ended_of streaming cog) as Hended
      by (unfold ended_of; apply elem_of_difference; auto).
  split; [exact Hended|].
  rewrite (poll_cycle_watching cog d block_i Hwatching). fold streaming.
  set (st := fold_left (start_step env streaming)
               (set_iter env (started_of streaming cog)) (mkPoll cog d [])).
  assert (live_streams (poll_cog st) !! k = Some stream_data) as Hlive'.
  { unfold st. rewrite start_loop_other; [exact Hlive|].
    rewrite set_iter_members. unfold started_of.
    rewrite elem_of_difference. tauto. }
  destruct (end_loop_ends (set_iter env (ended_of streaming cog)) k stream_data st)
    as (Hgone & Htask & Hrows); [now apply set_iter_members|exact Hlive'|].
  split; [exact Hgone|]. split; [exact Htask|].
  intros r Hr Hid. apply Hrows; [|exact Hid].
  unfold st. now apply start_loop_keeps.
Qed.

(** A stream of the response whose [user_id] is not a key of the cache is
    started by the cycle. *)
Lemma poll_cycle_tracks cog d block_i s :
  watching cog ≠ [] →
  In s (get_streams env (block_of cog block_i)) →
  live_streams cog !! StrKey (TwitchStream.user_id s) = None →
  tracked env (TwitchStream.user_id s) (fst (poll_cycle env cog d block_i)).
Proof.
  intros Hwatching Hs Hfresh.
  set (streaming := streaming_of env (block_of cog block_i)).
  assert (StrKey (TwitchStream.user_id s) ∈ dom streaming) as Hkey
      by (unfold streaming; rewrite streaming_of_dom; exists s; auto).
  pose proof Hkey as [stream Hstream]%elem_of_dom.
  pose proof (streaming_of_lookup _ _ _ Hstream) as [[= Hid] _].
  rewrite Hid in *.
  rewrite (poll_cycle_watching cog d block_i Hwatching). fold streaming.
  apply end_loop_tracked.
  - rewrite set_iter_members. unfold ended_of. rewrite elem_of_difference. tauto.
  - apply start_loop_tracks; [exact Hstream|].
    left. apply set_iter_members. unfold started_of.
    apply elem_of_difference. split; [exact Hkey|].
    intros [sd Hsd]%elem_of_dom. congruence.
Qed.

(** C1. In a cycle with a non-empty watch list, [ended] is the key set of
    the live cache minus the key set of the answers of Twitch for the page
    that was asked for: a key of the cache is in [ended] exactly when no
    stream of the response has it as its [user_id].  The answers only
    concern streamers of that page, so every stream of the live cache whose
    streamer is outside the page is in [ended]: the cycle takes it out of
    the cache, sets the end time of its row to now and creates the task
    that resolves its alerts. *)
Theorem poll_ends_cached_streams_outside_page cog d block_i :
  watching cog ≠ [] →
  (∀ block s, In s (get_streams env block) →
              In (bigint_of_str env (TwitchStream.user_id s)) block) →
  (∀ k, k ∈ ended_of (streaming_of env (block_of cog block_i)) cog
        ↔ k ∈ dom (live_streams cog)
          ∧ ¬ ∃ s, In s (get_streams env (block_of cog block_i))
                   ∧ k = StrKey (TwitchStream.user_id s))
  ∧ (∀ k stream_data,
        live_streams cog !! k = Some stream_data →
        ¬ In (key_streamerid env k) (block_of cog block_i) →
        k ∈ ended_of (streaming_of env (block_of cog block_i)) cog
        ∧ live_streams (poll_cog (fst (poll_cycle env cog d block_i))) !! k = None
        ∧ In (OnStreamEnd (Stream.with_end_at (Some (utc_now env)) stream_data))
             (event_tasks (fst (poll_cycle env cog d block_i)))
        ∧ ∀ r, In r (streams d) →
               Stream.streamid r = Stream.streamid stream_data →
               In (Stream.with_end_at (Some (utc_now env)) r)
                  (streams (poll_data (fst (poll_cycle env cog d block_i))))).
Proof.
  intros Hwatching Hresponse. split.
  - intros k. unfold ended_of. rewrite elem_of_difference, streaming_of_dom. reflexivity.
  - intros k stream_data Hlive Hpage.
    apply poll_cycle_ends; [exact Hwatching|exact Hlive|].
    intros (s & Hs & ->). apply Hpage. cbn. now apply Hresponse.
Qed.

(** C7. A streamer whom Twitch reports live and whose [user_id] is not a
    key of the live cache is tracked after the cycle, whatever the
    subscriptions are: the cache maps the [user_id] to a new open stream of
    the streamer, the streams table has its row, and a start task was
    created for it.  For a paused subscription [sub_alert] then returns with
    the world untouched: no call to Discord (no send), no alert row. *)
Theorem paused_suppresses_dispatch_not_tracking cog d block_i :
  watching cog ≠ [] →
  (∀ s,
      In s (get_streams env (block_of cog block_i)) →
      live_streams cog !! StrKey (TwitchStream.user_id s) = None →
      ∃ stream_data,
        live_streams (poll_cog (fst (poll_cycle env cog d block_i)))
          !! StrKey (TwitchStream.user_id s) = Some stream_data
        ∧ Stream.streamerid stream_data = bigint_of_str env (TwitchStream.user_id s)
        ∧ Stream.end_at stream_data = None
        ∧ In (OnStreamStart stream_data)
             (event_tasks (fst (poll_cycle env cog d block_i)))
        ∧ ∃ r, In r (streams (poll_data (fst (poll_cycle env cog d block_i))))
               ∧ Stream.streamid r = Stream.streamid stream_data
               ∧ Stream.streamerid r = bigint_of_str env (TwitchStream.user_id s))
  ∧ (∀ subscription stream_data w,
        AlertChannel.paused subscription = true →
        sub_alert env subscription stream_data w = (Return tt, w)).
Proof.
  intros Hwatching. split.
  - intros s Hs Hfresh. now apply poll_cycle_tracks.
  - intros subscription stream_data w Hpaused. now apply sub_alert_paused.
Qed.

End PollCycle.

(** ** Witnesses for the poller theorems *)

Lemma elements_members (X : gset key) x : In x (elements X) ↔ x ∈ X.
Proof. rewrite <- list_elem_of_In. apply elem_of_elements. Qed.

Lemma twitch_of_in_block live block s :
  In s (twitch_of live block) → In (decimal (TwitchStream.user_id s)) block.
Proof.
  unfold twitch_of. intros [_ Hs]%List.filter_In.
  apply bool_decide_eq_true in Hs. now apply list_elem_of_In.
Qed.

(** A first cycle on a started process asks for the second page. *)
Example two_pages_block : block_of two_pages 0 = [100].
Proof. reflexivity. Qed.

(** Streamers 0 and 100 are both cached and still live, and the page asked
    for is [100].  Twitch answers for streamer 100, whose stream is not in
    [ended]; streamer 0 is not on the page: the cycle ends the stream. *)
Lemma poll_ends_cached_streams_outside_page_witness :
  StrKey "0" ∈ ended_of (streaming_of (env_ok 2000 [zero_twitch; hundred_twitch])
                                      (block_of two_pages_live 0)) two_pages_live
  ∧ (StrKey "100" ∉ ended_of (streaming_of (env_ok 2000 [zero_twitch; hundred_twitch])
                                           (block_of two_pages_live 0)) two_pages_live)
  ∧ live_streams (poll_cog (fst (poll_cycle (env_ok 2000 [zero_twitch; hundred_twitch])
                                            two_pages_live two_pages_live_data 0)))
      !! StrKey "0" = None
  ∧ In (OnStreamEnd (Stream.with_end_at (Some 2000) zero_stream))
       (event_tasks (fst (poll_cycle (env_ok 2000 [zero_twitch; hundred_twitch])
                                     two_pages_live two_pages_live_data 0)))
  ∧ ∀ r, In r (streams two_pages_live_data) →
         Stream.streamid r = Stream.streamid zero_stream →
         In (Stream.with_end_at (Some 2000) r)
            (streams (poll_data (fst (poll_cycle (env_ok 2000 [zero_twitch; hundred_twitch])
                                                 two_pages_live two_pages_live_data 0)))).
Proof.
  destruct (poll_ends_cached_streams_outside_page
              (env_ok 2000 [zero_twitch; hundred_twitch]) elements_members
              two_pages_live two_pages_live_data 0
              ltac:(discriminate) (twitch_of_in_block [zero_twitch; hundred_twitch]))
    as [Hended Houtside].
  destruct (Houtside (StrKey "0") zero_stream) as (Hzero & Hrest).
  - reflexivity.
  - change (block_of two_pages_live 0) with (block_of two_pages 0).
    rewrite two_pages_block. cbn. intuition discriminate.
  - split; [exact Hzero|]. split; [|exact Hrest].
    rewrite Hended. intros [_ Hsilent]. apply Hsilent.
    exists hundred_twitch. split; [|reflexivity].
    change (block_of two_pages_live 0) with (block_of two_pages 0).
    rewrite two_pages_block. vm_compute. auto.
Defined.

Lemma paused_suppresses_dispatch_not_tracking_witness :
  (∃ stream_data,
      live_streams (poll_cog (fst (poll_cycle (env_ok 1000 [alice_twitch]) alice_watched
                                              (data_of [sub_paused] [] []) 0)))
        !! StrKey "7" = Some stream_data
      ∧ Stream.streamerid stream_data = 7
      ∧ Stream.end_at stream_data = None
      ∧ In (OnStreamStart stream_data)
           (event_tasks (fst (poll_cycle (env_ok 1000 [alice_twitch]) alice_watched
                                         (data_of [sub_paused] [] []) 0)))
      ∧ ∃ r, In r (streams (poll_data (fst (poll_cycle (env_ok 1000 [alice_twitch])
                                                       alice_watched
                                                       (data_of [sub_paused] [] []) 0))))
             ∧ Stream.streamid r = Stream.streamid stream_data
             ∧ Stream.streamerid r = 7)
  ∧ sub_alert (env_ok 1000 [alice_twitch]) sub_paused alice_stream
              (world_of [sub_paused] [])
    = (Return tt, world_of [sub_paused] []).
Proof.
  pose proof (paused_suppresses_dispatch_not_tracking
                (env_ok 1000 [alice_twitch]) elements_members alice_watched
                (data_of [sub_paused] [] []) 0 ltac:(discriminate)) as [Htracking Hpaused].
  split.
  - apply (Htracking alice_twitch); [vm_compute; auto|reflexivity].
  - apply Hpaused. reflexivity.
Defined.

(** Scenario C of the specification, run: the cycle creates the stream row
    and the start task; the dispatch for the paused subscription sends
    nothing and creates no alert row. *)
Example paused_scenario :
  let '(st, _) := poll_cycle (env_ok 1000 [alice_twitch]) alice_watched
                             (data_of [sub_paused] [] []) 0 in
  streams (poll_data st) = [Stream.mk 2 7 1000 31 "chess" "hello" None]
  ∧ event_tasks st = [OnStreamStart (Stream.mk 2 7 1000 31 "chess" "hello" None)]
  ∧ on_stream_start (env_ok 1000 [alice_twitch]) (Stream.mk 2 7 1000 31 "chess" "hello" None)
                    (mkWorld (poll_data st) [])
    = (Return tt, mkWorld (poll_data st) []).
Proof. vm_compute. repeat split. Qed.

(** * Further properties of the code *)

(** ** Paging of the watch list *)

Lemma chunks_concat (n : nat) :
  ∀ l : list Z,
    (List.length l ≤ n * 100)%nat →
    List.concat (List.map (λ i, firstn 100 (skipn i l))
                          (List.map (λ k, (k * 100)%nat) (seq 0 n)))
    = l.
Proof.
  induction n as [|n IH]; intros l Hlen.
  - destruct l; [reflexivity|cbn in Hlen; lia].
  - cbn [seq List.map List.concat]. rewrite <- List.seq_shift, !List.map_map.
    cbn [Nat.mul skipn].
    rewrite (List.map_ext _ (λ k, firstn 100 (skipn (k * 100) (skipn 100 l)))).
    + rewrite <- (List.map_map (λ k, (k * 100)%nat)
                               (λ i, firstn 100 (skipn i (skipn 100 l)))).
      rewrite IH by (rewrite List.length_skipn; lia).
      apply List.firstn_skipn.
    + intros k. f_equal. rewrite List.skipn_skipn. f_equal. lia.
Qed.

Lemma range_step_100 (stop : nat) :
  range_step stop 100 = List.map (λ k, (k * 100)%nat) (seq 0 ((stop + 99) / 100)).
Proof.
  unfold range_step.
  now replace (stop + 100 - 1)%nat with (stop + 99)%nat by lia.
Qed.

Lemma ceil_100 (n : nat) :
  (n ≤ (n + 99) / 100 * 100 ∧ (n + 99) / 100 * 100 < n + 100)%nat.
Proof.
  pose proof (Nat.div_mod_eq (n + 99) 100) as Hdiv.
  pose proof (Nat.mod_upper_bound (n + 99) 100). lia.
Qed.

(** The pages put end to end give the watch list back. *)
Lemma blocks_of_concat (to_request : list Z) :
  List.concat (blocks_of to_request) = to_request.
Proof.
  unfold blocks_of. rewrite range_step_100.
  apply chunks_concat. apply ceil_100.
Qed.

(** No page is empty or longer than 100. *)
Lemma blocks_of_sizes (to_request : list Z) :
  Forall (λ block, (1 ≤ List.length block ≤ 100)%nat) (blocks_of to_request).
Proof.
  unfold blocks_of. rewrite range_step_100.
  destruct (ceil_100 (List.length to_request)) as [Hle Hlt].
  apply List.Forall_forall. intros block Hin.
  apply List.in_map_iff in Hin as (i & <- & Hi).
  apply List.in_map_iff in Hi as (k & <- & Hk).
  apply List.in_seq in Hk.
  rewrite List.length_firstn, List.length_skipn. lia.
Qed.

(** X1. The pages cut from the watch list partition it: put end to end they
    give the list back (no identifier is left out or asked twice), and every
    page holds at least one and at most 100 identifiers. *)
Theorem blocks_of_partition (to_request : list Z) :
  List.concat (blocks_of to_request) = to_request
  ∧ Forall (λ block, (1 ≤ List.length block ≤ 100)%nat) (blocks_of to_request).
Proof.
  split.
  - apply blocks_of_concat.
  - apply blocks_of_sizes.
Qed.

Lemma blocks_of_length (to_request : list Z) :
  List.length (blocks_of to_request) = ((List.length to_request + 99) / 100)%nat.
Proof.
  unfold blocks_of. rewrite range_step_100, !List.length_map. apply List.length_seq.
Qed.

Lemma blocks_of_nonempty (to_request : list Z) :
  to_request ≠ [] → (0 < List.length (blocks_of to_request))%nat.
Proof.
  intros Hne. rewrite blocks_of_length.
  destruct to_request as [|x l]; [congruence|].
  destruct (ceil_100 (List.length (x :: l))) as [Hle _]. cbn [List.length] in *.
  destruct ((S (List.length l) + 99) / 100)%nat; lia.
Qed.

Lemma dict_keys_nonempty {V} (d : list (Z * V)) : d ≠ [] → dict_keys d ≠ [].
Proof. destruct d; [congruence|discriminate]. Qed.

(** X2. With a non-empty watch list the page index stays inside the list of
    pages (no division by zero, no index error), and the page asked for is a
    slice of the watch list with at least one and at most 100 identifiers. *)
Theorem block_of_page cog block_i :
  watching cog ≠ [] →
  (next_block_i block_i (blocks_of (dict_keys (watching cog)))
   < List.length (blocks_of (dict_keys (watching cog))))%nat
  ∧ (1 ≤ List.length (block_of cog block_i) ≤ 100)%nat
  ∧ ∀ x, In x (block_of cog block_i) → In x (dict_keys (watching cog)).
Proof.
  intros Hwatching.
  pose proof (blocks_of_nonempty _ (dict_keys_nonempty _ Hwatching)) as Hpages.
  assert (next_block_i block_i (blocks_of (dict_keys (watching cog)))
          < List.length (blocks_of (dict_keys (watching cog))))%nat as Hindex.
  { unfold next_block_i. apply Nat.mod_upper_bound. lia. }
  assert (In (block_of cog block_i) (blocks_of (dict_keys (watching cog)))) as Hin
      by (unfold block_of; now apply List.nth_In).
  pose proof (blocks_of_concat (dict_keys (watching cog))) as Hconcat.
  pose proof (blocks_of_sizes (dict_keys (watching cog))) as Hsizes.
  split; [exact Hindex|]. split.
  - rewrite List.Forall_forall in Hsizes. now apply Hsizes.
  - intros x Hx. rewrite <- Hconcat. apply List.in_concat. eauto.
Qed.

Lemma block_of_page_witness :
  (next_block_i 0 (blocks_of (dict_keys (watching two_pages)))
   < List.length (blocks_of (dict_keys (watching two_pages))))%nat
  ∧ (1 ≤ List.length (block_of two_pages 0) ≤ 100)%nat
  ∧ ∀ x, In x (block_of two_pages 0) → In x (dict_keys (watching two_pages)).
Proof. apply (block_of_page two_pages 0). discriminate. Defined.

(** ** What a poll cycle leaves alone *)

(** The columns of a stream row other than [end_at]. *)
Lemma forget_end_at_update t r :
  Stream.with_end_at None (Stream.with_end_at t r) = Stream.with_end_at None r.
Proof. reflexivity. Qed.

Lemma start_step_frame env streaming st y :
  watching (poll_cog (start_step env streaming st y)) = watching (poll_cog st)
  ∧ streamers (poll_data (start_step env streaming st y)) = streamers (poll_data st)
  ∧ alert_channels (poll_data (start_step env streaming st y))
    = alert_channels (poll_data st)
  ∧ stream_alerts (poll_data (start_step env streaming st y)) = stream_alerts (poll_data st)
  ∧ next_alertid (poll_data (start_step env streaming st y)) = next_alertid (poll_data st)
  ∧ ∃ created,
      List.map (Stream.with_end_at None)
               (streams (poll_data (start_step env streaming st y)))
      = List.map (Stream.with_end_at None) (streams (poll_data st)) ++ created.
Proof.
  unfold start_step. destruct (streaming !! y); cbn.
  - repeat split. rewrite List.map_app. eauto.
  - repeat split. exists []. now rewrite List.app_nil_r.
Qed.

Lemma end_step_frame env st y :
  watching (poll_cog (end_step env st y)) = watching (poll_cog st)
  ∧ streamers (poll_data (end_step env st y)) = streamers (poll_data st)
  ∧ alert_channels (poll_data (end_step env st y)) = alert_channels (poll_data st)
  ∧ stream_alerts (poll_data (end_step env st y)) = stream_alerts (poll_data st)
  ∧ next_alertid (poll_data (end_step env st y)) = next_alertid (poll_data st)
  ∧ ∃ created,
      List.map (Stream.with_end_at None) (streams (poll_data (end_step env st y)))
      = List.map (Stream.with_end_at None) (streams (poll_data st)) ++ created.
Proof.
  unfold end_step. destruct (live_streams (poll_cog st) !! y); cbn.
  - repeat split. exists []. rewrite List.app_nil_r, List.map_map.
    apply List.map_ext. intros row. now destruct (Z.eqb _ _).
  - repeat split. exists []. now rewrite List.app_nil_r.
Qed.

(** The frame of a loop whose every step has it. *)
Lemma loop_frame (step : poll_state → key → poll_state) :
  (∀ st y,
      watching (poll_cog (step st y)) = watching (poll_cog st)
      ∧ streamers (poll_data (step st y)) = streamers (poll_data st)
      ∧ alert_channels (poll_data (step st y)) = alert_channels (poll_data st)
      ∧ stream_alerts (poll_data (step st y)) = stream_alerts (poll_data st)
      ∧ next_alertid (poll_data (step st y)) = next_alertid (poll_data st)
      ∧ ∃ created,
          List.map (Stream.with_end_at None) (streams (poll_data (step st y)))
          = List.map (Stream.with_end_at None) (streams (poll_data st)) ++ created) →
  ∀ l st,
    watching (poll_cog (fold_left step l st)) = watching (poll_cog st)
    ∧ streamers (poll_data (fold_left step l st)) = streamers (poll_data st)
    ∧ alert_channels (poll_data (fold_left step l st)) = alert_channels (poll_data st)
    ∧ stream_alerts (poll_data (fold_left step l st)) = stream_alerts (poll_data st)
    ∧ next_alertid (poll_data (fold_left step l st)) = next_alertid (poll_data st)
    ∧ ∃ created,
        List.map (Stream.with_end_at None) (streams (poll_data (fold_left step l st)))
        = List.map (Stream.with_end_at None) (streams (poll_data st)) ++ created.
Proof.
  intros Hstep. induction l as [|y l IH]; intros st; cbn.
  - repeat split. exists []. now rewrite List.app_nil_r.
  - destruct (IH (step st y)) as (-> & -> & -> & -> & -> & created2 & ->).
    destruct (Hstep st y) as (-> & -> & -> & -> & -> & created1 & ->).
    repeat split. exists (created1 ++ created2). now rewrite List.app_assoc.
Qed.

(** X3. A poll cycle never touches the watch list, the streamers, the
    subscriptions or the alerts, and never deletes or reorders a stream row:
    the rows that were there keep their place and every column except
    [end_at]; new rows go behind them. *)
Theorem poll_cycle_frame env cog d block_i :
  watching (poll_cog (fst (poll_cycle env cog d block_i))) = watching cog
  ∧ streamers (poll_data (fst (poll_cycle env cog d block_i))) = streamers d
  ∧ alert_channels (poll_data (fst (poll_cycle env cog d block_i))) = alert_channels d
  ∧ stream_alerts (poll_data (fst (poll_cycle env cog d block_i))) = stream_alerts d
  ∧ next_alertid (poll_data (fst (poll_cycle env cog d block_i))) = next_alertid d
  ∧ ∃ created,
      List.map (Stream.with_end_at None)
               (streams (poll_data (fst (poll_cycle env cog d block_i))))
      = List.map (Stream.with_end_at None) (streams d) ++ created.
Proof.
  unfold poll_cycle. destruct (dict_keys (watching cog)) as [|k ks] eqn:Hkeys.
  - cbn. repeat split. exists []. now rewrite List.app_nil_r.
  - cbn [fst].
    set (streaming := streaming_of env _).
    destruct (loop_frame (end_step env) (end_step_frame env)
                (set_iter env (ended_of streaming cog))
                (fold_left (start_step env streaming)
                           (set_iter env (started_of streaming cog)) (mkPoll cog d [])))
      as (-> & -> & -> & -> & -> & created2 & ->).
    destruct (loop_frame (start_step env streaming) (start_step_frame env streaming)
                (set_iter env (started_of streaming cog)) (mkPoll cog d []))
      as (-> & -> & -> & -> & -> & created1 & ->).
    cbn. repeat split. exists (created1 ++ created2). now rewrite List.app_assoc.
Qed.

(** ** Rotation of the pages *)

Lemma poll_cycle_watching_kept env cog d block_i :
  watching (poll_cog (fst (poll_cycle env cog d block_i))) = watching cog.
Proof.
  unfold poll_cycle. destruct (dict_keys (watching cog)) as [|k ks]; [reflexivity|].
  cbn [fst].
  destruct (loop_frame (end_step env) (end_step_frame env)
              (set_iter env (ended_of (streaming_of env
                 (nth (next_block_i block_i (blocks_of (k :: ks))) (blocks_of (k :: ks)) []))
                 cog))
              (fold_left (start_step env (streaming_of env
                 (nth (next_block_i block_i (blocks_of (k :: ks))) (blocks_of (k :: ks)) [])))
                 (set_iter env (started_of (streaming_of env
                    (nth (next_block_i block_i (blocks_of (k :: ks))) (blocks_of (k :: ks)) []))
                    cog))
                 (mkPoll cog d []))) as (-> & _).
  now destruct (loop_frame _ (start_step_frame env (streaming_of env
                 (nth (next_block_i block_i (blocks_of (k :: ks))) (blocks_of (k :: ks)) [])))
                 (set_iter env (started_of (streaming_of env
                    (nth (next_block_i block_i (blocks_of (k :: ks))) (blocks_of (k :: ks)) []))
                    cog))
                 (mkPoll cog d [])) as (-> & _).
Qed.

Lemma poll_cycle_block_i env cog d block_i :
  watching cog ≠ [] →
  snd (poll_cycle env cog d block_i)
  = next_block_i block_i (blocks_of (dict_keys (watching cog))).
Proof.
  intros Hwatching. unfold poll_cycle.
  destruct (watching cog) as [|[k v] ws]; [congruence|]. reflexivity.
Qed.

(** After any number of cycles the watch list is the same, and the page the
    next cycle asks for is the one [length envs + 1] places further on. *)
Lemma poll_cycles_page envs :
  ∀ cog d block_i,
    watching cog ≠ [] →
    watching (poll_cycles envs cog d block_i).1.1 = watching cog
    ∧ next_block_i (poll_cycles envs cog d block_i).2 (blocks_of (dict_keys (watching cog)))
      = ((block_i + List.length envs + 1)
           mod List.length (blocks_of (dict_keys (watching cog))))%nat.
Proof.
  induction envs as [|env envs IH]; intros cog d block_i Hwatching.
  - cbn. split; [reflexivity|]. unfold next_block_i. f_equal. lia.
  - cbn [poll_cycles].
    pose proof (poll_cycle_watching_kept env cog d block_i) as Hkept.
    pose proof (poll_cycle_block_i env cog d block_i Hwatching) as Hnext.
    destruct (poll_cycle env cog d block_i) as [st block_i']. cbn [fst snd] in *.
    destruct (IH (poll_cog st) (poll_data st) block_i') as [Hw Hi];
      [now rewrite Hkept|].
    rewrite Hkept in *. split; [exact Hw|].
    rewrite Hi, Hnext. unfold next_block_i. cbn [List.length].
    rewrite <- Nat.add_assoc, Nat.Div0.add_mod_idemp_l. f_equal. lia.
Qed.

(** X4. The pages take turns: while the watch list stays as it is, every
    watched streamer is on the page asked for in one of the next
    [len(blocks)] cycles, whatever Twitch answers in between. *)
Theorem every_watched_streamer_is_polled envs cog d block_i x :
  In x (dict_keys (watching cog)) →
  (List.length (blocks_of (dict_keys (watching cog))) ≤ List.length envs)%nat →
  ∃ j, (j < List.length (blocks_of (dict_keys (watching cog))))%nat
       ∧ In x (block_of (poll_cycles (firstn j envs) cog d block_i).1.1
                        (poll_cycles (firstn j envs) cog d block_i).2).
Proof.
  intros Hx Henvs.
  assert (watching cog ≠ []) as Hwatching by (intros Heq; now rewrite Heq in Hx).
  set (blocks := blocks_of (dict_keys (watching cog))) in *.
  set (n := List.length blocks) in *.
  pose proof (blocks_of_concat (dict_keys (watching cog))) as Hconcat.
  rewrite <- Hconcat in Hx. apply List.in_concat in Hx as (block & Hblock & Hxb).
  apply (List.In_nth _ _ []) in Hblock as (k & Hk & Hnth). fold blocks n in Hk, Hnth.
  set (a := ((block_i + 1) mod n)%nat).
  assert (a < n)%nat as Ha by (apply Nat.mod_upper_bound; lia).
  (* the number of cycles to wait for page [k] *)
  set (j := if decide (a ≤ k)%nat then (k - a)%nat else (k + n - a)%nat).
  assert (j < n)%nat as Hj by (unfold j; case_decide; lia).
  assert (((block_i + j + 1) mod n)%nat = k) as Hturn.
  { replace (block_i + j + 1)%nat with ((block_i + 1) + j)%nat by lia.
    rewrite <- Nat.Div0.add_mod_idemp_l. fold a.
    unfold j. case_decide.
    - replace (a + (k - a))%nat with k by lia. now apply Nat.mod_small.
    - replace (a + (k + n - a))%nat with (k + 1 * n)%nat by lia.
      rewrite Nat.Div0.mod_add. now apply Nat.mod_small. }
  exists j. split; [exact Hj|].
  destruct (poll_cycles_page (firstn j envs) cog d block_i Hwatching) as [Hw Hi].
  fold blocks n in Hi.
  rewrite List.length_firstn, Nat.min_l in Hi by lia.
  unfold block_of. rewrite Hw. fold blocks. now rewrite Hi, Hturn, Hnth.
Qed.

Lemma every_watched_streamer_is_polled_witness :
  ∃ j, (j < List.length (blocks_of (dict_keys (watching two_pages))))%nat
       ∧ In 0 (block_of (poll_cycles (firstn j [env_ok 1000 []; env_ok 1060 []])
                                     two_pages two_pages_data 0).1.1
                        (poll_cycles (firstn j [env_ok 1000 []; env_ok 1060 []])
                                     two_pages two_pages_data 0).2).
Proof.
  apply (every_watched_streamer_is_polled [env_ok 1000 []; env_ok 1060 []]
           two_pages two_pages_data 0 0).
  - vm_compute. now left.
  - vm_compute. lia.
Defined.

(** ** The live cache after a cycle *)

Lemma start_loop_dom env streaming l :
  ∀ st x,
    x ∈ dom (live_streams (poll_cog (fold_left (start_step env streaming) l st)))
    ↔ x ∈ dom (live_streams (poll_cog st)) ∨ (In x l ∧ x ∈ dom streaming).
Proof.
  induction l as [|y l IH]; intros st x; cbn.
  - tauto.
  - rewrite IH. unfold start_step.
    destruct (streaming !! y) as [s|] eqn:Hy; cbn.
    + assert (y ∈ dom streaming) by (apply elem_of_dom; eauto).
      rewrite dom_insert_L, elem_of_union, elem_of_singleton.
      clear IH. intuition (subst; tauto).
    + assert (y ∉ dom streaming) by (now apply not_elem_of_dom).
      clear IH. intuition (subst; tauto).
Qed.

Lemma end_loop_dom env l :
  ∀ st x,
    x ∈ dom (live_streams (poll_cog (fold_left (end_step env) l st)))
    ↔ x ∈ dom (live_streams (poll_cog st)) ∧ ¬ In x l.
Proof.
  induction l as [|y l IH]; intros st x; cbn.
  - tauto.
  - rewrite IH. unfold end_step.
    destruct (live_streams (poll_cog st) !! y) as [sd|] eqn:Hy; cbn.
    + rewrite dom_delete_L, elem_of_difference, elem_of_singleton.
      clear IH. intuition (subst; tauto).
    + assert (y ∉ dom (live_streams (poll_cog st))) by (now apply not_elem_of_dom).
      clear IH. intuition (subst; tauto).
Qed.

Lemma end_loop_other env l :
  ∀ st x, ¬ In x l →
          live_streams (poll_cog (fold_left (end_step env) l st)) !! x
          = live_streams (poll_cog st) !! x.
Proof.
  induction l as [|y l IH]; cbn; intros st x Hx; [reflexivity|].
  rewrite IH by tauto. apply end_step_other. intros ->. tauto.
Qed.

Section PollEffects.

Variable env : Env.

Hypothesis set_iter_members : ∀ (X : gset key) x, In x (set_iter env X) ↔ x ∈ X.

(** X5. After a cycle with a non-empty watch list the keys of the live
    cache are exactly the [user_id]s of the streams that Twitch answered
    for the page asked for: what was cached before does not matter, and no
    [int] key is left. *)
Theorem poll_cycle_cache_is_response cog d block_i :
  watching cog ≠ [] →
  ∀ k, k ∈ dom (live_streams (poll_cog (fst (poll_cycle env cog d block_i))))
       ↔ ∃ s, In s (get_streams env (block_of cog block_i))
              ∧ k = StrKey (TwitchStream.user_id s).
Proof.
  intros Hwatching k. rewrite (poll_cycle_watching env cog d block_i Hwatching).
  pose proof (streaming_of_dom env (block_of cog block_i) k) as Hanswered.
  unfold answered in Hanswered. rewrite <- Hanswered.
  set (streaming := streaming_of env (block_of cog block_i)).
  rewrite end_loop_dom, start_loop_dom, !set_iter_members. cbn.
  unfold started_of, ended_of. rewrite !elem_of_difference.
  destruct (decide (k ∈ dom streaming)), (decide (k ∈ dom (live_streams cog))); tauto.
Qed.

(** X6. The cycle recognises a cached stream by the key it is filed under.
    A stream filed under the [user_id] of a stream of the response is left
    as it is: the cache keeps the very same row.  A stream filed under an
    [int], as [load_subs] files the rows it reads from the table, is never
    recognised, whatever Twitch answers: the cycle ends it, and when Twitch
    reports its streamer under a [user_id] that is not cached, a second
    stream of the streamer is started in the same cycle. *)
Theorem poll_cycle_recognises_by_key cog d block_i :
  watching cog ≠ [] →
  (∀ s stream_data,
      In s (get_streams env (block_of cog block_i)) →
      live_streams cog !! StrKey (TwitchStream.user_id s) = Some stream_data →
      live_streams (poll_cog (fst (poll_cycle env cog d block_i)))
        !! StrKey (TwitchStream.user_id s) = Some stream_data)
  ∧ (∀ n stream_data,
        live_streams cog !! IntKey n = Some stream_data →
        live_streams (poll_cog (fst (poll_cycle env cog d block_i))) !! IntKey n = None
        ∧ In (OnStreamEnd (Stream.with_end_at (Some (utc_now env)) stream_data))
             (event_tasks (fst (poll_cycle env cog d block_i)))
        ∧ ∀ s, In s (get_streams env (block_of cog block_i)) →
               bigint_of_str env (TwitchStream.user_id s) = n →
               live_streams cog !! StrKey (TwitchStream.user_id s) = None →
               ∃ second,
                 live_streams (poll_cog (fst (poll_cycle env cog d block_i)))
                   !! StrKey (TwitchStream.user_id s) = Some second
                 ∧ Stream.streamerid second = n
                 ∧ Stream.end_at second = None
                 ∧ In (OnStreamStart second)
                      (event_tasks (fst (poll_cycle env cog d block_i)))).
Proof.
  intros Hwatching. split.
  - intros s stream_data Hs Hlive.
    assert (StrKey (TwitchStream.user_id s) ∈ dom (streaming_of env (block_of cog block_i)))
      as Hreported by (rewrite streaming_of_dom; exists s; auto).
    rewrite (poll_cycle_watching env cog d block_i Hwatching).
    rewrite end_loop_other, start_loop_other; [exact Hlive| |].
    + rewrite set_iter_members. unfold started_of. rewrite elem_of_difference.
      intros [_ Hnew]. apply Hnew. apply elem_of_dom. eauto.
    + rewrite set_iter_members. unfold ended_of. rewrite elem_of_difference. tauto.
  - intros n stream_data Hlive.
    destruct (poll_cycle_ends env set_iter_members cog d block_i (IntKey n) stream_data)
      as (_ & Hgone & Htask & _); [exact Hwatching|exact Hlive| |].
    { intros (s & _ & Hs). discriminate Hs. }
    split; [exact Hgone|]. split; [exact Htask|].
    intros s Hs Hid Hfresh.
    destruct (poll_cycle_tracks env set_iter_members cog d block_i s Hwatching Hs Hfresh)
      as (second & Hsecond & Hstreamer & Hopen & Hstart & _).
    exists second. rewrite <- Hid. auto.
Qed.

End PollEffects.

(** ** The tasks of a cycle and the rows it changes *)

Lemma end_step_lookup env st y x stream_data :
  live_streams (poll_cog (end_step env st y)) !! x = Some stream_data →
  live_streams (poll_cog st) !! x = Some stream_data.
Proof.
  unfold end_step. destruct (live_streams (poll_cog st) !! y); cbn; [|auto].
  intros Hx. now apply lookup_delete_Some in Hx as [_ Hx].
Qed.

Lemma start_loop_new_tasks env streaming l :
  ∀ st t,
    In t (event_tasks (fold_left (start_step env streaming) l st)) →
    In t (event_tasks st)
    ∨ ∃ x stream streamid,
        In x l ∧ streaming !! x = Some stream
        ∧ t = OnStreamStart
                (Stream.mk streamid (bigint_of_str env (TwitchStream.user_id stream))
                           (TwitchStream.started_at stream)
                           (bigint_of_str env (TwitchStream.id stream))
                           (TwitchStream.game_name stream) (TwitchStream.title stream) None).
Proof.
  induction l as [|y l IH]; intros st t; cbn; [auto|].
  intros Hin. apply IH in Hin as [Hin|(x & s & i & Hx & Hs & ->)].
  - unfold start_step in Hin. destruct (streaming !! y) as [s|] eqn:Hy; cbn in Hin; [|auto].
    apply List.in_app_or in Hin as [Hin|[<-|[]]]; [auto|].
    right. exists y, s, (next_streamid (poll_data st)). auto.
  - right. exists x, s, i. auto.
Qed.

Lemma end_loop_new_tasks env l :
  ∀ st t,
    In t (event_tasks (fold_left (end_step env) l st)) →
    In t (event_tasks st)
    ∨ ∃ x stream_data,
        In x l ∧ live_streams (poll_cog st) !! x = Some stream_data
        ∧ t = OnStreamEnd (Stream.with_end_at (Some (utc_now env)) stream_data).
Proof.
  induction l as [|y l IH]; intros st t; cbn; [auto|].
  intros Hin. apply IH in Hin as [Hin|(x & sd & Hx & Hsd & ->)].
  - unfold end_step in Hin.
    destruct (live_streams (poll_cog st) !! y) as [sd|] eqn:Hy; cbn in Hin; [|auto].
    apply List.in_app_or in Hin as [Hin|[<-|[]]]; [auto|].
    right. exists y, sd. auto.
  - right. exists x, sd. eauto using end_step_lookup.
Qed.

Lemma end_loop_other_rows env r l :
  ∀ st,
    (∀ y stream_data, In y l → live_streams (poll_cog st) !! y = Some stream_data →
                      Stream.streamid stream_data ≠ Stream.streamid r) →
    In r (streams (poll_data st)) →
    In r (streams (poll_data (fold_left (end_step env) l st))).
Proof.
  induction l as [|y l IH]; intros st Hother Hr; cbn; [exact Hr|].
  apply IH.
  - intros y' sd Hy' Hsd. apply (Hother y' sd); [now right|].
    eauto using end_step_lookup.
  - unfold end_step.
    destruct (live_streams (poll_cog st) !! y) as [sd|] eqn:Hy; cbn; [|exact Hr].
    apply List.in_map_iff. exists r. split; [|exact Hr].
    specialize (Hother y sd (or_introl eq_refl) Hy).
    destruct (Z.eqb_spec (Stream.streamid r) (Stream.streamid sd)); congruence.
Qed.

Lemma by_streamerid_consistent env rows : cache_consistent env (by_streamerid rows).
Proof.
  unfold by_streamerid.
  assert (∀ l (m : gmap key Stream.row),
             cache_consistent env m →
             cache_consistent env
               (fold_left (λ m r, <[IntKey (Stream.streamerid r) := r]> m) l m))
    as Hfold.
  { induction l as [|r l IH]; cbn; intros m Hm; [exact Hm|].
    apply IH. intros k sd.
    destruct (decide (IntKey (Stream.streamerid r) = k)) as [<-|Hne].
    - rewrite lookup_insert_eq. now intros [= <-].
    - rewrite lookup_insert_ne by exact Hne. apply Hm. }
  apply Hfold. intros k sd. rewrite lookup_empty. discriminate.
Qed.

Lemma start_loop_consistent env block l :
  ∀ st, cache_consistent env (live_streams (poll_cog st)) →
        cache_consistent env
          (live_streams
             (poll_cog (fold_left (start_step env (streaming_of env block)) l st))).
Proof.
  induction l as [|y l IH]; cbn; intros st Hst; [exact Hst|].
  apply IH. unfold start_step.
  destruct (streaming_of env block !! y) as [s|] eqn:Hy; cbn; [|exact Hst].
  intros k sd. destruct (decide (y = k)) as [<-|Hne].
  - rewrite lookup_insert_eq. intros [= <-]. cbn.
    now apply streaming_of_lookup in Hy as [-> _].
  - rewrite lookup_insert_ne by exact Hne. apply Hst.
Qed.

Lemma end_loop_consistent env l :
  ∀ st, cache_consistent env (live_streams (poll_cog st)) →
        cache_consistent env (live_streams (poll_cog (fold_left (end_step env) l st))).
Proof.
  induction l as [|y l IH]; cbn; intros st Hst; [exact Hst|].
  apply IH. intros k sd Hk. apply Hst. eauto using end_step_lookup.
Qed.

Lemma end_loop_lookup env l :
  ∀ st x stream_data,
    live_streams (poll_cog (fold_left (end_step env) l st)) !! x = Some stream_data →
    live_streams (poll_cog st) !! x = Some stream_data.
Proof.
  induction l as [|y l IH]; cbn; intros st x sd Hx; [exact Hx|].
  eauto using end_step_lookup.
Qed.

(** What the loop over [started] adds to the cache is filed under a [str]. *)
Lemma start_loop_lookup env block l :
  ∀ st k stream_data,
    live_streams (poll_cog (fold_left (start_step env (streaming_of env block)) l st)) !! k
    = Some stream_data →
    live_streams (poll_cog st) !! k = Some stream_data ∨ ∃ user_id, k = StrKey user_id.
Proof.
  induction l as [|y l IH]; cbn; intros st k sd Hk; [auto|].
  apply IH in Hk as [Hk|Hk]; [|auto].
  unfold start_step in Hk.
  destruct (streaming_of env block !! y) as [s|] eqn:Hy; cbn in Hk; [|auto].
  destruct (decide (y = k)) as [<-|Hne].
  - right. apply streaming_of_lookup in Hy as [-> _]. eauto.
  - rewrite lookup_insert_ne in Hk by exact Hne. auto.
Qed.

(** X8. Every stream of the live cache is filed under a key that stands
    for its own streamer: [load_subs] files a row under its [streamerid],
    an [int]; a cycle files the row it creates under the [user_id] of
    Twitch, the [str] from which the data base read the [streamerid] of the
    row; and a cycle keeps what was so filed.  The key of a stream that a
    cycle starts is therefore never the [streamerid] of its row itself. *)
Theorem live_cache_consistent :
  (∀ env d, cache_consistent env (live_streams (load_subs d)))
  ∧ (∀ env cog d block_i,
        cache_consistent env (live_streams cog) →
        cache_consistent env
          (live_streams (poll_cog (fst (poll_cycle env cog d block_i)))))
  ∧ (∀ env cog d block_i k stream_data,
        live_streams cog !! k = None →
        live_streams (poll_cog (fst (poll_cycle env cog d block_i))) !! k
        = Some stream_data →
        k ≠ IntKey (Stream.streamerid stream_data)).
Proof.
  split; [|split].
  - intros env d. apply by_streamerid_consistent.
  - intros env cog d block_i Hcog. unfold poll_cycle.
    destruct (dict_keys (watching cog)); [exact Hcog|]. cbn [fst].
    now apply end_loop_consistent, start_loop_consistent.
  - intros env cog d block_i k stream_data Hfresh Hlive. unfold poll_cycle in Hlive.
    destruct (dict_keys (watching cog)); cbn [fst poll_cog] in Hlive; [congruence|].
    apply end_loop_lookup in Hlive.
    apply start_loop_lookup in Hlive as [Hlive|(s & ->)]; [|discriminate].
    cbn in Hlive. congruence.
Qed.

Lemma live_cache_consistent_witness :
  cache_consistent (env_ok 2000 [zero_twitch; hundred_twitch])
    (live_streams (poll_cog (fst (poll_cycle (env_ok 2000 [zero_twitch; hundred_twitch])
                                             two_pages two_pages_data 0%nat)))).
Proof.
  apply (proj1 (proj2 live_cache_consistent) (env_ok 2000 [zero_twitch; hundred_twitch])
               two_pages two_pages_data 0%nat).
  intros k sd Hk. unfold two_pages, live_streams in Hk.
  apply lookup_singleton_Some in Hk as [<- <-]. reflexivity.
Defined.

Section PollTasks.

Variable env : Env.

Hypothesis set_iter_members : ∀ (X : gset key) x, In x (set_iter env X) ↔ x ∈ X.

(** X7. The tasks of a cycle follow from the comparison of the keys and
    from nothing else.  A start task carries the row made from a stream of
    the response whose [user_id] is not a key of the cache; an end task
    carries a cached row, with its end time set to now, whose key is the
    [user_id] of no stream of the response. *)
Theorem poll_cycle_tasks_follow_keys cog d block_i t :
  In t (event_tasks (fst (poll_cycle env cog d block_i))) →
  (∃ s streamid,
      In s (get_streams env (block_of cog block_i))
      ∧ live_streams cog !! StrKey (TwitchStream.user_id s) = None
      ∧ t = OnStreamStart
              (Stream.mk streamid (bigint_of_str env (TwitchStream.user_id s))
                         (TwitchStream.started_at s)
                         (bigint_of_str env (TwitchStream.id s))
                         (TwitchStream.game_name s) (TwitchStream.title s) None))
  ∨ (∃ k stream_data,
        live_streams cog !! k = Some stream_data
        ∧ (¬ ∃ s, In s (get_streams env (block_of cog block_i))
                  ∧ k = StrKey (TwitchStream.user_id s))
        ∧ t = OnStreamEnd (Stream.with_end_at (Some (utc_now env)) stream_data)).
Proof.
  destruct (watching cog) as [|w ws] eqn:Hwatching.
  { unfold poll_cycle. rewrite Hwatching. cbn. tauto. }
  rewrite (poll_cycle_watching env cog d block_i) by (rewrite Hwatching; discriminate).
  set (streaming := streaming_of env (block_of cog block_i)).
  intros Hin. apply end_loop_new_tasks in Hin as [Hin|(x & sd & Hx & Hsd & ->)].
  - apply start_loop_new_tasks in Hin as [[]|(x & s & i & Hx & Hs & ->)].
    left. exists s, i. apply set_iter_members in Hx.
    pose proof (streaming_of_lookup env _ _ _ Hs) as [-> Hanswer].
    split; [exact Hanswer|]. split; [|reflexivity].
    unfold started_of in Hx. apply elem_of_difference in Hx as [_ Hx].
    now apply not_elem_of_dom.
  - right. exists x, sd. apply set_iter_members in Hx.
    unfold ended_of in Hx. apply elem_of_difference in Hx as [Hcached Hsilent].
    split; [|split; [|reflexivity]].
    + rewrite start_loop_other in Hsd; [exact Hsd|].
      rewrite set_iter_members. unfold started_of.
      rewrite elem_of_difference. tauto.
    + unfold streaming in Hsilent. now rewrite streaming_of_dom in Hsilent.
Qed.

(** X9. Ending streams only touches their own rows: a row of the streams
    table whose identifier is not that of a stream ended in this cycle is in
    the table, unchanged, after the cycle. *)
Theorem poll_cycle_other_rows_unchanged cog d block_i r :
  In r (streams d) →
  (∀ x stream_data,
      x ∈ ended_of (streaming_of env (block_of cog block_i)) cog →
      live_streams cog !! x = Some stream_data →
      Stream.streamid stream_data ≠ Stream.streamid r) →
  In r (streams (poll_data (fst (poll_cycle env cog d block_i)))).
Proof.
  intros Hr Hother.
  destruct (watching cog) as [|w ws] eqn:Hwatching.
  { unfold poll_cycle. rewrite Hwatching. exact Hr. }
  rewrite (poll_cycle_watching env cog d block_i) by (rewrite Hwatching; discriminate).
  set (streaming := streaming_of env (block_of cog block_i)) in *.
  apply end_loop_other_rows.
  - intros y sd Hy Hsd. apply set_iter_members in Hy. apply (Hother y sd Hy).
    rewrite start_loop_other in Hsd; [exact Hsd|].
    rewrite set_iter_members. unfold started_of, ended_of in *.
    rewrite elem_of_difference in *. tauto.
  - now apply start_loop_keeps.
Qed.

End PollTasks.

(** ** The caches built at start-up *)

Lemma dict_set_key_in {V} k (v : V) d : In k (dict_keys (dict_set k v d)).
Proof.
  induction d as [|[k' v'] d IH]; cbn; [now left|].
  destruct (Z.eqb_spec k' k); cbn; auto.
Qed.

Lemma dict_set_keys_kept {V} k (v : V) d x :
  In x (dict_keys d) → In x (dict_keys (dict_set k v d)).
Proof.
  induction d as [|[k' v'] d IH]; cbn; [tauto|].
  destruct (Z.eqb_spec k' k) as [->|]; cbn; tauto.
Qed.

Lemma dict_set_entries {V} k (v : V) d k0 v0 :
  In (k0, v0) (dict_set k v d) → (k0, v0) = (k, v) ∨ In (k0, v0) d.
Proof.
  induction d as [|[k' v'] d IH]; cbn.
  - intros [[= <- <-]|[]]. now left.
  - destruct (Z.eqb_spec k' k) as [->|]; cbn; intros [Heq|Hin]; auto.
    destruct (IH Hin); auto.
Qed.

Lemma dict_set_NoDup {V} k (v : V) d :
  List.NoDup (dict_keys d) → List.NoDup (dict_keys (dict_set k v d)).
Proof.
  induction d as [|[k' v'] d IH]; cbn; intros Hnd.
  - repeat constructor. tauto.
  - apply List.NoDup_cons_iff in Hnd as [Hfresh Hnd].
    destruct (Z.eqb_spec k' k) as [->|Hne]; cbn.
    + now apply List.NoDup_cons.
    + apply List.NoDup_cons; [|auto].
      intros Hin. apply dict_set_keys in Hin as [->|Hin]; auto.
Qed.

Lemma fold_dict_set_spec (rows : list Streamer.row) :
  ∀ acc,
    List.NoDup (dict_keys acc) →
    let d := fold_left (λ acc streamer, dict_set (Streamer.userid streamer) streamer acc)
                       rows acc in
    List.NoDup (dict_keys d)
    ∧ (∀ x, In x (dict_keys acc) ∨ In x (List.map Streamer.userid rows) → In x (dict_keys d))
    ∧ (∀ k s, In (k, s) d → In (k, s) acc ∨ (In s rows ∧ Streamer.userid s = k)).
Proof.
  induction rows as [|r rows IH]; cbn; intros acc Hnd.
  - repeat split; [exact Hnd|tauto|auto].
  - destruct (IH (dict_set (Streamer.userid r) r acc) (dict_set_NoDup _ _ _ Hnd))
      as (Hnd' & Hkeys & Hentries).
    split; [exact Hnd'|]. split.
    + intros x [Hx|[<-|Hx]]; apply Hkeys; auto using dict_set_keys_kept, dict_set_key_in.
    + intros k s Hin. destruct (Hentries k s Hin) as [Hacc|[Hs Hk]]; [|auto].
      destruct (dict_set_entries _ _ _ _ _ Hacc) as [[= -> ->]|Hacc']; auto.
Qed.

(** X10. The watch list built at start-up has one entry per streamer and
    holds exactly the streamers that have a subscription and a row in the
    streamers table, each under its own identifier. *)
Theorem load_subs_watch_list d :
  List.NoDup (dict_keys (watching (load_subs d)))
  ∧ (∀ x, In x (dict_keys (watching (load_subs d)))
          ↔ In x (List.map AlertChannel.streamerid (alert_channels d))
            ∧ In x (List.map Streamer.userid (streamers d)))
  ∧ (∀ k streamer, In (k, streamer) (watching (load_subs d)) →
                   In streamer (streamers d) ∧ Streamer.userid streamer = k).
Proof.
  unfold load_subs. cbn [watching].
  set (to_watch := list_to_set (List.map AlertChannel.streamerid (alert_channels d)) : gset Z).
  assert (∀ x, x ∈ to_watch ↔ In x (List.map AlertChannel.streamerid (alert_channels d)))
    as Hto_watch.
  { intros x. unfold to_watch. rewrite elem_of_list_to_set. apply list_elem_of_In. }
  case_decide as Hempty.
  - split; [constructor|]. split; [|intros k s []].
    intros x. cbn. split; [tauto|]. intros [Hx _].
    apply Hto_watch in Hx. rewrite Hempty in Hx. now apply not_elem_of_empty in Hx.
  - destruct (fold_dict_set_spec
                (List.filter (λ r, bool_decide (Streamer.userid r ∈ to_watch)) (streamers d))
                [] (List.NoDup_nil _)) as (Hnd & Hkeys & Hentries).
    split; [exact Hnd|]. split.
    + intros x. split.
      * intros Hx. apply fold_dict_set_keys in Hx as [[]|Hx].
        apply List.in_map_iff in Hx as (r & <- & Hr).
        apply List.filter_In in Hr as [Hr Hw]. apply bool_decide_eq_true in Hw.
        split; [now apply Hto_watch|]. now apply List.in_map.
      * intros [Hsub Hrow]. apply Hkeys. right.
        apply List.in_map_iff in Hrow as (r & <- & Hr).
        apply List.in_map, List.filter_In. split; [exact Hr|].
        apply bool_decide_eq_true. now apply Hto_watch.
    + intros k s Hin. destruct (Hentries k s Hin) as [[]|[Hs Hk]].
      apply List.filter_In in Hs as [Hs _]. auto.
Qed.

Lemma by_streamerid_lookup rows k r :
  by_streamerid rows !! k = Some r → In r rows ∧ k = IntKey (Stream.streamerid r).
Proof.
  unfold by_streamerid.
  assert (∀ l (m : gmap key Stream.row),
             (∀ k r, m !! k = Some r → In r rows ∧ k = IntKey (Stream.streamerid r)) →
             (∀ r, In r l → In r rows) →
             ∀ k r,
               fold_left (λ m r, <[IntKey (Stream.streamerid r) := r]> m) l m !! k = Some r →
               In r rows ∧ k = IntKey (Stream.streamerid r)) as Hfold.
  { induction l as [|r0 l IH]; cbn; intros m Hm Hl; [exact Hm|].
    apply IH.
    - intros k' r'. destruct (decide (IntKey (Stream.streamerid r0) = k')) as [<-|Hne].
      + rewrite lookup_insert_eq. intros [= <-]. auto.
      + rewrite lookup_insert_ne by exact Hne. apply Hm.
    - auto. }
  apply Hfold; [|auto]. intros k' r'. rewrite lookup_empty. discriminate.
Qed.

Lemma by_streamerid_dom rows k :
  k ∈ dom (by_streamerid rows) ↔ ∃ r, In r rows ∧ k = IntKey (Stream.streamerid r).
Proof.
  unfold by_streamerid.
  assert (∀ l (m : gmap key Stream.row),
             k ∈ dom (fold_left (λ m r, <[IntKey (Stream.streamerid r) := r]> m) l m)
             ↔ k ∈ dom m ∨ ∃ r, In r l ∧ k = IntKey (Stream.streamerid r)) as Hfold.
  { induction l as [|r0 l IH]; cbn; intros m.
    - split; [auto|]. intros [Hk|(r & [] & _)]. exact Hk.
    - rewrite IH, dom_insert_L, elem_of_union, elem_of_singleton. clear IH.
      split.
      + intros [[->|Hk]|(r & Hr & Hk)]; eauto.
      + intros [Hk|(r & [<-|Hr] & Hk)]; eauto. }
  rewrite Hfold, dom_empty_L. split.
  - intros [Hk|Hr]; [now apply not_elem_of_empty in Hk|exact Hr].
  - auto.
Qed.

Lemma by_streamerid_last rows :
  ∀ pre r post,
    rows = pre ++ r :: post →
    (∀ r', In r' post → Stream.streamerid r' ≠ Stream.streamerid r) →
    by_streamerid rows !! IntKey (Stream.streamerid r) = Some r.
Proof.
  unfold by_streamerid. intros pre r post -> Hlast.
  rewrite List.fold_left_app. cbn.
  generalize (fold_left (λ m r0, <[IntKey (Stream.streamerid r0) := r0]> m) pre
                        (∅ : gmap key Stream.row)).
  intros m.
  assert (∀ l (m : gmap key Stream.row),
             (∀ r', In r' l → Stream.streamerid r' ≠ Stream.streamerid r) →
             m !! IntKey (Stream.streamerid r) = Some r →
             fold_left (λ m r0, <[IntKey (Stream.streamerid r0) := r0]> m) l m
               !! IntKey (Stream.streamerid r) = Some r) as Hfold.
  { induction l as [|r0 l IH]; cbn; intros m0 Hl Hm0; [exact Hm0|].
    apply IH; [auto|]. rewrite lookup_insert_ne; [exact Hm0|].
    intros [= Heq]. now apply (Hl r0 (or_introl eq_refl)). }
  apply Hfold; [exact Hlast|]. apply lookup_insert_eq.
Qed.

(** X11. The live cache built at start-up is filled from the rows that pass
    the filter of [load_subs]: every cached stream is such a row of the
    table, filed under its streamer (the [int] of the [streamerid] column);
    a streamer is cached exactly when one of those rows is theirs; and of
    several rows of one streamer the last in table order is the one
    cached. *)
Theorem load_subs_live_cache d :
  (∀ k r, live_streams (load_subs d) !! k = Some r →
          In r (streams d) ∧ end_at_ne_NULL r = true ∧ k = IntKey (Stream.streamerid r))
  ∧ (∀ k, k ∈ dom (live_streams (load_subs d))
          ↔ ∃ r, In r (streams d) ∧ end_at_ne_NULL r = true
                 ∧ k = IntKey (Stream.streamerid r))
  ∧ (∀ pre r post,
        List.filter end_at_ne_NULL (streams d) = pre ++ r :: post →
        (∀ r', In r' post → Stream.streamerid r' ≠ Stream.streamerid r) →
        live_streams (load_subs d) !! IntKey (Stream.streamerid r) = Some r).
Proof.
  unfold load_subs. cbn [live_streams].
  assert (∀ k r, by_streamerid (List.filter end_at_ne_NULL (streams d)) !! k = Some r →
                 In r (streams d) ∧ end_at_ne_NULL r = true
                 ∧ k = IntKey (Stream.streamerid r))
    as Hlookup.
  { intros k r Hk. apply by_streamerid_lookup in Hk as [Hr Hk].
    apply List.filter_In in Hr. tauto. }
  split; [exact Hlookup|]. split.
  - intros k. rewrite by_streamerid_dom. split.
    + intros (r & Hr & Hk). apply List.filter_In in Hr. exists r. tauto.
    + intros (r & Hr & Hclosed & Hk). exists r. split; [|exact Hk].
      apply List.filter_In. auto.
  - intros pre r post Heq Hlast. now apply (by_streamerid_last _ pre r post).
Qed.

(** ** Dispatch: when a message is sent and what is recorded *)

(** X12. [sub_alert] does nothing at all (no call to Discord, no row, no
    exception) when the channel is gone or is not a channel for messages,
    when the bot may not send messages or embed links there, or when the
    streamer row has been deleted. *)
Theorem sub_alert_skips env subscription stream_data w :
  can_post env subscription = false
  ∨ List.find (λ r, Z.eqb (Streamer.userid r) (Stream.streamerid stream_data))
              (streamers (data w)) = None →
  sub_alert env subscription stream_data w = (Return tt, w).
Proof.
  unfold can_post. intros Hskip. run_coroutine.
  destruct (get_channel env (AlertChannel.channelid subscription)) as [channel|];
    [|reflexivity].
  destruct (messageable channel); [|reflexivity].
  destruct (send_messages channel); [|reflexivity].
  destruct (embed_links channel); [|reflexivity].
  cbn in *. destruct Hskip as [Hpost|Hstreamer]; [discriminate|].
  now rewrite Hstreamer.
Qed.

Lemma sub_alert_skips_witness :
  sub_alert (env_ok 1000 []) sub1
            (Stream.mk 9 99 1000 31 "chess" "hello" None) (world_of [sub1] [])
  = (Return tt, world_of [sub1] []).
Proof.
  apply (sub_alert_skips (env_ok 1000 []) sub1
           (Stream.mk 9 99 1000 31 "chess" "hello" None) (world_of [sub1] [])).
  right. reflexivity.
Defined.

(** X13. When [sub_alert] gets to the send (the channel passes the tests,
    the streamer row is there, the subscription is not paused) one send call
    is made, with the live message rendered for this stream, and its result
    decides the rest: on success one alert row is added, with the next
    identifier, the identifier of the message Discord returned, the time of
    the call and no resolved time; on a delivery error nothing is recorded
    and the call returns; on any other exception nothing is recorded and the
    exception is raised. *)
Theorem sub_alert_send env subscription stream_data w streamer :
  can_post env subscription = true →
  List.find (λ r, Z.eqb (Streamer.userid r) (Stream.streamerid stream_data))
            (streamers (data w)) = Some streamer →
  AlertChannel.paused subscription = false →
  let channelid := AlertChannel.channelid subscription in
  let args := live_args subscription stream_data streamer in
  sub_alert env subscription stream_data w
  = match channel_send env channelid args with
    | Return message_id =>
        (Return tt,
         mkWorld
           (mkData (streamers (data w)) (alert_channels (data w)) (streams (data w))
                   (stream_alerts (data w)
                      ++ [StreamAlert.mk (next_alertid (data w))
                                         (Stream.streamid stream_data)
                                         (AlertChannel.subscriptionid subscription)
                                         (utc_now env) message_id None])
                   (next_streamid (data w)) (next_alertid (data w) + 1))
           (discord_calls w ++ [(Send channelid args, None)]))
    | Raise HTTPException =>
        (Return tt,
         mkWorld (data w) (discord_calls w ++ [(Send channelid args, Some HTTPException)]))
    | Raise OtherException =>
        (Raise OtherException,
         mkWorld (data w) (discord_calls w ++ [(Send channelid args, Some OtherException)]))
    end.
Proof.
  unfold can_post, live_args. intros Hpost Hstreamer Hpaused. run_coroutine.
  destruct (get_channel env (AlertChannel.channelid subscription)) as [channel|];
    [|discriminate].
  destruct (messageable channel); [|discriminate].
  destruct (send_messages channel); [|discriminate].
  destruct (embed_links channel); [|discriminate].
  cbn. rewrite Hstreamer, Hpaused.
  destruct (channel_send env _ _) as [message_id|[]]; reflexivity.
Qed.

(** A send that succeeds: the alert row that [sub_alert] records. *)
Lemma sub_alert_sent env subscription stream_data w streamer message_id :
  can_post env subscription = true →
  List.find (λ r, Z.eqb (Streamer.userid r) (Stream.streamerid stream_data))
            (streamers (data w)) = Some streamer →
  AlertChannel.paused subscription = false →
  channel_send env (AlertChannel.channelid subscription)
               (live_args subscription stream_data streamer) = Return message_id →
  sub_alert env subscription stream_data w
  = (Return tt,
     mkWorld
       (mkData (streamers (data w)) (alert_channels (data w)) (streams (data w))
               (stream_alerts (data w)
                  ++ [StreamAlert.mk (next_alertid (data w)) (Stream.streamid stream_data)
                                     (AlertChannel.subscriptionid subscription)
                                     (utc_now env) message_id None])
               (next_streamid (data w)) (next_alertid (data w) + 1))
       (discord_calls w
          ++ [(Send (AlertChannel.channelid subscription)
                    (live_args subscription stream_data streamer), None)])).
Proof.
  unfold can_post, live_args. intros Hpost Hstreamer Hpaused Hsent. run_coroutine.
  destruct (get_channel env (AlertChannel.channelid subscription)) as [channel|];
    [|discriminate].
  destruct (messageable channel); [|discriminate].
  destruct (send_messages channel); [|discriminate].
  destruct (embed_links channel); [|discriminate].
  cbn. rewrite Hstreamer, Hpaused. cbn in Hsent. now rewrite Hsent.
Qed.

Lemma sub_alert_send_witness :
  sub_alert (env_send_fails HTTPException 1000) sub1 alice_stream (world_of [sub1] [])
  = (Return tt,
     mkWorld (data (world_of [sub1] []))
             [(Send 100 (live_args sub1 alice_stream alice), Some HTTPException)]).
Proof.
  apply (sub_alert_send (env_send_fails HTTPException 1000) sub1 alice_stream
           (world_of [sub1] []) alice); reflexivity.
Defined.

(** What one call of [sub_alert] adds to the log and to the alerts. *)
Lemma sub_alert_account env subscription stream_data w :
  ∃ new,
    discord_calls (snd (sub_alert env subscription stream_data w)) = discord_calls w ++ new
    ∧ Forall (λ e, is_send e = true) new
    ∧ List.length (stream_alerts (data (snd (sub_alert env subscription stream_data w))))
      = (List.length (stream_alerts (data w)) + List.length (List.filter succeeded new))%nat.
Proof.
  run_coroutine.
  repeat next_case; cbn [fst snd data discord_calls stream_alerts];
    first [ exists (@nil event); rewrite List.app_nil_r; cbn;
            repeat split; [constructor|lia]
          | eexists; split; [reflexivity|]; split;
            [repeat constructor|rewrite ?List.length_app; cbn; lia] ].
Qed.

Lemma for_each_sub_alert_account env stream_data subbed :
  ∀ w,
    ∃ new,
      discord_calls (snd (for_each_sub (sub_alert env) subbed stream_data w))
      = discord_calls w ++ new
      ∧ Forall (λ e, is_send e = true) new
      ∧ List.length
          (stream_alerts (data (snd (for_each_sub (sub_alert env) subbed stream_data w))))
        = (List.length (stream_alerts (data w)) + List.length (List.filter succeeded new))%nat.
Proof.
  induction subbed as [|sub rest IH]; intros w; cbn.
  - exists []. rewrite List.app_nil_r. repeat split; [constructor|cbn; lia].
  - destruct (sub_alert_account env sub stream_data w) as (new1 & Hlog1 & Hsend1 & Hrows1).
    destruct (sub_alert env sub stream_data w) as [r w1]. cbn [snd] in *.
    destruct (IH w1) as (new2 & Hlog2 & Hsend2 & Hrows2).
    destruct r as [[]|[]]; cbn [snd].
    + exists (new1 ++ new2). rewrite Hlog2, Hlog1, Hrows2, Hrows1, List.app_assoc.
      split; [reflexivity|]. split; [now apply List.Forall_app|].
      rewrite List.filter_app, List.length_app. lia.
    + exists (new1 ++ new2). rewrite Hlog2, Hlog1, Hrows2, Hrows1, List.app_assoc.
      split; [reflexivity|]. split; [now apply List.Forall_app|].
      rewrite List.filter_app, List.length_app. lia.
    + exists new1. auto.
Qed.

(** X14. The books of a dispatch balance: [on_stream_start] only makes send
    calls, and the number of alert rows it adds is the number of sends that
    succeeded, whether it returns or raises. *)
Theorem on_stream_start_account env stream_data w :
  ∃ new,
    discord_calls (snd (on_stream_start env stream_data w)) = discord_calls w ++ new
    ∧ Forall (λ e, is_send e = true) new
    ∧ List.length (stream_alerts (data (snd (on_stream_start env stream_data w))))
      = (List.length (stream_alerts (data w)) + List.length (List.filter succeeded new))%nat.
Proof.
  change (on_stream_start env stream_data w)
    with (for_each_sub (sub_alert env)
            (subscriptions_of (Stream.streamerid stream_data) (data w)) stream_data w).
  apply for_each_sub_alert_account.
Qed.

(** ** Invariants of dispatch and resolution *)

Lemma sub_resolve_no_http env subscription stream_data w :
  fst (sub_resolve env subscription stream_data w) ≠ Raise HTTPException.
Proof.
  run_coroutine. repeat next_case; cbn; try discriminate.
  match goal with
  | H : AlertSettings.AlertEndMessage.formatter _ _ _ = Raise ?e |- _ =>
      apply end_formatter_raise in H; subst e; discriminate
  end.
Qed.

Lemma sub_alert_no_http env subscription stream_data w :
  fst (sub_alert env subscription stream_data w) ≠ Raise HTTPException.
Proof.
  destruct (sub_alert env subscription stream_data w) as [r w'] eqn:Hrun.
  now destruct (sub_alert_data _ _ _ _ _ _ Hrun) as [Hr _].
Qed.

Lemma for_each_sub_no_http handler subbed stream_data :
  ∀ w, fst (for_each_sub handler subbed stream_data w) ≠ Raise HTTPException.
Proof.
  induction subbed as [|sub rest IH]; intros w; cbn; [discriminate|].
  destruct (handler sub stream_data w) as [[[]|[]] w1]; cbn; auto.
Qed.

(** X15. A delivery error never leaves the code that handles one
    subscription: [sub_alert] and [sub_resolve] catch every
    [discord.HTTPException] at the call that raised it, so neither they nor
    [on_stream_start] and [on_stream_end] ever end with one. *)
Theorem delivery_errors_never_escape env stream_data w :
  (∀ subscription, fst (sub_alert env subscription stream_data w) ≠ Raise HTTPException)
  ∧ (∀ subscription, fst (sub_resolve env subscription stream_data w) ≠ Raise HTTPException)
  ∧ fst (on_stream_start env stream_data w) ≠ Raise HTTPException
  ∧ fst (on_stream_end env stream_data w) ≠ Raise HTTPException.
Proof.
  repeat split.
  - intros subscription. apply sub_alert_no_http.
  - intros subscription. apply sub_resolve_no_http.
  - apply (for_each_sub_no_http (sub_alert env)).
  - apply (for_each_sub_no_http (sub_resolve env)).
Qed.

(** The loop over the subscriptions composes: handling a list made of
    two parts is handling the first part and then, unless that raised, the
    second part from where the first left the world. *)
Lemma sub_alert_data_cases env subscription stream_data w :
  data (snd (sub_alert env subscription stream_data w)) = data w
  ∨ ∃ message_id,
      data (snd (sub_alert env subscription stream_data w))
      = mkData (streamers (data w)) (alert_channels (data w)) (streams (data w))
               (stream_alerts (data w)
                  ++ [StreamAlert.mk (next_alertid (data w)) (Stream.streamid stream_data)
                                     (AlertChannel.subscriptionid subscription)
                                     (utc_now env) message_id None])
               (next_streamid (data w)) (next_alertid (data w) + 1).
Proof. run_coroutine. repeat next_case; cbn; eauto. Qed.

Lemma sub_resolve_data_cases env subscription stream_data w :
  data (snd (sub_resolve env subscription stream_data w)) = data w
  ∨ ∃ alert,
      data (snd (sub_resolve env subscription stream_data w))
      = mkData (streamers (data w)) (alert_channels (data w)) (streams (data w))
               (List.map (resolve_row alert (utc_now env)) (stream_alerts (data w)))
               (next_streamid (data w)) (next_alertid (data w)).
Proof. run_coroutine. repeat next_case; cbn; eauto. Qed.

Lemma resolve_row_alertid alert t r :
  StreamAlert.alertid (resolve_row alert t r) = StreamAlert.alertid r.
Proof. unfold resolve_row. now destruct (Z.eqb _ _). Qed.

Lemma sub_alert_keyed env subscription stream_data w :
  alerts_keyed (data w) → alerts_keyed (data (snd (sub_alert env subscription stream_data w))).
Proof.
  intros [Hnd Hlt].
  destruct (sub_alert_data_cases env subscription stream_data w) as [->|[mid ->]];
    [now split|].
  split; cbn.
  - rewrite List.map_app. cbn. apply List.NoDup_app. repeat split.
    + exact Hnd.
    + repeat constructor. tauto.
    + intros x Hx [<-|[]]. apply List.in_map_iff in Hx as (a & Ha & Hin).
      specialize (Hlt a Hin). lia.
  - intros a Hin. apply List.in_app_or in Hin as [Hin|[<-|[]]]; cbn.
    + specialize (Hlt a Hin). lia.
    + lia.
Qed.

Lemma sub_resolve_keyed env subscription stream_data w :
  alerts_keyed (data w) →
  alerts_keyed (data (snd (sub_resolve env subscription stream_data w))).
Proof.
  intros [Hnd Hlt].
  destruct (sub_resolve_data_cases env subscription stream_data w) as [->|[alert ->]];
    [now split|].
  split; cbn.
  - rewrite List.map_map.
    rewrite (List.map_ext _ StreamAlert.alertid); [exact Hnd|].
    intros a. apply resolve_row_alertid.
  - intros a Hin. apply List.in_map_iff in Hin as (a0 & <- & Hin).
    rewrite resolve_row_alertid. now apply Hlt.
Qed.

(** X16. [alertid] stays a key: if the alert rows have distinct identifiers,
    all below the next identifier to be given, the same holds after a
    dispatch and after a resolution, however they end. *)
Theorem alerts_stay_keyed env stream_data w :
  alerts_keyed (data w) →
  alerts_keyed (data (snd (on_stream_start env stream_data w)))
  ∧ alerts_keyed (data (snd (on_stream_end env stream_data w))).
Proof.
  intros Hkeyed. split.
  - apply (for_each_sub_invariant alerts_keyed (sub_alert env) stream_data);
      [|exact Hkeyed].
    intros sub w0. apply sub_alert_keyed.
  - apply (for_each_sub_invariant alerts_keyed (sub_resolve env) stream_data);
      [|exact Hkeyed].
    intros sub w0. apply sub_resolve_keyed.
Qed.

Lemma alerts_stay_keyed_witness :
  alerts_keyed (data (snd (on_stream_start (env_ok 1000 []) alice_stream
                             (world_of [sub1; sub2] []))))
  ∧ alerts_keyed (data (snd (on_stream_end (env_ok 1000 []) alice_stream
                               (world_of [sub1; sub2] [])))).
Proof.
  apply (alerts_stay_keyed (env_ok 1000 []) alice_stream (world_of [sub1; sub2] [])).
  split; cbn; [constructor|tauto].
Defined.

(** ** Dispatch reaches every subscriber *)

Lemma alert_count_added streamid subscriptionid d row n m :
  alert_count streamid subscriptionid
    (mkData (streamers d) (alert_channels d) (streams d) (stream_alerts d ++ [row]) n m)
  = (alert_count streamid subscriptionid d
     + (if alert_matches streamid subscriptionid row then 1 else 0))%nat.
Proof.
  unfold alert_count, alerts_for. cbn. rewrite List.filter_app, List.length_app. cbn.
  now destruct (alert_matches _ _ row).
Qed.

Lemma sub_alert_count_grows env subscription stream_data w streamid subscriptionid :
  (alert_count streamid subscriptionid (data w)
   ≤ alert_count streamid subscriptionid
       (data (snd (sub_alert env subscription stream_data w))))%nat.
Proof.
  destruct (sub_alert_data_cases env subscription stream_data w) as [->|[mid ->]];
    [lia|].
  rewrite alert_count_added. lia.
Qed.

Lemma for_each_sub_alert_count_grows env stream_data streamid subscriptionid subbed w :
  (alert_count streamid subscriptionid (data w)
   ≤ alert_count streamid subscriptionid
       (data (snd (for_each_sub (sub_alert env) subbed stream_data w))))%nat.
Proof.
  apply (for_each_sub_invariant
           (λ d, (alert_count streamid subscriptionid (data w)
                  ≤ alert_count streamid subscriptionid d)%nat)
           (sub_alert env) stream_data); [|lia].
  intros sub w0 Hw0.
  pose proof (sub_alert_count_grows env sub stream_data w0 streamid subscriptionid). lia.
Qed.

(** The rows of a subscription that is not in the list are not touched. *)
Lemma for_each_sub_alert_count_fresh env stream_data streamid subscriptionid subbed w :
  List.NoDup (List.map AlertChannel.subscriptionid subbed) →
  ¬ In subscriptionid (List.map AlertChannel.subscriptionid subbed) →
  alert_count streamid subscriptionid
    (data (snd (for_each_sub (sub_alert env) subbed stream_data w)))
  = alert_count streamid subscriptionid (data w).
Proof.
  intros Hkey Hfresh.
  pose proof (for_each_sub_alert_count env stream_data streamid subscriptionid subbed w Hkey).
  pose proof (for_each_sub_alert_count_grows env stream_data streamid subscriptionid subbed w).
  rewrite (subscribed_fresh _ _ Hfresh) in *. lia.
Qed.

Lemma dispatch_reaches_all env stream_data streamer subbed :
  (∀ channelid args, ∃ message_id, channel_send env channelid args = Return message_id) →
  ∀ w,
    List.NoDup (List.map AlertChannel.subscriptionid subbed) →
    (∀ sub, In sub subbed → can_post env sub = true) →
    List.find (λ r, Z.eqb (Streamer.userid r) (Stream.streamerid stream_data))
              (streamers (data w)) = Some streamer →
    fst (for_each_sub (sub_alert env) subbed stream_data w) = Return tt
    ∧ ∀ sub, In sub subbed →
             alert_count (Stream.streamid stream_data) (AlertChannel.subscriptionid sub)
                         (data (snd (for_each_sub (sub_alert env) subbed stream_data w)))
             = (alert_count (Stream.streamid stream_data) (AlertChannel.subscriptionid sub)
                            (data w)
                + (if AlertChannel.paused sub then 0 else 1))%nat.
Proof.
  intros Hsend. induction subbed as [|sub0 rest IH]; intros w Hkey Hpost Hstreamer.
  - split; [reflexivity|]. intros sub [].
  - apply List.NoDup_cons_iff in Hkey as [Hfresh Hkey].
    assert (∃ w1,
               sub_alert env sub0 stream_data w = (Return tt, w1)
               ∧ streamers (data w1) = streamers (data w)
               ∧ ∀ subscriptionid,
                   alert_count (Stream.streamid stream_data) subscriptionid (data w1)
                   = (alert_count (Stream.streamid stream_data) subscriptionid (data w)
                      + (if AlertChannel.paused sub0 then 0
                         else if Z.eqb (AlertChannel.subscriptionid sub0) subscriptionid
                              then 1 else 0))%nat)
      as (w1 & Hrun & Hstreamers & Hcount).
    { destruct (AlertChannel.paused sub0) eqn:Hpaused.
      - exists w. rewrite sub_alert_paused by exact Hpaused.
        repeat split. intros. lia.
      - destruct (Hsend (AlertChannel.channelid sub0) (live_args sub0 stream_data streamer))
          as [mid Hmid].
        rewrite (sub_alert_sent env sub0 stream_data w streamer mid)
          by (auto; apply Hpost; now left).
        eexists. split; [reflexivity|]. split; [reflexivity|].
        intros subscriptionid. cbn [data]. rewrite alert_count_added.
        unfold alert_matches. cbn. rewrite Z.eqb_refl. reflexivity. }
    cbn [for_each_sub]. rewrite Hrun.
    destruct (IH w1 Hkey) as [Hret Hrest];
      [intros; apply Hpost; now right|now rewrite Hstreamers|].
    split; [exact Hret|].
    intros sub [<-|Hin].
    + rewrite for_each_sub_alert_count_fresh by assumption.
      rewrite Hcount, Z.eqb_refl. reflexivity.
    + rewrite (Hrest sub Hin), Hcount.
      destruct (Z.eqb_spec (AlertChannel.subscriptionid sub0) (AlertChannel.subscriptionid sub))
        as [Heq|Hne].
      * destruct Hfresh. rewrite Heq. now apply List.in_map.
      * destruct (AlertChannel.paused sub0); lia.
Qed.

(** X17. When every subscribed channel can be posted to, the streamer row
    is there and every send succeeds, a dispatch returns and does its work
    exactly: each subscription of the streamer that is not paused gets one
    more alert row for this stream, each paused one gets none. *)
Theorem on_stream_start_reaches_all env stream_data w streamer :
  (∀ channelid args, ∃ message_id, channel_send env channelid args = Return message_id) →
  List.NoDup (List.map AlertChannel.subscriptionid (alert_channels (data w))) →
  (∀ sub, In sub (subscriptions_of (Stream.streamerid stream_data) (data w)) →
          can_post env sub = true) →
  List.find (λ r, Z.eqb (Streamer.userid r) (Stream.streamerid stream_data))
            (streamers (data w)) = Some streamer →
  fst (on_stream_start env stream_data w) = Return tt
  ∧ ∀ sub, In sub (subscriptions_of (Stream.streamerid stream_data) (data w)) →
           alert_count (Stream.streamid stream_data) (AlertChannel.subscriptionid sub)
                       (data (snd (on_stream_start env stream_data w)))
           = (alert_count (Stream.streamid stream_data) (AlertChannel.subscriptionid sub)
                          (data w)
              + (if AlertChannel.paused sub then 0 else 1))%nat.
Proof.
  intros Hsend Hkey Hpost Hstreamer.
  change (on_stream_start env stream_data w)
    with (for_each_sub (sub_alert env)
            (subscriptions_of (Stream.streamerid stream_data) (data w)) stream_data w).
  apply (dispatch_reaches_all env stream_data streamer); auto.
  unfold subscriptions_of. now apply NoDup_map_filter.
Qed.

Lemma on_stream_start_reaches_all_witness :
  fst (on_stream_start (env_ok 1000 []) alice_stream
                       (world_of [sub_paused; sub2; bob_sub] [])) = Return tt
  ∧ ∀ sub, In sub (subscriptions_of 7 (data (world_of [sub_paused; sub2; bob_sub] []))) →
           alert_count 1 (AlertChannel.subscriptionid sub)
                       (data (snd (on_stream_start (env_ok 1000 []) alice_stream
                                     (world_of [sub_paused; sub2; bob_sub] []))))
           = (alert_count 1 (AlertChannel.subscriptionid sub)
                          (data (world_of [sub_paused; sub2; bob_sub] []))
              + (if AlertChannel.paused sub then 0 else 1))%nat.
Proof.
  apply (on_stream_start_reaches_all (env_ok 1000 []) alice_stream
           (world_of [sub_paused; sub2; bob_sub] []) alice).
  - intros channelid args. eexists. reflexivity.
  - cbn. repeat constructor; cbn; intuition discriminate.
  - intros sub _. reflexivity.
  - reflexivity.
Defined.

(** ** Resolution: the end policies *)

(** X18. With neither [end_delete] nor an end message, resolving an open
    alert is pure bookkeeping: the alert is marked resolved now and Discord
    is not called at all, not even to look for the message. *)
Theorem sub_resolve_nothing_configured env subscription stream_data w alert rest :
  alerts_for (Stream.streamid stream_data) (AlertChannel.subscriptionid subscription) (data w)
  = alert :: rest →
  StreamAlert.resolved_at alert = None →
  AlertChannel.end_delete subscription = false →
  truthy_opt (AlertChannel.end_message subscription) = false →
  sub_resolve env subscription stream_data w
  = (Return tt, mkWorld (resolved_data alert (utc_now env) (data w)) (discord_calls w)).
Proof.
  intros Hfetch Hopen Hdel Htemplate. run_coroutine.
  now rewrite Hfetch, Hopen, Hdel, Htemplate.
Qed.

Lemma sub_resolve_nothing_configured_witness :
  sub_resolve (env_ok 2000 []) sub1 alice_ended (world_of [sub1] [alert1])
  = (Return tt,
     mkWorld (resolved_data alert1 2000 (data (world_of [sub1] [alert1]))) []).
Proof.
  apply (sub_resolve_nothing_configured (env_ok 2000 []) sub1 alice_ended
           (world_of [sub1] [alert1]) alert1 []); reflexivity.
Defined.

(** X19. When the message of an open alert cannot be found (the channel is
    gone, or fetching the message fails with a delivery error) nothing is
    deleted or edited, whatever the end policy is, and the alert is marked
    resolved all the same. *)
Theorem sub_resolve_message_not_found env subscription stream_data w alert rest :
  alerts_for (Stream.streamid stream_data) (AlertChannel.subscriptionid subscription) (data w)
  = alert :: rest →
  StreamAlert.resolved_at alert = None →
  get_channel env (AlertChannel.channelid subscription) = None
  ∨ channel_fetch_message env (AlertChannel.channelid subscription)
                          (StreamAlert.messageid alert) = Raise HTTPException →
  fst (sub_resolve env subscription stream_data w) = Return tt
  ∧ data (snd (sub_resolve env subscription stream_data w))
    = resolved_data alert (utc_now env) (data w)
  ∧ List.filter (λ e, is_delete e || is_edit e)
                (discord_calls (snd (sub_resolve env subscription stream_data w)))
    = List.filter (λ e, is_delete e || is_edit e) (discord_calls w).
Proof.
  intros Hfetch Hopen Hnotfound. run_coroutine. rewrite Hfetch, Hopen.
  destruct (AlertChannel.end_delete subscription
            || truthy_opt (AlertChannel.end_message subscription)); cbn; [|auto].
  destruct Hnotfound as [Hgone|Hfailed].
  - rewrite Hgone. cbn. auto.
  - destruct (get_channel env _); cbn; [|auto].
    rewrite Hfailed. cbn. repeat split.
    rewrite List.filter_app. cbn. apply List.app_nil_r.
Qed.

Lemma sub_resolve_message_not_found_witness :
  fst (sub_resolve (mkEnv 2000 (λ _, None) (λ _ _, Return 1) (λ _ _, Return tt)
                          (λ _ _, Return tt) (λ _ _ _, Return tt) (twitch_of []) elements
                          decimal)
                   sub_delete alice_ended (world_of [sub_delete] [alert1]))
  = Return tt
  ∧ data (snd (sub_resolve (mkEnv 2000 (λ _, None) (λ _ _, Return 1) (λ _ _, Return tt)
                                  (λ _ _, Return tt) (λ _ _ _, Return tt) (twitch_of [])
                                  elements decimal)
                           sub_delete alice_ended (world_of [sub_delete] [alert1])))
    = resolved_data alert1 2000 (data (world_of [sub_delete] [alert1]))
  ∧ List.filter (λ e, is_delete e || is_edit e)
      (discord_calls
         (snd (sub_resolve (mkEnv 2000 (λ _, None) (λ _ _, Return 1) (λ _ _, Return tt)
                                  (λ _ _, Return tt) (λ _ _ _, Return tt) (twitch_of [])
                                  elements decimal)
                           sub_delete alice_ended (world_of [sub_delete] [alert1]))))
    = [].
Proof.
  apply (sub_resolve_message_not_found
           (mkEnv 2000 (λ _, None) (λ _ _, Return 1) (λ _ _, Return tt)
                  (λ _ _, Return tt) (λ _ _ _, Return tt) (twitch_of []) elements
                          decimal)
           sub_delete alice_ended (world_of [sub_delete] [alert1]) alert1 []).
  - reflexivity.
  - reflexivity.
  - left. reflexivity.
Defined.

(** X20. With [end_delete] off and an end message configured, once the
    message of an open alert has been found and the end message rendered,
    the calls made are the fetch and one edit with the rendered message; no
    delete.  The alert is marked resolved unless the edit fails with
    something else than a delivery error, which is raised. *)
Theorem sub_resolve_edits env subscription stream_data w alert rest channel formatted :
  alerts_for (Stream.streamid stream_data) (AlertChannel.subscriptionid subscription) (data w)
  = alert :: rest →
  StreamAlert.resolved_at alert = None →
  AlertChannel.end_delete subscription = false →
  truthy_opt (AlertChannel.end_message subscription) = true →
  get_channel env (AlertChannel.channelid subscription) = Some channel →
  channel_fetch_message env (AlertChannel.channelid subscription) (StreamAlert.messageid alert)
  = Return tt →
  AlertSettings.AlertEndMessage.formatter
    stream_data
    (List.find (λ r, Z.eqb (Streamer.userid r) (Stream.streamerid stream_data))
               (streamers (data w)))
    (AlertChannel.end_message subscription)
  = Return formatted →
  let channelid := AlertChannel.channelid subscription in
  let messageid := StreamAlert.messageid alert in
  let args := value_to_args (AlertChannel.subscriptionid subscription) formatted in
  let calls :=
    discord_calls w
      ++ [(FetchMessage channelid messageid, None);
          (Edit channelid messageid args, status (message_edit env channelid messageid args))]
  in
  sub_resolve env subscription stream_data w
  = match message_edit env channelid messageid args with
    | Raise OtherException => (Raise OtherException, mkWorld (data w) calls)
    | _ => (Return tt, mkWorld (resolved_data alert (utc_now env) (data w)) calls)
    end.
Proof.
  intros Hfetch Hopen Hdel Htemplate Hchannel Hfound Hrender. run_coroutine.
  rewrite Hfetch, Hopen, Hdel, Htemplate, Hchannel, Hfound. cbn.
  rewrite Hrender. cbn.
  destruct (message_edit env _ _ _) as [[]|[]]; cbn; now rewrite <- List.app_assoc.
Qed.

(** X21. The edit path does not guard against a missing row: when the end
    message has to be rendered and the streamer row is gone, or the stream
    has no end time, [sub_resolve] raises after the fetch; no edit is made
    and the alert stays open. *)
Theorem sub_resolve_cannot_render env subscription stream_data w alert rest channel :
  alerts_for (Stream.streamid stream_data) (AlertChannel.subscriptionid subscription) (data w)
  = alert :: rest →
  StreamAlert.resolved_at alert = None →
  AlertChannel.end_delete subscription = false →
  truthy_opt (AlertChannel.end_message subscription) = true →
  get_channel env (AlertChannel.channelid subscription) = Some channel →
  channel_fetch_message env (AlertChannel.channelid subscription) (StreamAlert.messageid alert)
  = Return tt →
  List.find (λ r, Z.eqb (Streamer.userid r) (Stream.streamerid stream_data))
            (streamers (data w)) = None
  ∨ Stream.end_at stream_data = None →
  sub_resolve env subscription stream_data w
  = (Raise OtherException,
     mkWorld (data w)
             (discord_calls w
                ++ [(FetchMessage (AlertChannel.channelid subscription)
                                  (StreamAlert.messageid alert), None)])).
Proof.
  intros Hfetch Hopen Hdel Htemplate Hchannel Hfound Hmissing. run_coroutine.
  rewrite Hfetch, Hopen, Hdel, Htemplate, Hchannel, Hfound. cbn.
  assert (AlertSettings.AlertEndMessage.formatter
            stream_data
            (List.find (λ r, Z.eqb (Streamer.userid r) (Stream.streamerid stream_data))
                       (streamers (data w)))
            (AlertChannel.end_message subscription)
          = Raise OtherException) as ->; [|reflexivity].
  unfold AlertSettings.AlertEndMessage.formatter, AlertSettings.AlertEndMessage.bindings.
  destruct (AlertChannel.end_message subscription) as [template|]; [|discriminate].
  cbn in Htemplate. rewrite Htemplate. cbn.
  destruct Hmissing as [-> | ->]; [reflexivity|].
  now destruct (List.find _ _).
Qed.

(** ** Resolution as a whole *)

Lemma forget_resolved_at alert t r :
  StreamAlert.with_resolved_at None (resolve_row alert t r)
  = StreamAlert.with_resolved_at None r.
Proof. unfold resolve_row. now destruct (Z.eqb _ _). Qed.

(** What one call of [sub_resolve] may change. *)
Lemma sub_resolve_frame_step env subscription stream_data w :
  ∃ new,
    discord_calls (snd (sub_resolve env subscription stream_data w)) = discord_calls w ++ new
    ∧ Forall (λ e, is_send e = false) new
    ∧ streamers (data (snd (sub_resolve env subscription stream_data w))) = streamers (data w)
    ∧ alert_channels (data (snd (sub_resolve env subscription stream_data w)))
      = alert_channels (data w)
    ∧ streams (data (snd (sub_resolve env subscription stream_data w))) = streams (data w)
    ∧ List.map (StreamAlert.with_resolved_at None)
               (stream_alerts (data (snd (sub_resolve env subscription stream_data w))))
      = List.map (StreamAlert.with_resolved_at None) (stream_alerts (data w)).
Proof.
  assert (∀ alert t,
             List.map (StreamAlert.with_resolved_at None)
                      (List.map (resolve_row alert t) (stream_alerts (data w)))
             = List.map (StreamAlert.with_resolved_at None) (stream_alerts (data w)))
    as Hrows.
  { intros alert t. rewrite List.map_map. apply List.map_ext.
    intros r. apply forget_resolved_at. }
  run_coroutine.
  repeat next_case; cbn [fst snd data discord_calls streamers alert_channels streams
                           stream_alerts];
    rewrite ?Hrows;
    first [ exists (@nil event); rewrite List.app_nil_r; repeat split; constructor
          | eexists; rewrite <- ?List.app_assoc; split; [reflexivity|];
            repeat split; repeat constructor ].
Qed.

Lemma for_each_sub_resolve_frame env stream_data subbed :
  ∀ w,
    ∃ new,
      discord_calls (snd (for_each_sub (sub_resolve env) subbed stream_data w))
      = discord_calls w ++ new
      ∧ Forall (λ e, is_send e = false) new
      ∧ streamers (data (snd (for_each_sub (sub_resolve env) subbed stream_data w)))
        = streamers (data w)
      ∧ alert_channels (data (snd (for_each_sub (sub_resolve env) subbed stream_data w)))
        = alert_channels (data w)
      ∧ streams (data (snd (for_each_sub (sub_resolve env) subbed stream_data w)))
        = streams (data w)
      ∧ List.map (StreamAlert.with_resolved_at None)
                 (stream_alerts
                    (data (snd (for_each_sub (sub_resolve env) subbed stream_data w))))
        = List.map (StreamAlert.with_resolved_at None) (stream_alerts (data w)).
Proof.
  induction subbed as [|sub rest IH]; intros w; cbn [for_each_sub].
  - exists []. cbn. rewrite List.app_nil_r. repeat split. constructor.
  - destruct (sub_resolve_frame_step env sub stream_data w)
      as (new1 & Hlog1 & Hsend1 & Hs1 & Hc1 & Hst1 & Hrows1).
    destruct (sub_resolve env sub stream_data w) as [r w1]. cbn [snd] in *.
    destruct (IH w1) as (new2 & Hlog2 & Hsend2 & Hs2 & Hc2 & Hst2 & Hrows2).
    destruct r as [[]|[]]; cbn [snd].
    + exists (new1 ++ new2). rewrite Hlog2, Hlog1, List.app_assoc.
      split; [reflexivity|]. split; [now apply List.Forall_app|].
      rewrite Hs2, Hc2, Hst2, Hrows2. auto.
    + exists (new1 ++ new2). rewrite Hlog2, Hlog1, List.app_assoc.
      split; [reflexivity|]. split; [now apply List.Forall_app|].
      rewrite Hs2, Hc2, Hst2, Hrows2. auto.
    + exists new1. auto 10.
Qed.

(** X22. A resolution never sends a message and changes nothing but
    resolved times: the streamers, the subscriptions and the streams are as
    before, and the alert rows are the same rows in the same order, up to
    their [resolved_at] column. *)
Theorem on_stream_end_frame env stream_data w :
  ∃ new,
    discord_calls (snd (on_stream_end env stream_data w)) = discord_calls w ++ new
    ∧ Forall (λ e, is_send e = false) new
    ∧ streamers (data (snd (on_stream_end env stream_data w))) = streamers (data w)
    ∧ alert_channels (data (snd (on_stream_end env stream_data w))) = alert_channels (data w)
    ∧ streams (data (snd (on_stream_end env stream_data w))) = streams (data w)
    ∧ List.map (StreamAlert.with_resolved_at None)
               (stream_alerts (data (snd (on_stream_end env stream_data w))))
      = List.map (StreamAlert.with_resolved_at None) (stream_alerts (data w)).
Proof.
  change (on_stream_end env stream_data w)
    with (for_each_sub (sub_resolve env)
            (subscriptions_of (Stream.streamerid stream_data) (data w)) stream_data w).
  apply for_each_sub_resolve_frame.
Qed.

(** In a tolerant environment, with the streamer row there and the stream
    ended, [sub_resolve] returns. *)
Lemma sub_resolve_returns env subscription stream_data w streamer stream_end :
  tolerated env →
  List.find (λ r, Z.eqb (Streamer.userid r) (Stream.streamerid stream_data))
            (streamers (data w)) = Some streamer →
  Stream.end_at stream_data = Some stream_end →
  fst (sub_resolve env subscription stream_data w) = Return tt.
Proof.
  intros (Hfetchmsg & Hdelete & Hedit) Hs He.
  destruct (end_formatter_return stream_data streamer stream_end
              (AlertChannel.end_message subscription) He) as [formatted Hf].
  run_coroutine.
  repeat next_case; rewrite ?Hs in *; simplify_eq; cbn; auto; try congruence.
  all: match goal with
       | H : channel_fetch_message _ ?c ?m = Raise OtherException |- _ =>
           now destruct (Hfetchmsg c m)
       | H : message_delete _ ?c ?m = Raise OtherException |- _ =>
           now destruct (Hdelete c m)
       | H : message_edit _ ?c ?m ?a = Raise OtherException |- _ =>
           now destruct (Hedit c m a)
       end.
Qed.

Lemma first_alert_resolved_kept streamid subscriptionid alert t d :
  first_alert_resolved streamid subscriptionid d →
  first_alert_resolved streamid subscriptionid (resolved_data alert t d).
Proof.
  unfold first_alert_resolved, resolved_data. rewrite alerts_for_resolved.
  destruct (alerts_for streamid subscriptionid d) as [|a l]; cbn; [auto|].
  unfold resolve_row. destruct (Z.eqb _ _); cbn; [discriminate|auto].
Qed.

Lemma sub_resolve_keeps_resolved env subscription stream_data w streamid subscriptionid :
  first_alert_resolved streamid subscriptionid (data w) →
  first_alert_resolved streamid subscriptionid
                       (data (snd (sub_resolve env subscription stream_data w))).
Proof.
  intros Hres.
  destruct (sub_resolve_data_cases env subscription stream_data w) as [->|[alert ->]];
    [exact Hres|].
  now apply first_alert_resolved_kept.
Qed.

Lemma sub_resolve_resolves_first env subscription stream_data w :
  fst (sub_resolve env subscription stream_data w) = Return tt →
  first_alert_resolved (Stream.streamid stream_data) (AlertChannel.subscriptionid subscription)
                       (data (snd (sub_resolve env subscription stream_data w))).
Proof.
  intros Hret.
  destruct (alerts_for (Stream.streamid stream_data)
                       (AlertChannel.subscriptionid subscription) (data w))
    as [|alert rest] eqn:Hfetch.
  - apply sub_resolve_keeps_resolved. unfold first_alert_resolved. now rewrite Hfetch.
  - destruct (StreamAlert.resolved_at alert) as [t|] eqn:Hopen.
    + apply sub_resolve_keeps_resolved. unfold first_alert_resolved.
      rewrite Hfetch. congruence.
    + destruct (sub_resolve env subscription stream_data w) as [r w1] eqn:Hrun.
      pose proof (sub_resolve_data _ _ _ _ _ _ Hfetch Hopen _ _ Hrun) as Hdata.
      cbn in Hret. subst r. cbn. rewrite Hdata.
      unfold first_alert_resolved.
      change (mkData _ _ _ _ _ _) with (resolved_data alert (utc_now env) (data w)).
      unfold resolved_data. rewrite alerts_for_resolved, Hfetch. cbn.
      rewrite resolve_row_self. discriminate.
Qed.

Lemma resolve_reaches_all env stream_data streamer stream_end subbed :
  tolerated env →
  Stream.end_at stream_data = Some stream_end →
  ∀ w,
    List.find (λ r, Z.eqb (Streamer.userid r) (Stream.streamerid stream_data))
              (streamers (data w)) = Some streamer →
    fst (for_each_sub (sub_resolve env) subbed stream_data w) = Return tt
    ∧ ∀ sub, In sub subbed →
             first_alert_resolved
               (Stream.streamid stream_data) (AlertChannel.subscriptionid sub)
               (data (snd (for_each_sub (sub_resolve env) subbed stream_data w))).
Proof.
  intros Htol Hend. induction subbed as [|sub0 rest IH]; intros w Hstreamer.
  - split; [reflexivity|]. intros sub [].
  - pose proof (sub_resolve_returns env sub0 stream_data w streamer stream_end
                  Htol Hstreamer Hend) as Hret.
    pose proof (sub_resolve_resolves_first env sub0 stream_data w Hret) as Hfirst.
    destruct (sub_resolve_frame_step env sub0 stream_data w) as (_ & _ & _ & Hs & _).
    cbn [for_each_sub].
    destruct (sub_resolve env sub0 stream_data w) as [r w1]. cbn [fst snd] in *. subst r.
    destruct (IH w1) as [Hret' Hrest]; [now rewrite Hs|].
    split; [exact Hret'|].
    intros sub [<-|Hin]; [|now apply Hrest].
    apply (for_each_sub_invariant
             (first_alert_resolved (Stream.streamid stream_data)
                                   (AlertChannel.subscriptionid sub0))
             (sub_resolve env) stream_data); [|exact Hfirst].
    intros sub w0. apply sub_resolve_keeps_resolved.
Qed.

(** X23. When Discord only ever fails with delivery errors, the streamer
    row is there and the stream has its end time, a resolution returns and
    leaves no first alert open: for every subscription of the streamer, the
    first alert row of this stream, if there is one, is resolved. *)
Theorem on_stream_end_resolves_all env stream_data w streamer stream_end :
  tolerated env →
  Stream.end_at stream_data = Some stream_end →
  List.find (λ r, Z.eqb (Streamer.userid r) (Stream.streamerid stream_data))
            (streamers (data w)) = Some streamer →
  fst (on_stream_end env stream_data w) = Return tt
  ∧ ∀ sub, In sub (subscriptions_of (Stream.streamerid stream_data) (data w)) →
           first_alert_resolved
             (Stream.streamid stream_data) (AlertChannel.subscriptionid sub)
             (data (snd (on_stream_end env stream_data w))).
Proof.
  intros Htol Hend Hstreamer.
  change (on_stream_end env stream_data w)
    with (for_each_sub (sub_resolve env)
            (subscriptions_of (Stream.streamerid stream_data) (data w)) stream_data w).
  now apply (resolve_reaches_all env stream_data streamer stream_end).
Qed.

(** ** Commands *)

(** The shared part of the commands either leaves the world as it is,
    without a [Reply], or runs the action on the subscription found. *)
Lemma edit_alert_command_cases ctx alert action w :
  (snd (edit_alert_command ctx alert action w) = w
   ∧ ∀ text, fst (edit_alert_command ctx alert action w) ≠ Return (Reply text))
  ∨ ∃ sub_data,
      authorised ctx alert (data w) sub_data
      ∧ edit_alert_command ctx alert action w = action sub_data w.
Proof.
  unfold edit_alert_command, resolve_alert, AlertChannel_fetch, authorised.
  run_coroutine.
  destruct alert as [subscriptionid|]; [|left; split; [reflexivity|discriminate]].
  destruct (List.find _ (alert_channels (data w))) as [sub_data|] eqn:Hfind; cbn;
    [|left; split; [reflexivity|discriminate]].
  destruct (Z.eqb_spec (AlertChannel.guildid sub_data) (guild_id ctx)) as [Hguild|Hguild];
    cbn; [|left; split; [reflexivity|discriminate]].
  destruct (author_manage_channels ctx _) as [[]|e] eqn:Hperm; cbn;
    [|left; split; [reflexivity|discriminate]..].
  right. exists sub_data. split; [|reflexivity]. exists subscriptionid. auto.
Qed.

(** X24. The three commands are guarded: unless the argument names a
    subscription of the guild the command is run in and the author may
    manage channels there, [pause], [unpause] and [remove] change nothing,
    neither the data nor anything sent, and do not report success. *)
Theorem commands_are_guarded ctx alert w :
  (∀ sub_data, ¬ authorised ctx alert (data w) sub_data) →
  (snd (streamalert_pause_cmd ctx alert w) = w
   ∧ ∀ text, fst (streamalert_pause_cmd ctx alert w) ≠ Return (Reply text))
  ∧ (snd (streamalert_unpause_cmd ctx alert w) = w
     ∧ ∀ text, fst (streamalert_unpause_cmd ctx alert w) ≠ Return (Reply text))
  ∧ (snd (streamalert_remove_cmd ctx alert w) = w
     ∧ ∀ text, fst (streamalert_remove_cmd ctx alert w) ≠ Return (Reply text)).
Proof.
  intros Hno. unfold streamalert_pause_cmd, streamalert_unpause_cmd, streamalert_remove_cmd.
  repeat split;
    match goal with
    | |- context [edit_alert_command ctx alert ?action w] =>
        destruct (edit_alert_command_cases ctx alert action w)
          as [[Hsame Hreply]|(sub_data & Hauth & _)];
        [auto | now destruct (Hno sub_data)]
    end.
Qed.

Lemma commands_are_guarded_witness :
  (snd (streamalert_pause_cmd (member_of 1) (Some 1) (world_of [sub1] [])) = world_of [sub1] []
   ∧ ∀ text, fst (streamalert_pause_cmd (member_of 1) (Some 1) (world_of [sub1] []))
             ≠ Return (Reply text))
  ∧ (snd (streamalert_unpause_cmd (member_of 1) (Some 1) (world_of [sub1] []))
     = world_of [sub1] []
     ∧ ∀ text, fst (streamalert_unpause_cmd (member_of 1) (Some 1) (world_of [sub1] []))
               ≠ Return (Reply text))
  ∧ (snd (streamalert_remove_cmd (member_of 1) (Some 1) (world_of [sub1] []))
     = world_of [sub1] []
     ∧ ∀ text, fst (streamalert_remove_cmd (member_of 1) (Some 1) (world_of [sub1] []))
               ≠ Return (Reply text)).
Proof.
  apply (commands_are_guarded (member_of 1) (Some 1) (world_of [sub1] [])).
  intros sub_data (subscriptionid & _ & _ & _ & Hperm). cbn in Hperm. discriminate.
Defined.

(** What a send of [sub_alert] is for. *)
Lemma sub_alert_sends_for env subscription stream_data w s :
  AlertChannel.subscriptionid subscription ≠ s →
  List.filter (sent_for s) (discord_calls (snd (sub_alert env subscription stream_data w)))
  = List.filter (sent_for s) (discord_calls w).
Proof.
  intros Hne. apply Z.eqb_neq in Hne. run_coroutine.
  repeat next_case; cbn [fst snd data discord_calls]; try reflexivity;
    rewrite List.filter_app; cbn; unfold sent_for; cbn; rewrite Hne;
    apply List.app_nil_r.
Qed.

(** A dispatch over subscriptions among which those with the identifier [s]
    are paused sends nothing for [s] and adds no alert row for [s]. *)
Lemma dispatch_skips_paused env stream_data streamid s subbed :
  (∀ sub, In sub subbed → AlertChannel.subscriptionid sub = s →
          AlertChannel.paused sub = true) →
  ∀ w,
    List.filter (sent_for s)
                (discord_calls (snd (for_each_sub (sub_alert env) subbed stream_data w)))
    = List.filter (sent_for s) (discord_calls w)
    ∧ alert_count streamid s (data (snd (for_each_sub (sub_alert env) subbed stream_data w)))
      = alert_count streamid s (data w).
Proof.
  induction subbed as [|sub0 rest IH]; intros Hpaused w; cbn [for_each_sub].
  - split; reflexivity.
  - assert (List.filter (sent_for s)
                        (discord_calls (snd (sub_alert env sub0 stream_data w)))
            = List.filter (sent_for s) (discord_calls w)
            ∧ alert_count streamid s (data (snd (sub_alert env sub0 stream_data w)))
              = alert_count streamid s (data w)) as [Hlog Hcount].
    { destruct (Z.eq_dec (AlertChannel.subscriptionid sub0) s) as [Heq|Hne].
      - rewrite sub_alert_paused; [split; reflexivity|].
        apply Hpaused; [now left|exact Heq].
      - split; [now apply sub_alert_sends_for|].
        pose proof (sub_alert_count env sub0 stream_data w streamid s) as Hle.
        pose proof (sub_alert_count_grows env sub0 stream_data w streamid s) as Hge.
        apply Z.eqb_neq in Hne. rewrite Hne in Hle. lia. }
    destruct (sub_alert env sub0 stream_data w) as [r w1]. cbn [snd] in *.
    destruct (IH (λ sub Hin, Hpaused sub (or_intror Hin)) w1) as [Hlog' Hcount'].
    destruct r as [[]|[]]; cbn [snd]; rewrite <- ?Hlog, <- ?Hcount; auto.
Qed.

Lemma find_subscription_paused sub_data b rows r :
  In r (List.map (λ r, if Z.eqb (AlertChannel.subscriptionid r)
                                (AlertChannel.subscriptionid sub_data)
                       then with_paused b r else r) rows) →
  AlertChannel.subscriptionid r = AlertChannel.subscriptionid sub_data →
  AlertChannel.paused r = b.
Proof.
  intros Hin Hid. apply List.in_map_iff in Hin as (r0 & <- & _).
  destruct (Z.eqb_spec (AlertChannel.subscriptionid r0)
                       (AlertChannel.subscriptionid sub_data)) as [|Hne];
    [reflexivity|]. now destruct Hne.
Qed.

Lemma find_subscriptionid rows subscriptionid sub_data :
  List.find (λ r, Z.eqb (AlertChannel.subscriptionid r) subscriptionid) rows = Some sub_data →
  AlertChannel.subscriptionid sub_data = subscriptionid ∧ In sub_data rows.
Proof.
  intros Hfind. apply List.find_some in Hfind as [Hin Heq].
  apply Z.eqb_eq in Heq. auto.
Qed.

(** X25. Pausing works on the next dispatch: once an authorised [pause]
    command has answered, a dispatch of any stream sends nothing for the
    paused subscription and adds no alert row for it; the subscriptions are
    the same rows as before, up to their [paused] column. *)
Theorem pause_stops_dispatch ctx subscriptionid w sub_data env stream_data streamid :
  authorised ctx (Some subscriptionid) (data w) sub_data →
  let w1 := snd (streamalert_pause_cmd ctx (Some subscriptionid) w) in
  fst (streamalert_pause_cmd ctx (Some subscriptionid) w)
  = Return (Reply "This alert is now paused!")
  ∧ List.map (with_paused true) (alert_channels (data w1))
    = List.map (with_paused true) (alert_channels (data w))
  ∧ List.filter (sent_for subscriptionid)
                (discord_calls (snd (on_stream_start env stream_data w1)))
    = List.filter (sent_for subscriptionid) (discord_calls w)
  ∧ alert_count streamid subscriptionid (data (snd (on_stream_start env stream_data w1)))
    = alert_count streamid subscriptionid (data w).
Proof.
  intros Hauth w1.
  assert (streamalert_pause_cmd ctx (Some subscriptionid) w
          = (Return (Reply "This alert is now paused!"),
             mkWorld
               (mkData (streamers (data w))
                       (List.map (λ r, if Z.eqb (AlertChannel.subscriptionid r)
                                                (AlertChannel.subscriptionid sub_data)
                                       then with_paused true r else r)
                                 (alert_channels (data w)))
                       (streams (data w)) (stream_alerts (data w))
                       (next_streamid (data w)) (next_alertid (data w)))
               (discord_calls w))) as Hrun.
  { unfold streamalert_pause_cmd.
    destruct (edit_alert_command_cases ctx (Some subscriptionid)
                (λ sub_data, AlertChannel_update_paused sub_data true ;;;
                             ret (Reply "This alert is now paused!")) w)
      as [[_ Hreply]|(sub' & (id' & [= <-] & Hfind' & _) & ->)].
    - destruct Hauth as (id & [= <-] & Hfind & Hguild & Hperm).
      exfalso. revert Hreply.
      unfold edit_alert_command, resolve_alert, AlertChannel_fetch. run_coroutine.
      rewrite Hfind. cbn. rewrite Hguild, Z.eqb_refl. cbn. rewrite Hperm. cbn.
      intros Hreply. now apply (Hreply "This alert is now paused!"%string).
    - destruct Hauth as (id & [= <-] & Hfind & _).
      rewrite Hfind in Hfind'. injection Hfind' as <-. reflexivity. }
  destruct Hauth as (id & [= <-] & Hfind & _).
  apply find_subscriptionid in Hfind as [Hid _].
  subst w1. rewrite Hrun. cbn [fst snd]. split; [reflexivity|]. split.
  - cbn. rewrite List.map_map. apply List.map_ext.
    intros r. now destruct (Z.eqb _ _).
  - change (on_stream_start env stream_data ?w0)
      with (for_each_sub (sub_alert env)
              (subscriptions_of (Stream.streamerid stream_data) (data w0)) stream_data w0).
    match goal with
    | |- context [for_each_sub _ ?subbed _ ?w0] =>
        destruct (dispatch_skips_paused env stream_data streamid subscriptionid subbed)
          with (w := w0) as [Hlog Hcount]
    end.
    + intros sub Hin Hsub. unfold subscriptions_of in Hin.
      apply List.filter_In in Hin as [Hin _]. cbn in Hin.
      apply (find_subscription_paused sub_data true _ _ Hin). congruence.
    + rewrite Hlog, Hcount. split; reflexivity.
Qed.

Lemma pause_stops_dispatch_witness :
  fst (streamalert_pause_cmd (admin_of 1) (Some 1) (world_of [sub1; sub2] []))
  = Return (Reply "This alert is now paused!")
  ∧ List.map (with_paused true)
             (alert_channels
                (data (snd (streamalert_pause_cmd (admin_of 1) (Some 1)
                              (world_of [sub1; sub2] [])))))
    = List.map (with_paused true) (alert_channels (data (world_of [sub1; sub2] [])))
  ∧ List.filter (sent_for 1)
      (discord_calls
         (snd (on_stream_start (env_ok 1000 []) alice_stream
                 (snd (streamalert_pause_cmd (admin_of 1) (Some 1)
                         (world_of [sub1; sub2] []))))))
    = List.filter (sent_for 1) (discord_calls (world_of [sub1; sub2] []))
  ∧ alert_count 1 1
      (data (snd (on_stream_start (env_ok 1000 []) alice_stream
                    (snd (streamalert_pause_cmd (admin_of 1) (Some 1)
                            (world_of [sub1; sub2] []))))))
    = alert_count 1 1 (data (world_of [sub1; sub2] [])).
Proof.
  apply (pause_stops_dispatch (admin_of 1) 1 (world_of [sub1; sub2] []) sub1
           (env_ok 1000 []) alice_stream 1).
  exists 1. repeat split.
Defined.

Lemma edit_alert_command_authorised ctx alert action w sub_data :
  authorised ctx alert (data w) sub_data →
  edit_alert_command ctx alert action w = action sub_data w.
Proof.
  intros (subscriptionid & -> & Hfind & Hguild & Hperm).
  unfold edit_alert_command, resolve_alert, AlertChannel_fetch. run_coroutine.
  rewrite Hfind. cbn. rewrite Hguild, Z.eqb_refl. cbn. now rewrite Hperm.
Qed.

Lemma find_paused_row b sub_data subscriptionid rows :
  List.find (λ r, Z.eqb (AlertChannel.subscriptionid r) subscriptionid)
            (List.map (λ r, if Z.eqb (AlertChannel.subscriptionid r)
                                     (AlertChannel.subscriptionid sub_data)
                            then with_paused b r else r) rows)
  = option_map (λ r, if Z.eqb (AlertChannel.subscriptionid r)
                              (AlertChannel.subscriptionid sub_data)
                     then with_paused b r else r)
               (List.find (λ r, Z.eqb (AlertChannel.subscriptionid r) subscriptionid) rows).
Proof.
  induction rows as [|r rows IH]; cbn; [reflexivity|].
  assert (AlertChannel.subscriptionid
            (if Z.eqb (AlertChannel.subscriptionid r) (AlertChannel.subscriptionid sub_data)
             then with_paused b r else r)
          = AlertChannel.subscriptionid r) as -> by (now destruct (Z.eqb _ _)).
  destruct (Z.eqb (AlertChannel.subscriptionid r) subscriptionid); [reflexivity|exact IH].
Qed.

Lemma NoDup_map_unique {A B} (f : A → B) (l : list A) a b :
  List.NoDup (List.map f l) → In a l → In b l → f a = f b → a = b.
Proof.
  induction l as [|x l IH]; cbn; [tauto|].
  intros Hnd. apply List.NoDup_cons_iff in Hnd as [Hx Hnd].
  intros [<-|Ha] [<-|Hb] Heq; auto.
  - destruct Hx. rewrite Heq. now apply List.in_map.
  - destruct Hx. rewrite <- Heq. now apply List.in_map.
Qed.

(** X26. [unpause] undoes [pause]: for a subscription that was not paused,
    an authorised [pause] followed by [unpause] gives back the very same
    data ([subscriptionid] being a key of the subscriptions). *)
Theorem unpause_undoes_pause ctx subscriptionid w sub_data :
  authorised ctx (Some subscriptionid) (data w) sub_data →
  List.NoDup (List.map AlertChannel.subscriptionid (alert_channels (data w))) →
  AlertChannel.paused sub_data = false →
  streamalert_unpause_cmd ctx (Some subscriptionid)
    (snd (streamalert_pause_cmd ctx (Some subscriptionid) w))
  = (Return (Reply "This alert has been unpaused!"), w).
Proof.
  intros Hauth Hkey Hunpaused.
  unfold streamalert_pause_cmd, streamalert_unpause_cmd.
  rewrite (edit_alert_command_authorised ctx _ _ w sub_data Hauth).
  destruct Hauth as (id & [= <-] & Hfind & Hguild & Hperm).
  pose proof (find_subscriptionid _ _ _ Hfind) as [Hid Hin].
  run_coroutine.
  erewrite (edit_alert_command_authorised ctx _ _ _ (with_paused true sub_data)).
  - run_coroutine. f_equal. destruct w as [d calls]. cbn. f_equal.
    destruct d as [ss subs sts als n1 n2]. cbn in *. f_equal.
    rewrite List.map_map. rewrite <- (List.map_id subs) at 2.
    apply List.map_ext_in. intros r Hr.
    destruct (Z.eqb_spec (AlertChannel.subscriptionid r)
                         (AlertChannel.subscriptionid sub_data)) as [Heq|Hne]; cbn.
    + rewrite Heq, Z.eqb_refl.
      assert (r = sub_data) as -> by (eapply NoDup_map_unique; eauto).
      destruct sub_data. cbn in *. now subst.
    + apply Z.eqb_neq in Hne. now rewrite Hne.
  - exists subscriptionid. cbn. split; [reflexivity|].
    rewrite find_paused_row, Hfind. cbn. rewrite Hid, Z.eqb_refl. auto.
Qed.

Lemma unpause_undoes_pause_witness :
  streamalert_unpause_cmd (admin_of 1) (Some 1)
    (snd (streamalert_pause_cmd (admin_of 1) (Some 1) (world_of [sub1; sub2] [])))
  = (Return (Reply "This alert has been unpaused!"), world_of [sub1; sub2] []).
Proof.
  apply (unpause_undoes_pause (admin_of 1) 1 (world_of [sub1; sub2] []) sub1).
  - exists 1. repeat split.
  - cbn. repeat constructor; cbn; intuition discriminate.
  - reflexivity.
Defined.

Lemma dispatch_without_subscription env stream_data streamid s w :
  ¬ In s (List.map AlertChannel.subscriptionid (alert_channels (data w))) →
  List.filter (sent_for s) (discord_calls (snd (on_stream_start env stream_data w)))
  = List.filter (sent_for s) (discord_calls w)
  ∧ alert_count streamid s (data (snd (on_stream_start env stream_data w)))
    = alert_count streamid s (data w).
Proof.
  intros Hgone.
  change (on_stream_start env stream_data w)
    with (for_each_sub (sub_alert env)
            (subscriptions_of (Stream.streamerid stream_data) (data w)) stream_data w).
  apply dispatch_skips_paused.
  intros sub Hin Hsub. destruct Hgone. rewrite <- Hsub.
  apply List.in_map. unfold subscriptions_of in Hin.
  now apply List.filter_In in Hin as [Hin _].
Qed.

(** X27. An authorised [remove] deletes the subscription and, with it, its
    alert rows; every other subscription and alert row stays, in order, and
    the streamers and streams are untouched.  A later dispatch sends nothing
    for the removed subscription. *)
Theorem remove_deletes_subscription ctx subscriptionid w sub_data env stream_data :
  authorised ctx (Some subscriptionid) (data w) sub_data →
  let w1 := snd (streamalert_remove_cmd ctx (Some subscriptionid) w) in
  fst (streamalert_remove_cmd ctx (Some subscriptionid) w)
  = Return (Reply "This alert has been deleted.")
  ∧ alert_channels (data w1)
    = List.filter (λ r, negb (Z.eqb (AlertChannel.subscriptionid r) subscriptionid))
                  (alert_channels (data w))
  ∧ stream_alerts (data w1)
    = List.filter (λ a, negb (Z.eqb (StreamAlert.subscriptionid a) subscriptionid))
                  (stream_alerts (data w))
  ∧ streamers (data w1) = streamers (data w)
  ∧ streams (data w1) = streams (data w)
  ∧ List.filter (sent_for subscriptionid)
                (discord_calls (snd (on_stream_start env stream_data w1)))
    = List.filter (sent_for subscriptionid) (discord_calls w).
Proof.
  intros Hauth w1. subst w1. unfold streamalert_remove_cmd.
  rewrite (edit_alert_command_authorised ctx _ _ w sub_data Hauth).
  destruct Hauth as (id & [= <-] & Hfind & _).
  apply find_subscriptionid in Hfind as [Hid _].
  unfold AlertChannel_delete. run_coroutine. rewrite Hid.
  repeat split.
  match goal with
  | |- context [on_stream_start env stream_data ?w0] =>
      destruct (dispatch_without_subscription env stream_data 0 subscriptionid w0)
        as [Hlog _]
  end; [|exact Hlog].
  cbn. intros Hin. apply List.in_map_iff in Hin as (r & Hr & Hin).
  apply List.filter_In in Hin as [_ Hne]. rewrite Hr, Z.eqb_refl in Hne. discriminate.
Qed.

Lemma remove_deletes_subscription_witness :
  fst (streamalert_remove_cmd (admin_of 1) (Some 1) (world_of [sub1; sub2] [alert1]))
  = Return (Reply "This alert has been deleted.")
  ∧ alert_channels (data (snd (streamalert_remove_cmd (admin_of 1) (Some 1)
                                 (world_of [sub1; sub2] [alert1]))))
    = [sub2]
  ∧ stream_alerts (data (snd (streamalert_remove_cmd (admin_of 1) (Some 1)
                                (world_of [sub1; sub2] [alert1]))))
    = []
  ∧ streamers (data (snd (streamalert_remove_cmd (admin_of 1) (Some 1)
                            (world_of [sub1; sub2] [alert1]))))
    = [alice; bob]
  ∧ streams (data (snd (streamalert_remove_cmd (admin_of 1) (Some 1)
                          (world_of [sub1; sub2] [alert1]))))
    = [alice_stream]
  ∧ List.filter (sent_for 1)
      (discord_calls
         (snd (on_stream_start (env_ok 1000 []) alice_stream
                 (snd (streamalert_remove_cmd (admin_of 1) (Some 1)
                         (world_of [sub1; sub2] [alert1]))))))
    = [].
Proof.
  apply (remove_deletes_subscription (admin_of 1) 1 (world_of [sub1; sub2] [alert1]) sub1
           (env_ok 1000 []) alice_stream).
  exists 1. repeat split.
Defined.

(** ** Every alert has its subscription *)

Lemma sub_alert_has_subscription env subscription stream_data w :
  In subscription (alert_channels (data w)) →
  alerts_have_subscriptions (data w) →
  alerts_have_subscriptions (data (snd (sub_alert env subscription stream_data w))).
Proof.
  intros Hsub Hfk.
  destruct (sub_alert_data_cases env subscription stream_data w) as [->|[mid ->]];
    [exact Hfk|].
  intros a Hin. cbn in *. apply List.in_app_or in Hin as [Hin|[<-|[]]].
  - now apply Hfk.
  - cbn. now apply List.in_map.
Qed.

Lemma dispatch_has_subscriptions env stream_data subbed :
  ∀ w,
    (∀ sub, In sub subbed → In sub (alert_channels (data w))) →
    alerts_have_subscriptions (data w) →
    alerts_have_subscriptions
      (data (snd (for_each_sub (sub_alert env) subbed stream_data w))).
Proof.
  induction subbed as [|sub0 rest IH]; intros w Hsubs Hfk; cbn [for_each_sub]; [exact Hfk|].
  pose proof (sub_alert_has_subscription env sub0 stream_data w
                (Hsubs sub0 (or_introl eq_refl)) Hfk) as Hfk1.
  destruct (sub_alert env sub0 stream_data w) as [r w1] eqn:Hrun.
  destruct (sub_alert_data _ _ _ _ _ _ Hrun) as (_ & Hchannels & _).
  cbn [snd] in *.
  assert (alerts_have_subscriptions
            (data (snd (for_each_sub (sub_alert env) rest stream_data w1)))) as Hrest.
  { apply IH; [|exact Hfk1]. intros sub Hin. rewrite Hchannels. apply Hsubs. now right. }
  destruct r as [[]|[]]; cbn [snd]; auto.
Qed.

(** X28. Referential integrity is kept: if every alert row belongs to a
    subscription of the table, this is still so after a dispatch, after a
    resolution, and after a [remove] command (which deletes the alert rows
    of the subscription it deletes). *)
Theorem alerts_keep_their_subscriptions env ctx alert stream_data w :
  alerts_have_subscriptions (data w) →
  alerts_have_subscriptions (data (snd (on_stream_start env stream_data w)))
  ∧ alerts_have_subscriptions (data (snd (on_stream_end env stream_data w)))
  ∧ alerts_have_subscriptions (data (snd (streamalert_remove_cmd ctx alert w))).
Proof.
  intros Hfk. split; [|split].
  - apply dispatch_has_subscriptions; [|exact Hfk].
    intros sub Hin. unfold subscriptions_of in Hin.
    now apply List.filter_In in Hin as [Hin _].
  - change (on_stream_end env stream_data w)
      with (for_each_sub (sub_resolve env)
              (subscriptions_of (Stream.streamerid stream_data) (data w)) stream_data w).
    destruct (for_each_sub_resolve_frame env stream_data
                (subscriptions_of (Stream.streamerid stream_data) (data w)) w)
      as (_ & _ & _ & _ & Hchannels & _ & Hrows).
    intros a Hin. rewrite Hchannels.
    assert (In (StreamAlert.with_resolved_at None a)
               (List.map (StreamAlert.with_resolved_at None) (stream_alerts (data w))))
      as Hin' by (rewrite <- Hrows; now apply List.in_map).
    apply List.in_map_iff in Hin' as (a0 & Heq & Hin0).
    replace (StreamAlert.subscriptionid a) with (StreamAlert.subscriptionid a0).
    + now apply Hfk.
    + change (StreamAlert.subscriptionid (StreamAlert.with_resolved_at None a0)
              = StreamAlert.subscriptionid (StreamAlert.with_resolved_at None a)).
      now rewrite Heq.
  - unfold streamalert_remove_cmd.
    destruct (edit_alert_command_cases ctx alert
                (λ sub_data, AlertChannel_delete sub_data ;;;
                             ret (Reply "This alert has been deleted.")) w)
      as [[-> _]|(sub_data & _ & ->)]; [exact Hfk|].
    unfold AlertChannel_delete. run_coroutine.
    intros a Hin. cbn in *.
    apply List.filter_In in Hin as [Hin Hother].
    specialize (Hfk a Hin). apply List.in_map_iff in Hfk as (sub & Hsub & Hsubin).
    apply List.in_map_iff. exists sub. split; [exact Hsub|].
    apply List.filter_In. split; [exact Hsubin|]. now rewrite Hsub.
Qed.

Lemma alerts_keep_their_subscriptions_witness :
  alerts_have_subscriptions
    (data (snd (on_stream_start (env_ok 1000 []) alice_stream (world_of [sub1] [alert1]))))
  ∧ alerts_have_subscriptions
      (data (snd (on_stream_end (env_ok 1000 []) alice_stream (world_of [sub1] [alert1]))))
  ∧ alerts_have_subscriptions
      (data (snd (streamalert_remove_cmd (admin_of 1) (Some 1)
                    (world_of [sub1] [alert1])))).
Proof.
  apply (alerts_keep_their_subscriptions (env_ok 1000 []) (admin_of 1) (Some 1)
           alice_stream (world_of [sub1] [alert1])).
  intros a [<-|[]]. cbn. now left.
Defined.

(** ** Creating a subscription *)

Lemma dict_set_keys_eq {V} k (v : V) d :
  dict_keys (dict_set k v d)
  = if existsb (Z.eqb k) (dict_keys d) then dict_keys d else dict_keys d ++ [k].
Proof.
  unfold dict_keys. induction d as [|[k' v'] d IH]; cbn; [reflexivity|].
  rewrite (Z.eqb_sym k k').
  destruct (Z.eqb_spec k' k) as [->|Hne]; cbn; [reflexivity|].
  rewrite IH. now destruct (existsb _ _).
Qed.

(** X29. [streamalert create].  Without the permission, or when Twitch does
    not know the name, nothing changes.  When the channel is already
    subscribed to the streamer the command raises and neither a subscription
    nor a watch entry is added.  Otherwise it answers "StreamAlert Created.":
    the streamer is in the watch list afterwards (earlier entries keep their
    place, so the pages before the last one stay the same), and one
    subscription is added, not paused, without end policy and, whatever the
    message argument was, without a message of its own. *)
Theorem streamalert_create inv cog w :
  (create_allowed inv = false ∨ create_tw_user inv = None →
   ∃ text, streamalert_create_cmd inv cog w = (Return (ErrorReply text), cog, w))
  ∧ (∀ tw_user,
        create_allowed inv = true →
        create_tw_user inv = Some tw_user →
        let '(r, cog', w') := streamalert_create_cmd inv cog w in
        if existsb (λ r, Z.eqb (AlertChannel.channelid r) (create_channelid inv)
                         && Z.eqb (AlertChannel.streamerid r) (TwitchUser.id tw_user))
                   (alert_channels (data w))
        then r = Raise OtherException
             ∧ cog' = cog
             ∧ alert_channels (data w') = alert_channels (data w)
        else r = Return (Reply "StreamAlert Created.")
             ∧ In (TwitchUser.id tw_user) (dict_keys (watching cog'))
             ∧ (∃ last, dict_keys (watching cog') = dict_keys (watching cog) ++ last)
             ∧ live_streams cog' = live_streams cog
             ∧ alert_channels (data w')
               = alert_channels (data w)
                   ++ [AlertChannel.mk (create_subscriptionid inv) (create_guildid inv)
                                       (create_channelid inv) (TwitchUser.id tw_user)
                                       (create_authorid inv) (create_now inv)
                                       false false None None]
             ∧ In (TwitchUser.id tw_user) (List.map Streamer.userid (streamers (data w')))).
Proof.
  split.
  - unfold streamalert_create_cmd. intros [-> | ->]; cbn; [eauto|].
    destruct (create_allowed inv); cbn; eauto.
  - intros tw_user Hallowed Huser. unfold streamalert_create_cmd.
    rewrite Hallowed, Huser. cbn [negb].
    unfold Streamer_fetch_or_create, AlertChannel_create. run_coroutine.
    assert (∀ streamer (d : list (Z * Streamer.row)),
               ∃ last, dict_keys (dict_set (Streamer.userid streamer) streamer d)
                       = dict_keys d ++ last) as Hkeys.
    { intros streamer d. rewrite dict_set_keys_eq.
      destruct (existsb _ _); [exists []|eauto]. now rewrite List.app_nil_r. }
    destruct (List.find _ (streamers (data w))) as [streamer|] eqn:Hfind;
      cbn [fst snd data discord_calls streamers alert_channels Streamer.userid].
    + apply List.find_some in Hfind as [Hin Hid]. apply Z.eqb_eq in Hid. rewrite Hid.
      destruct (existsb _ (alert_channels (data w)));
        cbn [fst snd data discord_calls streamers alert_channels watching live_streams];
        [auto|].
      split; [reflexivity|]. split; [rewrite <- Hid at 1; apply dict_set_key_in|].
      split; [apply Hkeys|]. split; [reflexivity|]. split; [reflexivity|].
      rewrite <- Hid. now apply List.in_map.
    + destruct (existsb _ (alert_channels (data w)));
        cbn [fst snd data discord_calls streamers alert_channels watching live_streams];
        [auto|].
      split; [reflexivity|]. split; [apply (dict_set_key_in (TwitchUser.id tw_user))|].
      split; [apply (Hkeys (Streamer.mk _ _ _))|]. split; [reflexivity|].
      split; [reflexivity|].
      rewrite List.map_app. apply List.in_or_app. right. now left.
Qed.

Lemma streamalert_create_witness :
  let '(r, cog', w') :=
    streamalert_create_cmd (create_for_alice 300 (Some "hello"%string)) two_pages
                           (world_of [sub1] []) in
  r = Return (Reply "StreamAlert Created.")
  ∧ In 7 (dict_keys (watching cog'))
  ∧ (∃ last, dict_keys (watching cog') = dict_keys (watching two_pages) ++ last)
  ∧ live_streams cog' = live_streams two_pages
  ∧ alert_channels (data w')
    = [sub1; AlertChannel.mk 9 1 300 7 42 950 false false None None]
  ∧ In 7 (List.map Streamer.userid (streamers (data w'))).
Proof.
  exact (proj2 (streamalert_create (create_for_alice 300 (Some "hello"%string)) two_pages
                  (world_of [sub1] []))
               (TwitchUser.mk 7 "alice" "alice") eq_refl eq_refl).
Defined.

(** ** The editor and the resolver *)

(** X30. The editor shows what the resolver does.  For an open alert whose
    message is found and whose end message can be rendered, [sub_resolve]
    makes one delete call exactly when the ending mode menu shows "Delete
    Alert After Stream", one edit call exactly when it shows "Edit Alert
    After Stream", and otherwise neither; and the "Edit Ending Alert" button
    is shown exactly in the second case. *)
Theorem editor_shows_end_policy env subscription stream_data w alert rest channel formatted :
  alerts_for (Stream.streamid stream_data) (AlertChannel.subscriptionid subscription) (data w)
  = alert :: rest →
  StreamAlert.resolved_at alert = None →
  get_channel env (AlertChannel.channelid subscription) = Some channel →
  channel_fetch_message env (AlertChannel.channelid subscription) (StreamAlert.messageid alert)
  = Return tt →
  AlertSettings.AlertEndMessage.formatter
    stream_data
    (List.find (λ r, Z.eqb (Streamer.userid r) (Stream.streamerid stream_data))
               (streamers (data w)))
    (AlertChannel.end_message subscription)
  = Return formatted →
  let calls := discord_calls (snd (sub_resolve env subscription stream_data w)) in
  List.length (List.filter is_delete calls)
  = (List.length (List.filter is_delete (discord_calls w))
     + (if decide (ending_mode_default subscription = Some 1%nat) then 1 else 0))%nat
  ∧ List.length (List.filter is_edit calls)
    = (List.length (List.filter is_edit (discord_calls w))
       + (if decide (ending_mode_default subscription = Some 2%nat) then 1 else 0))%nat
  ∧ (show_end_edit subscription = true ↔ ending_mode_default subscription = Some 2%nat).
Proof.
  intros Hfetch Hopen Hchannel Hfound Hrender calls. subst calls.
  unfold ending_mode_default, show_end_edit. run_coroutine.
  rewrite Hfetch, Hopen.
  destruct (AlertChannel.end_delete subscription) eqn:Hdel; cbn.
  - rewrite Hchannel, Hfound. cbn.
    destruct (message_delete env _ _) as [[]|[]]; cbn;
      rewrite !List.filter_app, !List.length_app; cbn;
      repeat case_decide; try discriminate; try congruence;
      repeat split; try lia; try discriminate.
  - destruct (truthy_opt (AlertChannel.end_message subscription)) eqn:Htemplate; cbn.
    + rewrite Hchannel, Hfound. cbn. rewrite Hrender. cbn.
      destruct (message_edit env _ _ _) as [[]|[]]; cbn;
        rewrite !List.filter_app, !List.length_app; cbn;
        repeat case_decide; try discriminate; try congruence;
        repeat split; try lia; auto.
    + repeat case_decide; try discriminate; repeat split; try lia; discriminate.
Qed.

(** ** Witnesses for the further properties *)

Lemma env_ok_tolerated now live : tolerated (env_ok now live).
Proof. repeat split; intros; discriminate. Qed.

(** Streamers 0 and 100 were cached and Twitch answers for streamer 100
    only: after the cycle the cache holds the stream of 100 and no longer
    that of 0. *)
Lemma poll_cycle_cache_is_response_witness :
  StrKey "100"
  ∈ dom (live_streams
           (poll_cog (fst (poll_cycle (env_ok 2000 [zero_twitch; hundred_twitch])
                                      two_pages_live two_pages_live_data 0))))
  ∧ (StrKey "0"
     ∉ dom (live_streams
              (poll_cog (fst (poll_cycle (env_ok 2000 [zero_twitch; hundred_twitch])
                                         two_pages_live two_pages_live_data 0))))).
Proof.
  pose proof (poll_cycle_cache_is_response
                (env_ok 2000 [zero_twitch; hundred_twitch]) elements_members
                two_pages_live two_pages_live_data 0 ltac:(discriminate)) as Hdom.
  assert (get_streams (env_ok 2000 [zero_twitch; hundred_twitch])
                      (block_of two_pages_live 0) = [hundred_twitch]) as Hanswer
      by (vm_compute; reflexivity).
  rewrite !Hdom, Hanswer. split.
  - exists hundred_twitch. split; [now left|reflexivity].
  - intros (s & [<-|[]] & Hk). discriminate Hk.
Defined.

(** alice's stream was started by the loop and Twitch reports her again:
    her row stays.  bob's stream was loaded by [load_subs] and Twitch
    reports him as well: his row is ended and a second stream of his is
    started. *)
Lemma poll_cycle_recognises_by_key_witness :
  live_streams (poll_cog (fst (poll_cycle (env_ok 1060 [alice_twitch]) alice_live
                                          (data_of [sub1] [alice_stream] []) 0)))
    !! StrKey "7" = Some alice_stream
  ∧ live_streams (poll_cog (fst (poll_cycle (env_ok 2000 [bob_twitch])
                                            (load_subs restart_data) restart_data 0)))
      !! IntKey 5 = None
  ∧ In (OnStreamEnd (Stream.with_end_at (Some 2000) bob_closed))
       (event_tasks (fst (poll_cycle (env_ok 2000 [bob_twitch])
                                     (load_subs restart_data) restart_data 0)))
  ∧ ∃ second,
      live_streams (poll_cog (fst (poll_cycle (env_ok 2000 [bob_twitch])
                                              (load_subs restart_data) restart_data 0)))
        !! StrKey "5" = Some second
      ∧ Stream.streamerid second = 5
      ∧ Stream.end_at second = None
      ∧ In (OnStreamStart second)
           (event_tasks (fst (poll_cycle (env_ok 2000 [bob_twitch])
                                         (load_subs restart_data) restart_data 0))).
Proof.
  split.
  - apply (proj1 (poll_cycle_recognises_by_key
                    (env_ok 1060 [alice_twitch]) elements_members alice_live
                    (data_of [sub1] [alice_stream] []) 0 ltac:(discriminate))
                 alice_twitch alice_stream).
    + vm_compute. auto.
    + reflexivity.
  - destruct (proj2 (poll_cycle_recognises_by_key
                       (env_ok 2000 [bob_twitch]) elements_members
                       (load_subs restart_data) restart_data 0
                       ltac:(vm_compute; discriminate))
                    5 bob_closed) as (Hgone & Htask & Hsecond).
    + vm_compute. reflexivity.
    + split; [exact Hgone|]. split; [exact Htask|].
      apply (Hsecond bob_twitch); [vm_compute; auto|reflexivity|reflexivity].
Defined.

(** Streamer 0 was cached, Twitch answers for streamer 100: the start task
    of the cycle is for the answer, whose [user_id] was not cached. *)
Lemma poll_cycle_tasks_follow_keys_witness :
  (∃ s streamid,
      In s (get_streams (env_ok 2000 [zero_twitch; hundred_twitch]) (block_of two_pages 0))
      ∧ live_streams two_pages !! StrKey (TwitchStream.user_id s) = None
      ∧ OnStreamStart hundred_stream
        = OnStreamStart
            (Stream.mk streamid
                       (bigint_of_str (env_ok 2000 [zero_twitch; hundred_twitch])
                                      (TwitchStream.user_id s))
                       (TwitchStream.started_at s)
                       (bigint_of_str (env_ok 2000 [zero_twitch; hundred_twitch])
                                      (TwitchStream.id s))
                       (TwitchStream.game_name s) (TwitchStream.title s) None))
  ∨ (∃ k stream_data,
        live_streams two_pages !! k = Some stream_data
        ∧ (¬ ∃ s, In s (get_streams (env_ok 2000 [zero_twitch; hundred_twitch])
                                    (block_of two_pages 0))
                  ∧ k = StrKey (TwitchStream.user_id s))
        ∧ OnStreamStart hundred_stream
          = OnStreamEnd (Stream.with_end_at (Some 2000) stream_data)).
Proof.
  apply (poll_cycle_tasks_follow_keys (env_ok 2000 [zero_twitch; hundred_twitch])
           elements_members two_pages two_pages_data 0 (OnStreamStart hundred_stream)).
  vm_compute. now left.
Defined.

Lemma poll_cycle_other_rows_unchanged_witness :
  In bob_closed
     (streams (poll_data (fst (poll_cycle (env_ok 2000 [zero_twitch]) two_pages
                                          two_pages_history 0)))).
Proof.
  apply (poll_cycle_other_rows_unchanged (env_ok 2000 [zero_twitch]) elements_members
           two_pages two_pages_history 0 bob_closed).
  - right. now left.
  - intros x stream_data _ Hcached. unfold two_pages, live_streams in Hcached.
    apply lookup_singleton_Some in Hcached as [_ <-]. discriminate.
Defined.

Lemma sub_resolve_edits_witness :
  sub_resolve (env_ok 2000 []) sub_edit alice_ended (world_of [sub_edit] [alert1])
  = (Return tt,
     mkWorld (resolved_data alert1 2000 (data (world_of [sub_edit] [alert1])))
             [(FetchMessage 100 5100, None);
              (Edit 100 5100
                    (value_to_args 1
                       (Some (JDict [("content"%string,
                                      JStr "alice was live until 2000")]))),
               None)]).
Proof.
  apply (sub_resolve_edits (env_ok 2000 []) sub_edit alice_ended
           (world_of [sub_edit] [alert1]) alert1 [] text_channel
           (Some (JDict [("content"%string, JStr "alice was live until 2000")])));
    reflexivity.
Defined.

(** The stream handed over has no end time: the end message cannot be
    rendered. *)
Lemma sub_resolve_cannot_render_witness :
  sub_resolve (env_ok 2000 []) sub_edit alice_stream (world_of [sub_edit] [alert1])
  = (Raise OtherException,
     mkWorld (data (world_of [sub_edit] [alert1])) [(FetchMessage 100 5100, None)]).
Proof.
  apply (sub_resolve_cannot_render (env_ok 2000 []) sub_edit alice_stream
           (world_of [sub_edit] [alert1]) alert1 [] text_channel);
    try reflexivity.
  right. reflexivity.
Defined.

Lemma on_stream_end_resolves_all_witness :
  fst (on_stream_end (env_ok 2000 []) alice_ended
                     (world_of [sub_edit; sub2] [alert1; alert1_again]))
  = Return tt
  ∧ ∀ sub, In sub (subscriptions_of 7 (data (world_of [sub_edit; sub2]
                                                      [alert1; alert1_again]))) →
           first_alert_resolved 1 (AlertChannel.subscriptionid sub)
             (data (snd (on_stream_end (env_ok 2000 []) alice_ended
                           (world_of [sub_edit; sub2] [alert1; alert1_again])))).
Proof.
  apply (on_stream_end_resolves_all (env_ok 2000 []) alice_ended
           (world_of [sub_edit; sub2] [alert1; alert1_again]) alice 2000).
  - apply env_ok_tolerated.
  - reflexivity.
  - reflexivity.
Defined.

Lemma editor_shows_end_policy_witness :
  List.length
    (List.filter is_delete
       (discord_calls (snd (sub_resolve (env_ok 2000 []) sub_edit alice_ended
                              (world_of [sub_edit] [alert1])))))
  = 0%nat
  ∧ List.length
      (List.filter is_edit
         (discord_calls (snd (sub_resolve (env_ok 2000 []) sub_edit alice_ended
                                (world_of [sub_edit] [alert1])))))
    = 1%nat
  ∧ (show_end_edit sub_edit = true ↔ ending_mode_default sub_edit = Some 2%nat).
Proof.
  apply (editor_shows_end_policy (env_ok 2000 []) sub_edit alice_ended
           (world_of [sub_edit] [alert1]) alert1 [] text_channel
           (Some (JDict [("content"%string, JStr "alice was live until 2000")])));
    reflexivity.
Defined.
